(** * syncrypto/crypto.py: the container format engine

    A shallow embedding of [syncrypto.crypto.Crypto] (the constructor, key
    derivation, the footer codec, [encrypt_fd], [decrypt_fd], the two
    compression helpers and the two calls on paths) and the properties of
    the container format that follow from the code.

    Conventions.
    - Python [bytes] are [list byte]; Python integers are [Z]; lengths and
      offsets are [nat]; a Python float is a [spec_float] (a finite binary
      value, an infinity or nan).
    - An exception is a value of [exn]; a pure fallible call returns a
      [result], a call that reads or writes the two file objects runs in the
      monad [M], whose state is kept when an exception is raised.
    - [hashlib.md5], the AES block function of [cryptography], [zlib],
      [os.urandom] and [time.time] are not code of this module: they are the
      fields of the classes [Libs] and [Host], with the laws the module
      relies on.  CBC chaining and the buffering of partial blocks by
      [update]/[finalize] are written out. *)

From Stdlib Require Import ZArith NArith List Lia Bool QArith Qround ZifyNat.
From Stdlib Require Import SpecFloat.
From Stdlib.Strings Require Import Byte.
Import ListNotations.

Local Open Scope nat_scope.

Definition bytes := list byte.

(** ** Bytes and integers *)

Definition byte_of_Z (z : Z) : byte :=
  match Byte.of_N (Z.to_N (z mod 256)) with
  | Some b => b
  | None => x00
  end.

Definition Z_of_byte (b : byte) : Z := Z.of_N (Byte.to_N b).

(** Big-endian encoding of [v] on [n] bytes (the low [8n] bits of [v]). *)
Fixpoint be_encode (n : nat) (v : Z) : bytes :=
  match n with
  | O => []
  | S m => be_encode m (v / 256) ++ [byte_of_Z v]
  end.

Definition be_decode (l : bytes) : Z :=
  fold_left (fun acc b => (acc * 256 + Z_of_byte b)%Z) l 0%Z.

(** ** Exceptions and results *)

Inductive exn : Type :=
| InvalidKey
| DigestMissMatch
| UnrecognizedContent
| VersionNotCompatible
| StructError          (* struct.error *)
| ValueError
| TypeError
| IndexError
| UnicodeEncodeError
| ZlibError            (* zlib.error *)
| OverflowError
| IOError.             (* open() of a file that does not exist *)

Inductive result (A : Type) : Type :=
| Ok (a : A)
| Err (e : exn).
Arguments Ok {A} a.
Arguments Err {A} e.

Definition rbind {A B} (r : result A) (f : A -> result B) : result B :=
  match r with
  | Ok a => f a
  | Err e => Err e
  end.

(** ** Numbers

    The times of an entry are what its maker put there: an int, or a float
    ([time()] and the times of [os.stat] are floats). *)
Inductive number : Type :=
| PyInt (z : Z)
| PyFloat (f : spec_float).

(** [int(x)]: the identity on an int; a float is cut towards zero;
    [int(nan)] raises ValueError and [int(inf)] OverflowError. *)
Definition py_int (x : number) : result Z :=
  match x with
  | PyInt z => Ok z
  | PyFloat (S754_zero _) => Ok 0%Z
  | PyFloat (S754_infinity _) => Err OverflowError
  | PyFloat S754_nan => Err ValueError
  | PyFloat (S754_finite s m e) =>
      let magnitude :=
        (if 0 <=? e then Z.pos m * 2 ^ e else Z.pos m / 2 ^ (- e))%Z in
      Ok (if s then (- magnitude)%Z else magnitude)
  end.

(** ** struct.pack / struct.unpack, for the formats the module uses *)

Definition pack_unsigned (n : nat) (v : Z) : result bytes :=
  if ((0 <=? v) && (v <? 256 ^ Z.of_nat n))%Z
  then Ok (be_encode n v) else Err StructError.

Definition pack_signed (n : nat) (v : Z) : result bytes :=
  if ((- (256 ^ Z.of_nat n / 2) <=? v) && (v <? 256 ^ Z.of_nat n / 2))%Z
  then Ok (be_encode n v) else Err StructError.

Definition unpack_unsigned (l : bytes) : Z := be_decode l.

Definition unpack_signed (l : bytes) : Z :=
  let u := be_decode l in
  let m := (256 ^ Z.of_nat (length l))%Z in
  if (u <? m / 2)%Z then u else (u - m)%Z.

Definition pack_B := pack_unsigned 1.   (* 'B'  *)
Definition pack_H := pack_unsigned 2.   (* '!H' *)
Definition pack_I := pack_unsigned 4.   (* '!I' *)
Definition pack_Q := pack_unsigned 8.   (* '!Q' *)
Definition pack_i := pack_signed 4.     (* '!i' *)

(** unpack(b'!H', data) *)
Definition unpack_H (data : bytes) : result Z :=
  if length data =? 2 then Ok (unpack_unsigned data) else Err StructError.

(** ** Python slices and indexing *)

(** The position a slice bound [i] denotes in a sequence of length [len]. *)
Definition slice_bound (len : nat) (i : Z) : nat :=
  if (i <? 0)%Z then Z.to_nat (Z.max 0 (Z.of_nat len + i))
  else Nat.min (Z.to_nat i) len.

(** [l[start:stop]]; [None] is an omitted bound. *)
Definition slice {A} (l : list A) (start stop : option Z) : list A :=
  let len := length l in
  let a := match start with Some i => slice_bound len i | None => 0 end in
  let b := match stop with Some i => slice_bound len i | None => len end in
  firstn (b - a) (skipn a l).

(** [a == b] on bytes *)
Fixpoint bytes_eqb (a b : bytes) : bool :=
  match a, b with
  | [], [] => true
  | x :: a', y :: b' => Byte.eqb x y && bytes_eqb a' b'
  | _, _ => false
  end.

(** [bytearray(data)[0]] *)
Definition bytearray_first (data : bytes) : result Z :=
  match data with
  | b :: _ => Ok (Z_of_byte b)
  | [] => Err IndexError
  end.

(** unpack(b'!QIIi', data) *)
Definition unpack_QIIi (data : bytes) : result (Z * Z * Z * Z) :=
  if length data =? 20
  then Ok (unpack_unsigned (slice data None (Some 8%Z)),
           unpack_unsigned (slice data (Some 8%Z) (Some 12%Z)),
           unpack_unsigned (slice data (Some 12%Z) (Some 16%Z)),
           unpack_signed (slice data (Some 16%Z) (Some 20%Z)))
  else Err StructError.

(** ** Text *)

(** A Python text string: its code points. *)
Definition text := list N.

Definition byte_of_N (n : N) : byte := byte_of_Z (Z.of_N n).

(** One code point in UTF-8; lone surrogates do not encode. *)
Definition utf8_encode_char (c : N) : result bytes :=
  (if c <? 0x80 then Ok [byte_of_N c]
   else if c <? 0x800 then
     Ok [byte_of_N (N.lor 0xC0 (N.shiftr c 6));
         byte_of_N (N.lor 0x80 (N.land c 0x3F))]
   else if c <? 0x10000 then
     if (0xD800 <=? c) && (c <=? 0xDFFF) then Err UnicodeEncodeError
     else Ok [byte_of_N (N.lor 0xE0 (N.shiftr c 12));
              byte_of_N (N.lor 0x80 (N.land (N.shiftr c 6) 0x3F));
              byte_of_N (N.lor 0x80 (N.land c 0x3F))]
   else if c <? 0x110000 then
     Ok [byte_of_N (N.lor 0xF0 (N.shiftr c 18));
         byte_of_N (N.lor 0x80 (N.land (N.shiftr c 12) 0x3F));
         byte_of_N (N.lor 0x80 (N.land (N.shiftr c 6) 0x3F));
         byte_of_N (N.lor 0x80 (N.land c 0x3F))]
   else Err UnicodeEncodeError)%N.

(** [s.encode("utf-8")] *)
Fixpoint encode_utf8 (s : text) : result bytes :=
  match s with
  | [] => Ok []
  | c :: s' =>
      rbind (utf8_encode_char c) (fun b =>
      rbind (encode_utf8 s') (fun bs => Ok (b ++ bs)))
  end.

(** [s.encode("latin-1")] *)
Fixpoint encode_latin1 (s : text) : result bytes :=
  match s with
  | [] => Ok []
  | c :: s' =>
      if (c <? 256)%N
      then rbind (encode_latin1 s') (fun bs => Ok (byte_of_N c :: bs))
      else Err UnicodeEncodeError
  end.

(** ** The libraries and the host

    What the module imports and this development does not define: the laws
    are those the module's own logic relies on. *)

Class Libs : Type := {
  (** hashlib.md5(m).digest() *)
  md5 : bytes -> bytes;
  md5_length : forall m, length (md5 m) = 16;
  (** the AES block function under a key, and its inverse *)
  aes_encrypt_block : bytes -> bytes -> bytes;
  aes_decrypt_block : bytes -> bytes -> bytes;
  aes_encrypt_length :
    forall k b, length b = 16 -> length (aes_encrypt_block k b) = 16;
  aes_decrypt_length :
    forall k b, length b = 16 -> length (aes_decrypt_block k b) = 16;
  aes_decrypt_encrypt :
    forall k b, length b = 16 ->
      aes_decrypt_block k (aes_encrypt_block k b) = b;
  (** zlib.compress, zlib.decompress *)
  zlib_compress : bytes -> bytes;
  zlib_decompress : bytes -> option bytes;   (* None: zlib.error *)
  zlib_decompress_compress :
    forall d, zlib_decompress (zlib_compress d) = Some d
}.

Class Host : Type := {
  (** os.urandom(n), as it answers the one call of an encryption *)
  os_urandom : nat -> bytes;
  os_urandom_length : forall n, length (os_urandom n) = n;
  (** time(), a float, as it answers the calls of an encryption: the
      first call, the second call *)
  time_time : nat -> spec_float
}.

(** ** hashlib.md5 objects: the bytes fed so far *)

Definition md5_obj := bytes.
Definition md5_new : md5_obj := [].
Definition md5_update (h : md5_obj) (data : bytes) : md5_obj := h ++ data.
Definition md5_digest `{Libs} (h : md5_obj) : bytes := md5 h.

(** ** AES in CBC mode: cipher contexts *)

Definition xor_bits (a b : bool * (bool * (bool * (bool * (bool * (bool * (bool * bool)))))))
  : bool * (bool * (bool * (bool * (bool * (bool * (bool * bool)))))) :=
  let '(a0, (a1, (a2, (a3, (a4, (a5, (a6, a7))))))) := a in
  let '(b0, (b1, (b2, (b3, (b4, (b5, (b6, b7))))))) := b in
  (xorb a0 b0, (xorb a1 b1, (xorb a2 b2, (xorb a3 b3,
   (xorb a4 b4, (xorb a5 b5, (xorb a6 b6, xorb a7 b7))))))).

Definition xor_byte (a b : byte) : byte :=
  Byte.of_bits (xor_bits (Byte.to_bits a) (Byte.to_bits b)).

Fixpoint xor_bytes (a b : bytes) : bytes :=
  match a, b with
  | x :: a', y :: b' => xor_byte x y :: xor_bytes a' b'
  | _, _ => []
  end.

(** The complete 16-byte blocks at the front of [data], and what is left. *)
Fixpoint split_blocks_aux (fuel : nat) (data : bytes) : list bytes * bytes :=
  match fuel with
  | O => ([], data)
  | S fuel' =>
      let b := firstn 16 data in
      if length b =? 16 then
        let '(bl, r) := split_blocks_aux fuel' (skipn 16 data) in (b :: bl, r)
      else ([], data)
  end.

Definition split_blocks (data : bytes) : list bytes * bytes :=
  split_blocks_aux (length data) data.

Record CipherContext : Type := {
  ctx_key : bytes;
  ctx_chain : bytes;     (* the previous ciphertext block, first the IV *)
  ctx_buffer : bytes     (* input not yet making a block *)
}.

(** Cipher(algorithms.AES(key), modes.CBC(iv), backend): the key is 128, 192
    or 256 bits and the IV one block, or ValueError. *)
Definition aes_key_size_ok (n : nat) : bool :=
  (n =? 16) || (n =? 24) || (n =? 32).

Definition new_cipher (key iv : bytes) : result CipherContext :=
  if aes_key_size_ok (length key) && (length iv =? 16)
  then Ok {| ctx_key := key; ctx_chain := iv; ctx_buffer := [] |}
  else Err ValueError.

Section Cipher.
Context `{Libs}.

Fixpoint cbc_encrypt_blocks (key chain : bytes) (blocks : list bytes)
  : bytes * bytes :=
  match blocks with
  | [] => ([], chain)
  | b :: rest =>
      let c := aes_encrypt_block key (xor_bytes b chain) in
      let '(out, chain') := cbc_encrypt_blocks key c rest in
      (c ++ out, chain')
  end.

Fixpoint cbc_decrypt_blocks (key chain : bytes) (blocks : list bytes)
  : bytes * bytes :=
  match blocks with
  | [] => ([], chain)
  | c :: rest =>
      let p := xor_bytes (aes_decrypt_block key c) chain in
      let '(out, chain') := cbc_decrypt_blocks key c rest in
      (p ++ out, chain')
  end.

(** encryptor.update(data): the complete blocks are processed, a partial
    block waits in the context. *)
Definition encryptor_update (ctx : CipherContext) (data : bytes)
  : bytes * CipherContext :=
  let '(blocks, rest) := split_blocks (ctx_buffer ctx ++ data) in
  let '(out, chain) := cbc_encrypt_blocks (ctx_key ctx) (ctx_chain ctx) blocks in
  (out, {| ctx_key := ctx_key ctx; ctx_chain := chain; ctx_buffer := rest |}).

(** decryptor.update(data) *)
Definition decryptor_update (ctx : CipherContext) (data : bytes)
  : bytes * CipherContext :=
  let '(blocks, rest) := split_blocks (ctx_buffer ctx ++ data) in
  let '(out, chain) := cbc_decrypt_blocks (ctx_key ctx) (ctx_chain ctx) blocks in
  (out, {| ctx_key := ctx_key ctx; ctx_chain := chain; ctx_buffer := rest |}).

(** finalize(): nothing is left to emit; a waiting partial block is an
    error (the data was not a multiple of the block length). *)
Definition cipher_finalize (ctx : CipherContext) : result bytes :=
  match ctx_buffer ctx with
  | [] => Ok []
  | _ :: _ => Err ValueError
  end.

End Cipher.

(** The cipher on a whole stream: what the [update] calls of a context
    started at [iv] emit, taken together, while [data] is fed to it in any
    pieces; the context they leave behind. *)
Section CipherStreams.
Context `{Libs}.

Definition cbc_encrypt (key iv data : bytes) : bytes :=
  fst (cbc_encrypt_blocks key iv (fst (split_blocks data))).

Definition cbc_decrypt (key iv data : bytes) : bytes :=
  fst (cbc_decrypt_blocks key iv (fst (split_blocks data))).

Definition encryptor_after (key iv data : bytes) : CipherContext :=
  {| ctx_key := key;
     ctx_chain := snd (cbc_encrypt_blocks key iv (fst (split_blocks data)));
     ctx_buffer := snd (split_blocks data) |}.

Definition decryptor_after (key iv data : bytes) : CipherContext :=
  {| ctx_key := key;
     ctx_chain := snd (cbc_decrypt_blocks key iv (fst (split_blocks data)));
     ctx_buffer := snd (split_blocks data) |}.

End CipherStreams.

(** ** FileEntry *)

(** Modelled from the spec: [FileEntry] of [syncrypto.filetree], which is not
    among the sources.  It is the record of the attributes the engine reads
    and writes (pathname, size, ctime, mtime, mode, digest, salt and the
    directory flag); digest and salt may be absent ([None]).  The pathname is
    text when the caller builds the entry and the raw bytes read from the
    container when [decrypt_fd] builds it, hence the parameter.  The times
    are kept as they are given, ints or floats: [_build_footer] takes
    [int] of them. *)
Record FileEntry (P : Type) : Type := {
  pathname : P;
  size : Z;
  ctime : number;
  mtime : number;
  mode : Z;
  digest : option bytes;
  isdir : bool;
  salt : option bytes
}.
Arguments pathname {P} _.
Arguments size {P} _.
Arguments ctime {P} _.
Arguments mtime {P} _.
Arguments mode {P} _.
Arguments digest {P} _.
Arguments isdir {P} _.
Arguments salt {P} _.

(** Modelled from the spec: the constructor, as the two calls of the module
    use it: FileEntry(pathname, size, ctime, mtime, mode[, digest, isdir]). *)
Definition new_FileEntry {P} (pathname : P) (size : Z) (ctime mtime : number)
  (mode : Z) (digest : option bytes) (isdir : bool) : FileEntry P :=
  {| pathname := pathname; size := size; ctime := ctime; mtime := mtime;
     mode := mode; digest := digest; isdir := isdir; salt := None |}.

(** file_entry.salt = s *)
Definition set_salt {P} (fe : FileEntry P) (s : bytes) : FileEntry P :=
  {| pathname := pathname fe; size := size fe; ctime := ctime fe;
     mtime := mtime fe; mode := mode fe; digest := digest fe;
     isdir := isdir fe; salt := Some s |}.

(** file_entry.digest = d *)
Definition set_digest {P} (fe : FileEntry P) (d : bytes) : FileEntry P :=
  {| pathname := pathname fe; size := size fe; ctime := ctime fe;
     mtime := mtime fe; mode := mode fe; digest := Some d;
     isdir := isdir fe; salt := salt fe |}.

(** ** class Crypto *)

Definition VERSION : Z := 1.
Definition COMPRESS : Z := 1.
Definition BUFFER_SIZE : nat := 1024.

Record Crypto : Type := {
  password : bytes;
  key_size : nat
}.

(** self.block_size, set to 16 by every construction *)
Definition block_size (self : Crypto) : nat := 16.

(** Crypto(password, key_size) *)
Definition Crypto_init (password : text) (key_size : nat) : result Crypto :=
  rbind (encode_latin1 password) (fun p =>
  Ok {| password := p; key_size := key_size |}).

Section KeyDerivation.
Context `{Libs}.

(** The loop of [gen_key_and_iv]; every turn appends one digest, that is 16
    bytes, so the loop is over after at most [key_size + block_size] turns
    and the caller's [fuel] is never what stops it. *)
Fixpoint gen_key_and_iv_loop (fuel : nat) (self : Crypto) (salt d d_i : bytes)
  : bytes :=
  match fuel with
  | O => d
  | S fuel' =>
      if length d <? key_size self + block_size self then
        let d_i := md5 (d_i ++ password self ++ salt) in
        gen_key_and_iv_loop fuel' self salt (d ++ d_i) d_i
      else d
  end.

Definition gen_key_and_iv (self : Crypto) (salt : bytes) : bytes * bytes :=
  let d := gen_key_and_iv_loop (key_size self + block_size self) self salt [] [] in
  (slice d None (Some (Z.of_nat (key_size self))),
   slice d (Some (Z.of_nat (key_size self)))
           (Some (Z.of_nat (key_size self + block_size self)))).

End KeyDerivation.

(** ** The footer codec *)

Definition _build_footer {P} (file_entry : FileEntry P) : result bytes :=
  rbind (pack_Q (size file_entry)) (fun b_size =>
  rbind (match digest file_entry with
         | Some d => Ok (d ++ b_size)
         | None => Err TypeError
         end) (fun acc =>
  rbind (py_int (ctime file_entry)) (fun int_ctime =>
  rbind (pack_I int_ctime) (fun b_ctime =>
  rbind (py_int (mtime file_entry)) (fun int_mtime =>
  rbind (pack_I int_mtime) (fun b_mtime =>
  rbind (pack_i (mode file_entry)) (fun b_mode =>
  Ok (acc ++ b_ctime ++ b_mtime ++ b_mode ++ repeat x00 12)))))))).

Definition _unpack_footer (pathname : bytes) (footer : bytes)
  : result (FileEntry bytes) :=
  rbind (unpack_QIIi (slice footer (Some 16%Z) (Some 36%Z)))
    (fun '(size, ctime, mtime, mode) =>
  Ok (new_FileEntry pathname size (PyInt ctime) (PyInt mtime) mode
        (Some (slice footer None (Some 16%Z))) false)).

(** The whole seconds of a time: [int] of it, where [int] is defined. *)
Definition seconds (x : number) : Z :=
  match py_int x with
  | Ok z => z
  | Err _ => 0%Z
  end.

(** A time the footer can hold: [int] of it is defined and a uint32. *)
Definition time_ok (x : number) : bool :=
  match py_int x with
  | Ok z => ((0 <=? z) && (z <? 2 ^ 32))%Z
  | Err _ => false
  end.

(** The entries the footer can hold: a digest of 16 bytes and each number
    within its field (uint64 size, uint32 whole seconds, int32 mode). *)
Definition numbers_ok {P} (fe : FileEntry P) : bool :=
  ((0 <=? size fe) && (size fe <? 2 ^ 64))%Z
  && time_ok (ctime fe) && time_ok (mtime fe)
  && ((- 2 ^ 31 <=? mode fe) && (mode fe <? 2 ^ 31))%Z.

Definition footer_fields_ok {P} (fe : FileEntry P) : bool :=
  match digest fe with
  | Some d => length d =? 16
  | None => false
  end
  && numbers_ok fe.

(** The layout of a footer: digest, size, ctime, mtime, mode and the
    reserved bytes. *)
Definition footer_layout (d : bytes) (size ctime mtime mode : Z) (reserved : bytes)
  : bytes :=
  d ++ be_encode 8 size ++ be_encode 4 ctime ++ be_encode 4 mtime
    ++ be_encode 4 mode ++ reserved.

(** ** File objects and the monad of the two engine calls *)

(** The state of a call: what is still to be read from the object the name
    [in_fd] is bound to, and what has been written to [out_fd]. *)
Record fds : Type := {
  in_fd : bytes;
  out_fd : bytes
}.

Inductive outcome (A : Type) : Type :=
| Return (a : A)
| Raise (e : exn)
| OutOfFuel.          (* the loop was still running when the fuel ran out *)
Arguments Return {A} a.
Arguments Raise {A} e.
Arguments OutOfFuel {A}.

Definition M (A : Type) : Type := fds -> outcome A * fds.

Definition ret {A} (a : A) : M A := fun s => (Return a, s).

Definition bind {A B} (m : M A) (f : A -> M B) : M B :=
  fun s =>
    match m s with
    | (Return a, s') => f a s'
    | (Raise e, s') => (Raise e, s')
    | (OutOfFuel, s') => (OutOfFuel, s')
    end.

Definition raise {A} (e : exn) : M A := fun s => (Raise e, s).

Definition out_of_fuel {A} : M A := fun s => (OutOfFuel, s).

Definition lift {A} (r : result A) : M A :=
  match r with
  | Ok a => ret a
  | Err e => raise e
  end.

Declare Scope monad_scope.
Delimit Scope monad_scope with monad.
Notation "x <- m ;; k" := (bind m (fun x => k))
  (at level 61, m at next level, right associativity) : monad_scope.
Notation "' p <- m ;; k" := (bind m (fun x => let 'p := x in k))
  (at level 61, p pattern, m at next level, right associativity) : monad_scope.
Notation "m ;; k" := (bind m (fun _ => k))
  (at level 61, right associativity) : monad_scope.

(** in_fd.read(n) *)
Definition fd_read (n : nat) : M bytes :=
  fun s => (Return (firstn n (in_fd s)),
            {| in_fd := skipn n (in_fd s); out_fd := out_fd s |}).

(** in_fd.read() *)
Definition fd_read_all : M bytes :=
  fun s => (Return (in_fd s), {| in_fd := []; out_fd := out_fd s |}).

(** out_fd.write(data) *)
Definition fd_write (data : bytes) : M unit :=
  fun s => (Return tt, {| in_fd := in_fd s; out_fd := out_fd s ++ data |}).

(** in_fd = buf; in_fd.seek(0): from here the name [in_fd] is the buffer. *)
Definition fd_rebind (buf : bytes) : M unit :=
  fun s => (Return tt, {| in_fd := buf; out_fd := out_fd s |}).

(** [a or b] on integers *)
Definition py_or (a b : Z) : Z := if (a =? 0)%Z then b else a.

(** [n * data] *)
Fixpoint bytes_mul (n : nat) (data : bytes) : bytes :=
  match n with
  | O => []
  | S m => data ++ bytes_mul m data
  end.

(** The true division of two integers and [int] of the result.  The floats
    of the one use, [int((pathname_size/bs+1) * bs)], are exact: the operands
    are below 2^16 and the divisor is 16. *)
Definition true_div (a b : Z) : Q := inject_Z a / inject_Z b.
Definition int_of_float (q : Q) : Z :=
  if Qle_bool 0 q then Qfloor q else Qceiling q.

Section Engine.
Context `{Libs} `{Host}.

Local Open Scope monad_scope.

(** The loop of [encrypt_fd] (lines 161-168). *)
Fixpoint encrypt_loop (fuel : nat) (bs : nat) (encryptor : CipherContext)
  (md5 : md5_obj) : M (CipherContext * md5_obj) :=
  match fuel with
  | O => out_of_fuel
  | S fuel' =>
      chunk <- fd_read (BUFFER_SIZE * bs) ;;
      let md5 := md5_update md5 chunk in
      if (length chunk =? 0) || negb (length chunk mod bs =? 0) then
        let padding_length :=
          py_or (Z.of_nat bs - Z.of_nat (length chunk) mod Z.of_nat bs)
                (Z.of_nat bs) in
        pad <- lift (pack_B padding_length) ;;
        let chunk := chunk ++ bytes_mul (Z.to_nat padding_length) pad in
        let '(ct, encryptor) := encryptor_update encryptor chunk in
        fd_write ct ;;
        ret (encryptor, md5)
      else
        let '(ct, encryptor) := encryptor_update encryptor chunk in
        fd_write ct ;;
        encrypt_loop fuel' bs encryptor md5
  end.

Definition encrypt_fd (fuel : nat) (self : Crypto)
  (file_entry : option (FileEntry text)) (flags : Z) : M (FileEntry text) :=
  let bs := block_size self in
  let file_entry :=
    match file_entry with
    | None =>
        new_FileEntry [46; 116; 109; 112]%N 0
          (PyFloat (time_time 0)) (PyFloat (time_time 1)) 0 None false
    | Some fe => fe
    end in
  let file_entry :=
    match salt file_entry with
    | None => set_salt file_entry (os_urandom (bs - 4))
    | Some _ => file_entry
    end in
  let the_salt := match salt file_entry with Some s => s | None => [] end in
  let '(key, iv) := gen_key_and_iv self the_salt in
  encryptor <- lift (new_cipher key iv) ;;
  encoded <- lift (encode_utf8 (pathname file_entry)) ;;
  let pathname := slice encoded None (Some (2 ^ 16)%Z) in
  let pathname_size := length pathname in
  let pathname_padding :=
    if negb (pathname_size mod bs =? 0)
    then repeat x00 (bs - pathname_size mod bs)
    else [] in
  let flags := Z.land flags 0xFF in
  b_version <- lift (pack_B VERSION) ;;
  b_flags <- lift (pack_B flags) ;;
  fd_write (b_version ++ b_flags) ;;
  b_size <- lift (pack_H (Z.of_nat pathname_size)) ;;
  fd_write b_size ;;
  fd_write the_salt ;;
  let '(ct, encryptor) := encryptor_update encryptor (pathname ++ pathname_padding) in
  fd_write ct ;;
  (if negb (Z.land flags COMPRESS =? 0)%Z then
     data <- fd_read_all ;;
     fd_rebind (zlib_compress data)
   else ret tt) ;;
  '(encryptor, md5) <- encrypt_loop fuel bs encryptor md5_new ;;
  let file_entry := set_digest file_entry (md5_digest md5) in
  footer <- lift (_build_footer file_entry) ;;
  let '(ct, encryptor) := encryptor_update encryptor footer in
  fd_write ct ;;
  fin <- lift (cipher_finalize encryptor) ;;
  fd_write fin ;;
  ret file_entry.

(** The loop of [decrypt_fd] (lines 207-218): [next_chunk] is the chunk
    read one turn earlier, still to be decrypted. *)
Fixpoint decrypt_loop (fuel : nat) (bs : nat) (pathname : bytes)
  (decryptor : CipherContext) (str_io : bytes) (md5 : md5_obj)
  (next_chunk : bytes) : M (FileEntry bytes * bytes * md5_obj) :=
  match fuel with
  | O => out_of_fuel
  | S fuel' =>
      let chunk := next_chunk in
      next_chunk <- fd_read (BUFFER_SIZE * bs) ;;
      match chunk with
      | _ :: _ =>
          let '(plaintext, decryptor) := decryptor_update decryptor chunk in
          if length next_chunk =? 0 then
            fin <- lift (cipher_finalize decryptor) ;;
            let plaintext := plaintext ++ fin in
            file_entry <- lift (_unpack_footer pathname
                                  (slice plaintext (Some (-48)%Z) None)) ;;
            padding_length <- lift (bytearray_first
                                (slice plaintext (Some (-49)%Z) (Some (-48)%Z))) ;;
            let plaintext :=
              slice plaintext None (Some (- padding_length - 48)%Z) in
            ret (file_entry, str_io ++ plaintext, md5_update md5 plaintext)
          else
            decrypt_loop fuel' bs pathname decryptor
              (str_io ++ plaintext) (md5_update md5 plaintext) next_chunk
      | [] =>
          decrypt_loop fuel' bs pathname decryptor str_io md5 next_chunk
      end
  end.

(** pathname_block_size of [decrypt_fd] (lines 193-195); [/] is the true
    division (from __future__ import division). *)
Definition pathname_block_size (bs pathname_size : Z) : Z :=
  if negb (pathname_size mod bs =? 0)%Z
  then int_of_float ((true_div pathname_size bs + 1) * inject_Z bs)%Q
  else pathname_size.

(** The end of [decrypt_fd] (lines 219-233): decompression, the digest
    check, and only then the write to [out_fd]. *)
Definition decrypt_finish (bs : nat) (flags : Z) (the_salt : bytes)
  (file_entry : FileEntry bytes) (str_io : bytes) (md5 : md5_obj)
  : M (FileEntry bytes) :=
  str_io <- (if negb (Z.land flags COMPRESS =? 0)%Z
             then match zlib_decompress str_io with
                  | Some data => ret data
                  | None => raise ZlibError
                  end
             else ret str_io) ;;
  let file_entry := set_salt file_entry the_salt in
  if negb (match digest file_entry with
           | Some d =>
               bytes_eqb d (slice (md5_digest md5) None (Some (Z.of_nat bs)))
           | None => false
           end)
  then raise DigestMissMatch else
  fd_write str_io ;;
  ret file_entry.

Definition decrypt_fd (fuel : nat) (self : Crypto) : M (FileEntry bytes) :=
  let bs := block_size self in
  line <- fd_read bs ;;
  if length line <? bs then raise UnrecognizedContent else
  let ints := slice line None (Some 2%Z) in
  let version := Z_of_byte (nth 0 ints x00) in
  if (VERSION <? version)%Z then raise VersionNotCompatible else
  let flags := Z_of_byte (nth 1 ints x00) in
  pathname_size <- lift (unpack_H (slice line (Some 2%Z) (Some 4%Z))) ;;
  let the_salt := slice line (Some 4%Z) None in
  let '(key, iv) := gen_key_and_iv self the_salt in
  decryptor <- lift (new_cipher key iv) ;;
  let pathname_block_size := pathname_block_size (Z.of_nat bs) pathname_size in
  pathname_data <- fd_read (Z.to_nat pathname_block_size) ;;
  if (Z.of_nat (length pathname_data) <? pathname_block_size)%Z
  then raise UnrecognizedContent else
  let '(plain, decryptor) := decryptor_update decryptor pathname_data in
  let pathname := slice plain None (Some pathname_size) in
  '(file_entry, str_io, md5) <-
    decrypt_loop fuel bs pathname decryptor [] md5_new [] ;;
  decrypt_finish bs flags the_salt file_entry str_io md5.

End Engine.

(** ** The two helpers on file objects, and the calls on paths *)

Section Files.
Context `{Libs} `{Host}.

Local Open Scope monad_scope.

(** compress_fd(in_fd, out_fd) (lines 82-85) *)
Definition compress_fd : M unit :=
  content <- fd_read_all ;;
  let data := zlib_compress content in
  fd_write data.

(** decompress_fd(in_fd, out_fd) (lines 87-89) *)
Definition decompress_fd : M unit :=
  content <- fd_read_all ;;
  match zlib_decompress content with
  | Some data => fd_write data
  | None => raise ZlibError
  end.

(** The files the two calls on paths meet: the regular files of
    directories the process may write to, each path naming a file of its
    own; [None] where no file exists. *)
Definition path := text.
Definition filesystem := path -> option bytes.

Fixpoint path_eqb (p q : path) : bool :=
  match p, q with
  | [], [] => true
  | c :: p', d :: q' => (c =? d)%N && path_eqb p' q'
  | _, _ => false
  end.

(** The file at [p] after a file object opened with 'wb' is closed (or
    collected) with [data] written to it. *)
Definition fs_write (fs : filesystem) (p : path) (data : bytes) : filesystem :=
  fun q => if path_eqb q p then Some data else fs q.


(** decrypt_file (lines 74-80).  The plain file is opened first, with
    'wb': it exists and is empty from then on, whatever follows; the
    encrypted file is opened after it. *)
Definition decrypt_file (fuel : nat) (self : Crypto)
  (encrypted_path plain_path : path) (fs : filesystem)
  : outcome (FileEntry bytes) * filesystem :=
  let fs := fs_write fs plain_path [] in
  match fs encrypted_path with
  | None => (Raise IOError, fs)
  | Some stored =>
      let '(r, s) :=
        decrypt_fd fuel self {| in_fd := stored; out_fd := [] |} in
      (r, fs_write fs plain_path (out_fd s))
  end.

End Files.

(** ** The container, region by region

    What [encrypt_fd] is shown below to write: the plaintext header, then the
    CBC encryption of pathname, pathname padding, content, content padding
    and footer. *)

(** The zero bytes after a pathname of [n] bytes (lines 142-145). *)
Definition pathname_padding (n : nat) : bytes :=
  if n mod 16 =? 0 then [] else repeat x00 (16 - n mod 16).

(** The padding after a content of [n] bytes (lines 164-166). *)
Definition content_padding (n : nat) : bytes :=
  repeat (byte_of_Z (Z.of_nat (16 - n mod 16))) (16 - n mod 16).

Definition header (flags : Z) (pathname_size : nat) (the_salt : bytes) : bytes :=
  [byte_of_Z VERSION; byte_of_Z flags]
    ++ be_encode 2 (Z.of_nat pathname_size) ++ the_salt.

Section Container.
Context `{Libs}.

(** The cipher's input for a pathname, a content, a stored digest and the
    numbers of the entry. *)
Definition plain_stream (name body d : bytes) (size ctime mtime mode : Z) : bytes :=
  name ++ pathname_padding (length name)
    ++ body ++ content_padding (length body)
    ++ footer_layout d size ctime mtime mode (repeat x00 12).

(** A container that stores the digest [d]; [encrypt_fd] writes the one
    with [d = md5 body]. *)
Definition container (self : Crypto) (flags : Z) (name the_salt body d : bytes)
  (size ctime mtime mode : Z) : bytes :=
  header (Z.land flags 0xFF) (length name) the_salt
    ++ cbc_encrypt (fst (gen_key_and_iv self the_salt))
         (snd (gen_key_and_iv self the_salt))
         (plain_stream name body d size ctime mtime mode).

End Container.

(** The entry and the salt [encrypt_fd] works with (lines 132-135), and
    whether it compresses (lines 147, 153). *)
Definition effective_entry `{Host} (file_entry : option (FileEntry text))
  : FileEntry text :=
  match file_entry with
  | None =>
      new_FileEntry [46; 116; 109; 112]%N 0
        (PyFloat (time_time 0)) (PyFloat (time_time 1)) 0 None false
  | Some fe => fe
  end.

Definition effective_salt `{Host} (fe : FileEntry text) : bytes :=
  match salt fe with
  | Some s => s
  | None => os_urandom 12
  end.

Definition compresses (flags : Z) : bool :=
  negb (Z.land (Z.land flags 0xFF) COMPRESS =? 0)%Z.

(** The lookahead loop of [decrypt_fd] takes footer and padding from the
    plaintext of the last chunk alone.  [final_start a n r] is the number of
    bytes read before that chunk, when [a] bytes are decrypted, [n] wait in
    [next_chunk] and [r] are still to be read. *)
Definition final_start (a n r : nat) : nat :=
  if r =? 0 then a
  else a + n + (BUFFER_SIZE * 16) * ((r - 1) / (BUFFER_SIZE * 16)).

(** The content lengths for which the last chunk holds the footer and the
    padding whole: content, padding and footer (a multiple of 16 bytes) fill
    the chunks exactly or leave a last one of at least 64 bytes. *)
Definition footer_in_last_chunk (n : nat) : bool :=
  let t := (n + (16 - n mod 16) + 48) mod (BUFFER_SIZE * 16) in
  (t =? 0) || (64 <=? t).

(** The fields of the header at the front of a stream, as [decrypt_fd]
    parses them (lines 182-188). *)
Definition header_version (stream : bytes) : Z := Z_of_byte (nth 0 stream x00).
Definition header_flags (stream : bytes) : Z := Z_of_byte (nth 1 stream x00).
Definition header_pathname_size (stream : bytes) : Z :=
  be_decode (firstn 2 (skipn 2 stream)).
Definition header_salt (stream : bytes) : bytes := firstn 12 (skipn 4 stream).

(** The salt of an entry is absent or has the 12 bytes of the header. *)
Definition salt_ok {P} (fe : FileEntry P) : bool :=
  match salt fe with
  | Some s => length s =? 12
  | None => true
  end.

(** The entry [decrypt_fd] rebuilds from the container [encrypt_fd] writes
    for [fe], a pathname encoded as [name] and a stored content [body]: the
    times come back as the whole seconds the footer holds. *)
Definition recovered_entry `{Libs} `{Host} (fe : FileEntry text) (name body : bytes)
  : FileEntry bytes :=
  {| pathname := name; size := size fe;
     ctime := PyInt (seconds (ctime fe)); mtime := PyInt (seconds (mtime fe));
     mode := mode fe; digest := Some (md5 body); isdir := false;
     salt := Some (effective_salt fe) |}.

(** ** Key derivation as the specification words it

    "Maintain an accumulator d (initially empty) and a rolling digest d_i
    (initially empty); repeatedly set d_i = hash(d_i || password || salt) and
    append d_i to d, continuing until len(d) >= key_size + block_size; return
    the first key_size bytes as the key and the next block_size bytes as the
    IV." *)

Section DeriveSpec.
Context `{Libs}.

(** d_i after [n] rounds *)
Fixpoint rolling_digest (password salt : bytes) (n : nat) : bytes :=
  match n with
  | O => []
  | S m => md5 (rolling_digest password salt m ++ password ++ salt)
  end.

(** d after [n] rounds *)
Fixpoint accumulator (password salt : bytes) (n : nat) : bytes :=
  match n with
  | O => []
  | S m => accumulator password salt m ++ rolling_digest password salt (S m)
  end.

(** [key] and [iv] are what the rounds give when they stop at the first
    [n] whose accumulator has [key_size + block_size] bytes. *)
Definition derive_spec (password salt : bytes) (key_size block_size : nat)
  (key iv : bytes) : Prop :=
  exists n,
    (forall m, m < n ->
       length (accumulator password salt m) < key_size + block_size) /\
    key_size + block_size <= length (accumulator password salt n) /\
    key = firstn key_size (accumulator password salt n) /\
    iv = firstn block_size (skipn key_size (accumulator password salt n)).

End DeriveSpec.

(** ** A small instance of the libraries and the host

    Stand-ins that satisfy the laws of [Libs] and [Host] and compute: they
    show that the laws can be met and let the statements below be run on
    concrete containers.  Nothing proved for every [Libs] depends on them. *)

Module Toy.

Definition md5 (m : bytes) : bytes :=
  be_encode 16
    (fold_left (fun acc b => ((acc * 31 + Z_of_byte b + 1) mod 2 ^ 128)%Z) m 7%Z).

Definition encrypt_block (key block : bytes) : bytes :=
  map (xor_byte (hd x00 key)) (rev block).

Definition decrypt_block (key block : bytes) : bytes :=
  rev (map (xor_byte (hd x00 key)) block).

Definition compress (d : bytes) : bytes := x78 :: d.

Definition decompress (d : bytes) : option bytes :=
  match d with
  | x78 :: d' => Some d'
  | _ => None
  end.

Definition urandom (n : nat) : bytes := repeat x2a n.

(** 1446336000.5 on the first call, 1446336001.25 on the later ones *)
Definition time (call : nat) : spec_float :=
  match call with
  | O => S754_finite false 2892672001 (-1)
  | S _ => S754_finite false 5785344005 (-2)
  end.

End Toy.

(** ** Sample inputs *)

Module Sample.

(** Crypto("pw") *)
Definition self : Crypto := {| password := [x70; x77]; key_size := 32 |}.

Definition the_salt : bytes := repeat x2a 12.

(** An entry named "aé" (3 bytes in UTF-8), mode 0o644. *)
Definition entry : FileEntry text :=
  {| pathname := [0x61; 0xe9]%N; size := 2; ctime := PyInt 1446336000;
     mtime := PyInt 1446336001; mode := 420; digest := None; isdir := false;
     salt := None |}.

Definition name : bytes := [x61; xc3; xa9].

(** The same entry with an empty pathname. *)
Definition unnamed : FileEntry text :=
  {| pathname := []; size := 2; ctime := PyInt 1446336000;
     mtime := PyInt 1446336001; mode := 420; digest := None; isdir := false;
     salt := None |}.

(** The same entry with a pathname of 65536 letters "a". *)
Definition long_named : FileEntry text :=
  {| pathname := repeat 0x61%N (16 * 4096); size := 2; ctime := PyInt 1446336000;
     mtime := PyInt 1446336001; mode := 420; digest := None; isdir := false;
     salt := None |}.

(** An entry as the footer holds it. *)
Definition stored : FileEntry bytes :=
  {| pathname := name; size := 2; ctime := PyInt 1446336000;
     mtime := PyInt 1446336001; mode := 420; digest := Some (repeat x07 16);
     isdir := false; salt := None |}.

(** The entry of a file as [os.stat] times it: mtime 1446336001.75. *)
Definition stat_entry : FileEntry text :=
  {| pathname := [0x61; 0xe9]%N; size := 2; ctime := PyInt 1446336000;
     mtime := PyFloat (S754_finite false 5785344007 (-2)); mode := 420;
     digest := Some (repeat x07 16); isdir := false; salt := None |}.

(** b"hi" *)
Definition content : bytes := [x68; x69].

(** 16336 bytes: with padding and footer, 16 bytes more than a chunk. *)
Definition straddling_content : bytes := repeat x61 (16 * 1021).

(** "plain", "enc", "restored" *)
Definition plain_path : path := [112; 108; 97; 105; 110]%N.
Definition encrypted_path : path := [101; 110; 99]%N.

End Sample.

(** * Properties *)

Ltac Zify.zify_post_hook ::= Z.div_mod_to_equations.

(** ** Bytes and big-endian integers *)

Lemma Z_of_byte_range (b : byte) : (0 <= Z_of_byte b < 256)%Z.
Proof.
  unfold Z_of_byte. pose proof (Byte.to_N_bounded b). lia.
Qed.

Lemma byte_of_Z_of_byte (b : byte) : byte_of_Z (Z_of_byte b) = b.
Proof.
  unfold byte_of_Z. pose proof (Z_of_byte_range b) as Hr.
  rewrite Z.mod_small by exact Hr.
  unfold Z_of_byte. rewrite N2Z.id, Byte.of_to_N. reflexivity.
Qed.

Lemma Z_of_byte_of_Z (z : Z) : Z_of_byte (byte_of_Z z) = (z mod 256)%Z.
Proof.
  unfold byte_of_Z, Z_of_byte.
  assert (Hr : (0 <= z mod 256 < 256)%Z) by (apply Z.mod_pos_bound; lia).
  destruct (Byte.of_N (Z.to_N (z mod 256))) as [b|] eqn:E.
  - apply Byte.to_of_N in E. rewrite E. lia.
  - apply Byte.of_N_None_iff in E. lia.
Qed.

Lemma be_encode_length (n : nat) (v : Z) : length (be_encode n v) = n.
Proof.
  revert v. induction n as [|n IH]; intros v; simpl.
  - reflexivity.
  - rewrite length_app, IH. simpl. lia.
Qed.

Lemma be_decode_snoc (l : bytes) (b : byte) :
  be_decode (l ++ [b]) = (be_decode l * 256 + Z_of_byte b)%Z.
Proof.
  unfold be_decode. rewrite fold_left_app. reflexivity.
Qed.

Lemma be_decode_encode (n : nat) (v : Z) :
  be_decode (be_encode n v) = (v mod 256 ^ Z.of_nat n)%Z.
Proof.
  revert v. induction n as [|n IH]; intros v.
  - simpl. rewrite Z.mod_1_r. reflexivity.
  - cbn [be_encode]. rewrite be_decode_snoc, IH, Z_of_byte_of_Z.
    rewrite Nat2Z.inj_succ, Z.pow_succ_r by lia.
    rewrite Z.rem_mul_r by lia. lia.
Qed.

Lemma be_decode_range (l : bytes) :
  (0 <= be_decode l < 256 ^ Z.of_nat (length l))%Z.
Proof.
  induction l as [|b l IH] using rev_ind.
  - cbn. lia.
  - rewrite be_decode_snoc, length_app. cbn [length].
    replace (Z.of_nat (length l + 1)) with (Z.succ (Z.of_nat (length l))) by lia.
    rewrite Z.pow_succ_r by lia.
    pose proof (Z_of_byte_range b). lia.
Qed.

Lemma unpack_pack_unsigned (n : nat) (v : Z) (b : bytes) :
  pack_unsigned n v = Ok b -> length b = n /\ unpack_unsigned b = v.
Proof.
  unfold pack_unsigned, unpack_unsigned.
  destruct (andb _ _) eqn:E; [|discriminate].
  intros [= <-]. split; [apply be_encode_length|].
  rewrite be_decode_encode. apply Z.mod_small. lia.
Qed.

Lemma unpack_pack_signed (n : nat) (v : Z) (b : bytes) :
  0 < n -> pack_signed n v = Ok b -> length b = n /\ unpack_signed b = v.
Proof.
  unfold pack_signed, unpack_signed. intros Hn.
  destruct (andb _ _) eqn:E; [|discriminate].
  intros [= <-]. split; [apply be_encode_length|].
  rewrite be_decode_encode, be_encode_length.
  assert (Hev : (256 ^ Z.of_nat n = 2 * (256 ^ Z.of_nat n / 2))%Z).
  { destruct n as [|n]; [lia|].
    rewrite Nat2Z.inj_succ, Z.pow_succ_r by lia.
    replace (256 * 256 ^ Z.of_nat n)%Z with (2 * (128 * 256 ^ Z.of_nat n))%Z by lia.
    rewrite (Z.mul_comm 2), Z.div_mul by lia. lia. }
  set (m := (256 ^ Z.of_nat n)%Z) in *.
  set (h := (m / 2)%Z) in *.
  assert (Hm : (0 < m)%Z) by (subst m; apply Z.pow_pos_nonneg; lia).
  apply andb_prop in E. destruct E as [E1 E2].
  apply Z.leb_le in E1. apply Z.ltb_lt in E2.
  destruct (Z.ltb_spec (v mod m) h) as [Hlt|Hge].
  - destruct (Z_lt_le_dec v 0) as [Hneg|Hpos].
    + replace v with (v + 1 * m - m)%Z in Hlt at 1 by lia.
      assert (H1 : ((v + 1 * m - m) mod m = v + m)%Z).
      { replace (v + 1 * m - m)%Z with (v + m + (-1) * m)%Z by lia.
        rewrite Z.mod_add by lia. apply Z.mod_small. lia. }
      rewrite H1 in Hlt. lia.
    + apply Z.mod_small. lia.
  - destruct (Z_lt_le_dec v 0) as [Hneg|Hpos].
    + replace v with (v + m + (-1) * m)%Z at 1 by lia.
      rewrite Z.mod_add by lia. rewrite Z.mod_small by lia. lia.
    + rewrite Z.mod_small in Hge by lia. lia.
Qed.

(** ** xor on bytes *)

Lemma xor_bits_cancel a b : xor_bits (xor_bits a b) b = a.
Proof.
  destruct a as (a0 & a1 & a2 & a3 & a4 & a5 & a6 & a7).
  destruct b as (b0 & b1 & b2 & b3 & b4 & b5 & b6 & b7).
  cbn. repeat rewrite xorb_assoc, xorb_nilpotent, xorb_false_r. reflexivity.
Qed.

Lemma xor_byte_cancel (a b : byte) : xor_byte (xor_byte a b) b = a.
Proof.
  unfold xor_byte. rewrite Byte.to_bits_of_bits, xor_bits_cancel.
  apply Byte.of_bits_to_bits.
Qed.

Lemma xor_bytes_length (a b : bytes) :
  length (xor_bytes a b) = Nat.min (length a) (length b).
Proof.
  revert b. induction a as [|x a IH]; intros [|y b]; simpl; auto.
Qed.

Lemma xor_bytes_cancel (a b : bytes) :
  length a = length b -> xor_bytes (xor_bytes a b) b = a.
Proof.
  revert b. induction a as [|x a IH]; intros [|y b] Hl; simpl in *;
    try discriminate; auto.
  rewrite xor_byte_cancel, IH by lia. reflexivity.
Qed.

(** ** Slices *)

Lemma firstn_min_length {A} (n : nat) (l : list A) :
  firstn (Nat.min n (length l)) l = firstn n l.
Proof.
  destruct (Nat.le_gt_cases n (length l)) as [Hle|Hgt].
  - rewrite Nat.min_l by exact Hle. reflexivity.
  - rewrite Nat.min_r by lia. rewrite !firstn_all2 by lia. reflexivity.
Qed.

Lemma slice_bound_nonneg (len n : nat) :
  slice_bound len (Z.of_nat n) = Nat.min n len.
Proof.
  unfold slice_bound. destruct (Z.ltb_spec (Z.of_nat n) 0); [lia|].
  rewrite Nat2Z.id. reflexivity.
Qed.

Lemma slice_bound_neg (len k : nat) :
  0 < k -> slice_bound len (- Z.of_nat k)%Z = len - k.
Proof.
  intros Hk. unfold slice_bound.
  destruct (Z.ltb_spec (- Z.of_nat k)%Z 0); lia.
Qed.

Lemma slice_to {A} (l : list A) (n : nat) :
  slice l None (Some (Z.of_nat n)) = firstn n l.
Proof.
  unfold slice. rewrite slice_bound_nonneg, Nat.sub_0_r. cbn [skipn].
  apply firstn_min_length.
Qed.

Lemma slice_from {A} (l : list A) (n : nat) :
  slice l (Some (Z.of_nat n)) None = skipn n l.
Proof.
  unfold slice. rewrite slice_bound_nonneg.
  destruct (Nat.le_gt_cases n (length l)) as [Hle|Hgt].
  - rewrite Nat.min_l by exact Hle.
    apply firstn_all2. rewrite length_skipn. lia.
  - rewrite Nat.min_r by lia. rewrite !skipn_all2 by lia.
    apply firstn_nil.
Qed.

Lemma slice_from_to {A} (l : list A) (a b : nat) :
  slice l (Some (Z.of_nat a)) (Some (Z.of_nat b)) = firstn (b - a) (skipn a l).
Proof.
  unfold slice. rewrite !slice_bound_nonneg.
  destruct (Nat.le_gt_cases a (length l)) as [Hle|Hgt].
  - rewrite (Nat.min_l a) by exact Hle.
    rewrite <- (firstn_min_length (b - a)), length_skipn.
    f_equal. lia.
  - rewrite (Nat.min_r a) by lia. rewrite !skipn_all2 by lia.
    rewrite !firstn_nil. reflexivity.
Qed.

Lemma slice_last {A} (l : list A) (k : nat) :
  0 < k -> slice l (Some (- Z.of_nat k)%Z) None = skipn (length l - k) l.
Proof.
  intros Hk. unfold slice. rewrite slice_bound_neg by exact Hk.
  apply firstn_all2. rewrite length_skipn. lia.
Qed.

Lemma slice_drop_last {A} (l : list A) (k : nat) :
  0 < k -> slice l None (Some (- Z.of_nat k)%Z) = firstn (length l - k) l.
Proof.
  intros Hk. unfold slice. rewrite slice_bound_neg by exact Hk.
  rewrite Nat.sub_0_r. reflexivity.
Qed.

Lemma slice_neg_neg {A} (l : list A) (a b : nat) :
  0 < b -> b <= a ->
  slice l (Some (- Z.of_nat a)%Z) (Some (- Z.of_nat b)%Z)
  = firstn ((length l - b) - (length l - a)) (skipn (length l - a) l).
Proof.
  intros Hb Hab. unfold slice. rewrite !slice_bound_neg by lia. reflexivity.
Qed.

Lemma slice_length_le {A} (l : list A) (a b : option Z) :
  length (slice l a b) <= length l.
Proof.
  unfold slice. rewrite length_firstn, length_skipn. lia.
Qed.

Lemma firstn_plus {A} (a b : nat) (l : list A) :
  firstn (a + b) l = firstn a l ++ firstn b (skipn a l).
Proof.
  revert l. induction a as [|a IH]; intros [|x l]; cbn; auto.
  - rewrite firstn_nil. reflexivity.
  - rewrite IH. reflexivity.
Qed.

(** Pieces of a list that follow one another make one piece. *)
Lemma firstn_skipn_glue {A} (l : list A) (x y z : nat) :
  x <= y -> y <= z ->
  firstn (y - x) (skipn x l) ++ firstn (z - y) (skipn y l)
  = firstn (z - x) (skipn x l).
Proof.
  intros Hxy Hyz.
  replace (z - x) with ((y - x) + (z - y)) by lia.
  rewrite firstn_plus. f_equal. rewrite skipn_skipn.
  replace (y - x + x) with y by lia. reflexivity.
Qed.

(** ** The small instance meets the laws *)

Lemma xor_byte_cancel_l (k x : byte) : xor_byte k (xor_byte k x) = x.
Proof.
  unfold xor_byte. rewrite Byte.to_bits_of_bits.
  rewrite <- (Byte.of_bits_to_bits x) at 2. f_equal.
  destruct (Byte.to_bits k) as (a0 & a1 & a2 & a3 & a4 & a5 & a6 & a7).
  destruct (Byte.to_bits x) as (b0 & b1 & b2 & b3 & b4 & b5 & b6 & b7).
  cbn. repeat rewrite <- xorb_assoc, xorb_nilpotent, xorb_false_l. reflexivity.
Qed.

Lemma toy_encrypt_length (k b : bytes) :
  length b = 16 -> length (Toy.encrypt_block k b) = 16.
Proof.
  intros Hb. unfold Toy.encrypt_block. rewrite length_map, length_rev. exact Hb.
Qed.

Lemma toy_decrypt_length (k b : bytes) :
  length b = 16 -> length (Toy.decrypt_block k b) = 16.
Proof.
  intros Hb. unfold Toy.decrypt_block. rewrite length_rev, length_map. exact Hb.
Qed.

Lemma toy_decrypt_encrypt (k b : bytes) :
  length b = 16 -> Toy.decrypt_block k (Toy.encrypt_block k b) = b.
Proof.
  intros _. unfold Toy.decrypt_block, Toy.encrypt_block.
  rewrite map_map.
  rewrite (map_ext _ (fun x => x)) by (intros x; apply xor_byte_cancel_l).
  rewrite map_id. apply rev_involutive.
Qed.

#[export] Instance toy_libs : Libs := {|
  md5 := Toy.md5;
  md5_length := fun m => be_encode_length 16 _;
  aes_encrypt_block := Toy.encrypt_block;
  aes_decrypt_block := Toy.decrypt_block;
  aes_encrypt_length := toy_encrypt_length;
  aes_decrypt_length := toy_decrypt_length;
  aes_decrypt_encrypt := toy_decrypt_encrypt;
  zlib_compress := Toy.compress;
  zlib_decompress := Toy.decompress;
  zlib_decompress_compress := fun d => eq_refl
|}.

#[export] Instance toy_host : Host := {|
  os_urandom := Toy.urandom;
  os_urandom_length := fun n => repeat_length x2a n;
  time_time := Toy.time
|}.

(** ** Key derivation *)

Section KeyDerivationFacts.
Context `{Libs}.
Variable self : Crypto.
Variable the_salt : bytes.

Let pw := password self.
Let need := key_size self + block_size self.

Lemma rolling_digest_length (n : nat) :
  length (rolling_digest pw the_salt (S n)) = 16.
Proof. cbn [rolling_digest]. apply md5_length. Qed.

Lemma accumulator_length (n : nat) :
  length (accumulator pw the_salt n) = 16 * n.
Proof.
  induction n as [|n IH].
  - reflexivity.
  - cbn [accumulator]. rewrite length_app, IH, rolling_digest_length. lia.
Qed.

(** The loop, entered after [m] rounds, leaves after the first round [n]
    that has hashed enough, provided the fuel covers the rounds to go. *)
Lemma gen_key_and_iv_loop_rounds (fuel m : nat) :
  (forall j, j < m -> 16 * j < need) ->
  need <= 16 * (m + fuel) ->
  exists n,
    gen_key_and_iv_loop fuel self the_salt
      (accumulator pw the_salt m) (rolling_digest pw the_salt m)
    = accumulator pw the_salt n /\
    (forall j, j < n -> 16 * j < need) /\ need <= 16 * n.
Proof.
  revert m. induction fuel as [|fuel IH]; intros m Hbelow Hfuel.
  - exists m. cbn. repeat split; [exact Hbelow | lia].
  - cbn [gen_key_and_iv_loop]. fold need.
    rewrite accumulator_length.
    destruct (Nat.ltb_spec (16 * m) need) as [Hlt|Hge].
    + destruct (IH (S m)) as (n & Hn & Hb & He).
      * intros j Hj. destruct (Nat.eq_dec j m) as [->|]; [exact Hlt|].
        apply Hbelow. lia.
      * lia.
      * exists n. split; [|split; assumption]. exact Hn.
    + exists m. repeat split; [exact Hbelow | exact Hge].
Qed.

Lemma gen_key_and_iv_derive :
  derive_spec pw the_salt (key_size self) (block_size self)
    (fst (gen_key_and_iv self the_salt)) (snd (gen_key_and_iv self the_salt)).
Proof.
  destruct (gen_key_and_iv_loop_rounds need 0) as (n & Hn & Hb & He).
  - intros j Hj. lia.
  - lia.
  - exists n. unfold gen_key_and_iv. cbn [fst snd].
    cbn [accumulator rolling_digest] in Hn. fold need. rewrite Hn.
    repeat split.
    + intros m Hm. rewrite accumulator_length. apply Hb, Hm.
    + rewrite accumulator_length. exact He.
    + apply slice_to.
    + rewrite slice_from_to. f_equal. unfold need. lia.
Qed.

Lemma derive_spec_functional (ks bs : nat) (k1 i1 k2 i2 : bytes) :
  derive_spec pw the_salt ks bs k1 i1 ->
  derive_spec pw the_salt ks bs k2 i2 ->
  k1 = k2 /\ i1 = i2.
Proof.
  intros (n1 & Hb1 & He1 & -> & ->) (n2 & Hb2 & He2 & -> & ->).
  assert (n1 = n2) as ->.
  { destruct (Nat.lt_trichotomy n1 n2) as [Hlt|[Heq|Hgt]]; [|exact Heq|].
    - specialize (Hb2 _ Hlt). lia.
    - specialize (Hb1 _ Hgt). lia. }
  split; reflexivity.
Qed.

Lemma gen_key_and_iv_lengths :
  length (fst (gen_key_and_iv self the_salt)) = key_size self /\
  length (snd (gen_key_and_iv self the_salt)) = block_size self.
Proof.
  destruct gen_key_and_iv_derive as (n & _ & He & -> & ->).
  rewrite accumulator_length in He.
  rewrite !length_firstn, length_skipn, accumulator_length. lia.
Qed.

End KeyDerivationFacts.

(** C3.  [gen_key_and_iv] is the iterative hashing the specification
    describes: over a hash with 16-byte digests, its key and IV are those of
    [derive_spec] for the instance's password, the salt, [key_size] and
    [block_size] (the rounds stop at the first accumulator of at least
    [key_size + block_size] bytes; the key is its first [key_size] bytes, the
    IV the next [block_size]); they have these lengths; [derive_spec]
    determines them; and the result depends on nothing but the password, the
    key size and the salt. *)
Theorem gen_key_and_iv_spec `{Libs} (self : Crypto) (the_salt : bytes) :
  let '(key, iv) := gen_key_and_iv self the_salt in
  derive_spec (password self) the_salt (key_size self) (block_size self) key iv /\
  length key = key_size self /\ length iv = block_size self /\
  (forall key' iv',
     derive_spec (password self) the_salt (key_size self) (block_size self) key' iv' ->
     key' = key /\ iv' = iv) /\
  (forall self' salt',
     password self' = password self -> key_size self' = key_size self ->
     salt' = the_salt ->
     gen_key_and_iv self' salt' = (key, iv)).
Proof.
  pose proof (gen_key_and_iv_derive self the_salt) as Hd.
  pose proof (gen_key_and_iv_lengths self the_salt) as [Hk Hi].
  destruct (gen_key_and_iv self the_salt) as [key iv] eqn:E.
  cbn [fst snd] in *.
  repeat split; try assumption.
  - eapply derive_spec_functional with (k2 := key) (i2 := iv); eassumption.
  - eapply derive_spec_functional with (k2 := key) (i2 := iv); eassumption.
  - intros [pw' ks'] salt' Hpw Hks ->. cbn in Hpw, Hks. subst.
    destruct self as [pw ks]. exact E.
Qed.

Example gen_key_and_iv_toy :
  gen_key_and_iv {| password := [x70; x77]; key_size := 32 |} (repeat x2a 12)
  = (firstn 32 (accumulator [x70; x77] (repeat x2a 12) 3),
     firstn 16 (skipn 32 (accumulator [x70; x77] (repeat x2a 12) 3))).
Proof. vm_compute. reflexivity. Qed.

(** ** The footer codec *)

Lemma firstn_app_exact {A} (n : nat) (a b : list A) :
  length a = n -> firstn n (a ++ b) = a.
Proof.
  intros <-. rewrite firstn_app, Nat.sub_diag, firstn_all, firstn_0.
  apply app_nil_r.
Qed.

Lemma skipn_app_exact {A} (n : nat) (a b : list A) :
  length a = n -> skipn n (a ++ b) = b.
Proof.
  intros <-. rewrite skipn_app, Nat.sub_diag, skipn_all. reflexivity.
Qed.

Lemma py_int_whole (z : Z) : py_int (PyInt z) = Ok z.
Proof. reflexivity. Qed.

Lemma time_ok_inv (x : number) :
  time_ok x = true ->
  py_int x = Ok (seconds x) /\ (0 <= seconds x < 2 ^ 32)%Z.
Proof.
  unfold time_ok, seconds. destruct (py_int x) as [z|e]; [|discriminate].
  intros Hr. apply andb_prop in Hr. destruct Hr as [H0 H1].
  split; [reflexivity | lia].
Qed.

Lemma numbers_ok_inv {P} (fe : FileEntry P) :
  numbers_ok fe = true ->
  (0 <= size fe < 2 ^ 64)%Z /\
  py_int (ctime fe) = Ok (seconds (ctime fe)) /\
  (0 <= seconds (ctime fe) < 2 ^ 32)%Z /\
  py_int (mtime fe) = Ok (seconds (mtime fe)) /\
  (0 <= seconds (mtime fe) < 2 ^ 32)%Z /\
  (- 2 ^ 31 <= mode fe < 2 ^ 31)%Z.
Proof.
  unfold numbers_ok. intros Hn.
  apply andb_prop in Hn. destruct Hn as [Hn Hmo].
  apply andb_prop in Hn. destruct Hn as [Hn Hm].
  apply andb_prop in Hn. destruct Hn as [Hs Hc].
  apply time_ok_inv in Hc, Hm. destruct Hc as [Hci Hc], Hm as [Hmi Hm].
  apply andb_prop in Hs, Hmo.
  repeat split; try assumption; lia.
Qed.

Lemma footer_fields_ok_inv {P} (fe : FileEntry P) :
  footer_fields_ok fe = true ->
  exists d, digest fe = Some d /\ length d = 16 /\ numbers_ok fe = true.
Proof.
  unfold footer_fields_ok. intros Hok.
  destruct (digest fe) as [d|]; [|discriminate].
  apply andb_prop in Hok. destruct Hok as [Hok Hn].
  exists d. apply Nat.eqb_eq in Hok. repeat split; assumption.
Qed.

Lemma footer_layout_length d sz ct mt md reserved :
  length (footer_layout d sz ct mt md reserved)
  = length d + 20 + length reserved.
Proof.
  unfold footer_layout. rewrite !length_app, !be_encode_length. lia.
Qed.

Lemma build_footer_layout {P} (fe : FileEntry P) (d : bytes) (ct mt : Z) :
  digest fe = Some d ->
  (0 <= size fe < 2 ^ 64)%Z ->
  py_int (ctime fe) = Ok ct -> (0 <= ct < 2 ^ 32)%Z ->
  py_int (mtime fe) = Ok mt -> (0 <= mt < 2 ^ 32)%Z ->
  (- 2 ^ 31 <= mode fe < 2 ^ 31)%Z ->
  _build_footer fe
  = Ok (footer_layout d (size fe) ct mt (mode fe) (repeat x00 12)).
Proof.
  intros Hd Hs Hci Hc Hmi Hm Hmo.
  unfold _build_footer, pack_Q, pack_I, pack_i, pack_unsigned, pack_signed.
  rewrite Hd, Hci, Hmi. cbn [rbind].
  replace ((0 <=? size fe)%Z && (size fe <? 256 ^ Z.of_nat 8)%Z) with true
    by (symmetry; apply andb_true_intro; split; [apply Z.leb_le | apply Z.ltb_lt];
        cbn; lia).
  replace ((0 <=? ct)%Z && (ct <? 256 ^ Z.of_nat 4)%Z) with true
    by (symmetry; apply andb_true_intro; split; [apply Z.leb_le | apply Z.ltb_lt];
        cbn; lia).
  replace ((0 <=? mt)%Z && (mt <? 256 ^ Z.of_nat 4)%Z) with true
    by (symmetry; apply andb_true_intro; split; [apply Z.leb_le | apply Z.ltb_lt];
        cbn; lia).
  replace ((- (256 ^ Z.of_nat 4 / 2) <=? mode fe)%Z
           && (mode fe <? 256 ^ Z.of_nat 4 / 2)%Z) with true
    by (symmetry; apply andb_true_intro; split; [apply Z.leb_le | apply Z.ltb_lt];
        cbn; lia).
  cbn [rbind]. unfold footer_layout. rewrite <- !app_assoc. reflexivity.
Qed.

Lemma unpack_footer_layout (name d : bytes) (sz ct mt md : Z) (reserved : bytes) :
  length d = 16 ->
  (0 <= sz < 2 ^ 64)%Z -> (0 <= ct < 2 ^ 32)%Z ->
  (0 <= mt < 2 ^ 32)%Z -> (- 2 ^ 31 <= md < 2 ^ 31)%Z ->
  _unpack_footer name (footer_layout d sz ct mt md reserved)
  = Ok (new_FileEntry name sz (PyInt ct) (PyInt mt) md (Some d) false).
Proof.
  intros Hd Hs Hc Hm Hmo. unfold _unpack_footer, footer_layout.
  change 16%Z with (Z.of_nat 16). change 36%Z with (Z.of_nat 36).
  rewrite slice_from_to, slice_to.
  rewrite (firstn_app_exact 16) by exact Hd.
  rewrite (skipn_app_exact 16) by exact Hd.
  replace (be_encode 8 sz ++ be_encode 4 ct ++ be_encode 4 mt ++ be_encode 4 md ++ reserved)
    with ((be_encode 8 sz ++ be_encode 4 ct ++ be_encode 4 mt ++ be_encode 4 md) ++ reserved)
    by (rewrite <- !app_assoc; reflexivity).
  rewrite (firstn_app_exact (36 - 16))
    by (rewrite !length_app, !be_encode_length; reflexivity).
  unfold unpack_QIIi.
  rewrite !length_app, !be_encode_length. cbn [Nat.add Nat.eqb].
  change 8%Z with (Z.of_nat 8). change 12%Z with (Z.of_nat 12).
  change 16%Z with (Z.of_nat 16). change 20%Z with (Z.of_nat 20).
  rewrite slice_to, !slice_from_to.
  rewrite (firstn_app_exact 8) by apply be_encode_length.
  rewrite (skipn_app_exact 8) by apply be_encode_length.
  rewrite (firstn_app_exact (12 - 8)) by apply be_encode_length.
  replace (be_encode 8 sz ++ be_encode 4 ct ++ be_encode 4 mt ++ be_encode 4 md)
    with ((be_encode 8 sz ++ be_encode 4 ct) ++ be_encode 4 mt ++ be_encode 4 md)
    by (rewrite <- !app_assoc; reflexivity).
  rewrite (skipn_app_exact 12)
    by (rewrite !length_app, !be_encode_length; reflexivity).
  rewrite (firstn_app_exact (16 - 12)) by apply be_encode_length.
  replace ((be_encode 8 sz ++ be_encode 4 ct) ++ be_encode 4 mt ++ be_encode 4 md)
    with (((be_encode 8 sz ++ be_encode 4 ct) ++ be_encode 4 mt) ++ be_encode 4 md)
    by (rewrite <- !app_assoc; reflexivity).
  rewrite (skipn_app_exact 16)
    by (rewrite !length_app, !be_encode_length; reflexivity).
  rewrite firstn_all2 by (rewrite be_encode_length; cbn; lia).
  cbn [rbind].
  assert (Hq : unpack_unsigned (be_encode 8 sz) = sz).
  { unfold unpack_unsigned. rewrite be_decode_encode. apply Z.mod_small. cbn. lia. }
  assert (Hi1 : unpack_unsigned (be_encode 4 ct) = ct).
  { unfold unpack_unsigned. rewrite be_decode_encode. apply Z.mod_small. cbn. lia. }
  assert (Hi2 : unpack_unsigned (be_encode 4 mt) = mt).
  { unfold unpack_unsigned. rewrite be_decode_encode. apply Z.mod_small. cbn. lia. }
  assert (Hi3 : unpack_signed (be_encode 4 md) = md).
  { apply (unpack_pack_signed 4 md); [lia|].
    unfold pack_signed.
    replace ((- (256 ^ Z.of_nat 4 / 2) <=? md)%Z && (md <? 256 ^ Z.of_nat 4 / 2)%Z)
      with true; [reflexivity|].
    symmetry; apply andb_true_intro; split; [apply Z.leb_le | apply Z.ltb_lt];
      cbn; lia. }
  rewrite Hq, Hi1, Hi2, Hi3. reflexivity.
Qed.

(** C4, as amended.  For an entry the footer can hold (a digest of 16
    bytes, a size within uint64, times whose [int] is defined and within
    uint32, a mode within int32), [_build_footer] returns 48 bytes: the
    digest, the size as a big-endian uint64, [int(ctime)] and [int(mtime)]
    as big-endian uint32, the mode as a big-endian int32, and 12 zero
    bytes; and [_unpack_footer], with any pathname, gives back the digest,
    the size and the mode, and as times the whole seconds [int(ctime)] and
    [int(mtime)], which are the times themselves when these are ints,
    whatever the 12 reserved bytes hold. *)
Theorem footer_codec {P} (fe : FileEntry P) :
  footer_fields_ok fe = true ->
  exists d ct mt footer,
    digest fe = Some d /\
    py_int (ctime fe) = Ok ct /\ py_int (mtime fe) = Ok mt /\
    (forall z, ctime fe = PyInt z -> ct = z) /\
    (forall z, mtime fe = PyInt z -> mt = z) /\
    _build_footer fe = Ok footer /\
    footer = d ++ be_encode 8 (size fe) ++ be_encode 4 ct
               ++ be_encode 4 mt ++ be_encode 4 (mode fe)
               ++ repeat x00 12 /\
    length d = 16 /\ length footer = 48 /\
    forall name : bytes,
      _unpack_footer name footer
      = Ok (new_FileEntry name (size fe) (PyInt ct) (PyInt mt) (mode fe)
              (Some d) false) /\
      forall reserved, length reserved = 12 ->
        _unpack_footer name (firstn 36 footer ++ reserved)
        = _unpack_footer name footer.
Proof.
  intros Hok.
  destruct (footer_fields_ok_inv fe Hok) as (d & Hd & Hl & Hnum).
  destruct (numbers_ok_inv fe Hnum) as (Hs & Hci & Hc & Hmi & Hm & Hmo).
  set (ct := seconds (ctime fe)) in *. set (mt := seconds (mtime fe)) in *.
  exists d, ct, mt, (footer_layout d (size fe) ct mt (mode fe) (repeat x00 12)).
  split; [exact Hd|].
  split; [exact Hci|]. split; [exact Hmi|].
  split; [intros z Hz; rewrite Hz in Hci; cbn in Hci; congruence|].
  split; [intros z Hz; rewrite Hz in Hmi; cbn in Hmi; congruence|].
  split; [apply build_footer_layout; assumption|].
  split; [reflexivity|].
  split; [exact Hl|].
  split; [rewrite footer_layout_length, Hl, repeat_length; reflexivity|].
  intros name.
  split; [apply unpack_footer_layout; assumption|].
  intros reserved Hr.
  assert (Hcut : firstn 36 (footer_layout d (size fe) ct mt
                              (mode fe) (repeat x00 12)) ++ reserved
                 = footer_layout d (size fe) ct mt (mode fe) reserved).
  { unfold footer_layout.
    replace (d ++ be_encode 8 (size fe) ++ be_encode 4 ct
               ++ be_encode 4 mt ++ be_encode 4 (mode fe) ++ repeat x00 12)
      with ((d ++ be_encode 8 (size fe) ++ be_encode 4 ct
               ++ be_encode 4 mt ++ be_encode 4 (mode fe)) ++ repeat x00 12)
      by (rewrite <- !app_assoc; reflexivity).
    rewrite (firstn_app_exact 36)
      by (rewrite !length_app, !be_encode_length, Hl; reflexivity).
    rewrite <- !app_assoc. reflexivity. }
  rewrite Hcut, !unpack_footer_layout by assumption. reflexivity.
Qed.

(** ** Blocks *)

Lemma split_blocks_aux_short (fuel : nat) (r : bytes) :
  length r < 16 -> split_blocks_aux fuel r = ([], r).
Proof.
  intros Hr. destruct fuel as [|fuel]; cbn [split_blocks_aux]; [reflexivity|].
  rewrite length_firstn.
  destruct (Nat.eqb_spec (Nat.min 16 (length r)) 16); [lia | reflexivity].
Qed.

Lemma split_blocks_aux_S (fuel : nat) (data : bytes) :
  split_blocks_aux (S fuel) data
  = if length (firstn 16 data) =? 16
    then (firstn 16 data :: fst (split_blocks_aux fuel (skipn 16 data)),
          snd (split_blocks_aux fuel (skipn 16 data)))
    else ([], data).
Proof.
  cbn [split_blocks_aux].
  destruct (length (firstn 16 data) =? 16); [|reflexivity].
  destruct (split_blocks_aux fuel (skipn 16 data)). reflexivity.
Qed.

Lemma split_blocks_aux_fuel (fuel : nat) (data : bytes) :
  length data < 16 * S fuel ->
  split_blocks_aux (S fuel) data = split_blocks_aux fuel data.
Proof.
  revert data. induction fuel as [|fuel IH]; intros data Hlen.
  - rewrite split_blocks_aux_short by lia. reflexivity.
  - destruct (Nat.lt_ge_cases (length data) 16) as [Hlt|Hge].
    + rewrite !split_blocks_aux_short by exact Hlt. reflexivity.
    + rewrite (split_blocks_aux_S (S fuel) data), (split_blocks_aux_S fuel data).
      rewrite IH by (rewrite length_skipn; lia).
      reflexivity.
Qed.

Lemma split_blocks_aux_enough (fuel extra : nat) (data : bytes) :
  length data < 16 * S fuel ->
  split_blocks_aux (fuel + extra) data = split_blocks_aux fuel data.
Proof.
  intros Hlen. induction extra as [|extra IH].
  - rewrite Nat.add_0_r. reflexivity.
  - rewrite Nat.add_succ_r, split_blocks_aux_fuel by lia. exact IH.
Qed.

Lemma split_blocks_by_count (data : bytes) :
  split_blocks data = split_blocks_aux (length data / 16) data.
Proof.
  unfold split_blocks.
  replace (length data) with (length data / 16 + (length data - length data / 16))
    at 1 by lia.
  apply split_blocks_aux_enough. lia.
Qed.

Lemma split_blocks_short (r : bytes) :
  length r < 16 -> split_blocks r = ([], r).
Proof. apply split_blocks_aux_short. Qed.

Lemma split_blocks_cons (b rest : bytes) :
  length b = 16 ->
  split_blocks (b ++ rest)
  = (b :: fst (split_blocks rest), snd (split_blocks rest)).
Proof.
  intros Hb. rewrite !split_blocks_by_count, length_app, Hb.
  replace ((16 + length rest) / 16) with (S (length rest / 16)) by lia.
  rewrite split_blocks_aux_S.
  rewrite (firstn_app_exact 16) by exact Hb.
  rewrite (skipn_app_exact 16) by exact Hb.
  rewrite Hb. reflexivity.
Qed.

(** Induction on a byte string, one block at a time. *)
Lemma block_ind (Q : bytes -> Prop) :
  (forall r, length r < 16 -> Q r) ->
  (forall b rest, length b = 16 -> Q rest -> Q (b ++ rest)) ->
  forall data, Q data.
Proof.
  intros Hshort Hstep data.
  remember (length data) as n eqn:Hn. revert data Hn.
  induction n as [n IH] using lt_wf_ind. intros data Hn.
  destruct (Nat.lt_ge_cases (length data) 16) as [Hlt|Hge].
  - apply Hshort, Hlt.
  - rewrite <- (firstn_skipn 16 data). apply Hstep.
    + rewrite length_firstn. lia.
    + apply (IH (length (skipn 16 data))); [|reflexivity].
      rewrite length_skipn. lia.
Qed.

Lemma split_blocks_app (x y : bytes) :
  split_blocks (x ++ y)
  = (fst (split_blocks x) ++ fst (split_blocks (snd (split_blocks x) ++ y)),
     snd (split_blocks (snd (split_blocks x) ++ y))).
Proof.
  induction x as [r Hr | b rest Hb IH] using block_ind.
  - rewrite (split_blocks_short r) by exact Hr. cbn [fst snd app].
    destruct (split_blocks (r ++ y)); reflexivity.
  - rewrite <- app_assoc.
    rewrite (split_blocks_cons b (rest ++ y) Hb), (split_blocks_cons b rest Hb), IH.
    reflexivity.
Qed.

Lemma split_blocks_rest_length (data : bytes) :
  length (snd (split_blocks data)) = length data mod 16.
Proof.
  induction data as [r Hr | b rest Hb IH] using block_ind.
  - rewrite split_blocks_short by exact Hr. cbn [snd]. lia.
  - rewrite split_blocks_cons by exact Hb. cbn [snd].
    rewrite IH, length_app, Hb. lia.
Qed.

Lemma split_blocks_aligned (data : bytes) :
  length data mod 16 = 0 -> snd (split_blocks data) = [].
Proof.
  intros Hal. apply length_zero_iff_nil.
  rewrite split_blocks_rest_length. exact Hal.
Qed.

(** ** CBC over streams *)

Section CipherFacts.
Context `{Libs}.

Lemma cbc_encrypt_blocks_app (key chain : bytes) (b1 b2 : list bytes) :
  cbc_encrypt_blocks key chain (b1 ++ b2)
  = (fst (cbc_encrypt_blocks key chain b1)
       ++ fst (cbc_encrypt_blocks key (snd (cbc_encrypt_blocks key chain b1)) b2),
     snd (cbc_encrypt_blocks key (snd (cbc_encrypt_blocks key chain b1)) b2)).
Proof.
  revert chain. induction b1 as [|b b1 IH]; intros chain.
  - cbn. destruct (cbc_encrypt_blocks key chain b2); reflexivity.
  - cbn [app cbc_encrypt_blocks].
    rewrite IH.
    destruct (cbc_encrypt_blocks key (aes_encrypt_block key (xor_bytes b chain)) b1)
      as [o1 c1].
    cbn [fst snd]. rewrite app_assoc. reflexivity.
Qed.

Lemma cbc_decrypt_blocks_app (key chain : bytes) (b1 b2 : list bytes) :
  cbc_decrypt_blocks key chain (b1 ++ b2)
  = (fst (cbc_decrypt_blocks key chain b1)
       ++ fst (cbc_decrypt_blocks key (snd (cbc_decrypt_blocks key chain b1)) b2),
     snd (cbc_decrypt_blocks key (snd (cbc_decrypt_blocks key chain b1)) b2)).
Proof.
  revert chain. induction b1 as [|b b1 IH]; intros chain.
  - cbn. destruct (cbc_decrypt_blocks key chain b2); reflexivity.
  - cbn [app cbc_decrypt_blocks].
    rewrite IH.
    destruct (cbc_decrypt_blocks key b b1) as [o1 c1].
    cbn [fst snd]. rewrite app_assoc. reflexivity.
Qed.

(** An [update] of a context that has seen [x] emits what extends the
    stream's output and leaves the context that has seen [x ++ y]. *)
Lemma encryptor_update_stream (key iv x y : bytes) :
  snd (encryptor_update (encryptor_after key iv x) y)
  = encryptor_after key iv (x ++ y) /\
  cbc_encrypt key iv (x ++ y)
  = cbc_encrypt key iv x ++ fst (encryptor_update (encryptor_after key iv x) y).
Proof.
  unfold encryptor_update, encryptor_after, cbc_encrypt.
  cbn [ctx_key ctx_chain ctx_buffer].
  rewrite (split_blocks_app x y).
  destruct (split_blocks x) as [bx rx]. cbn [fst snd].
  destruct (split_blocks (rx ++ y)) as [by' ry]. cbn [fst snd].
  rewrite cbc_encrypt_blocks_app.
  destruct (cbc_encrypt_blocks key iv bx) as [o1 c1]. cbn [fst snd].
  destruct (cbc_encrypt_blocks key c1 by') as [o2 c2]. cbn [fst snd].
  split; reflexivity.
Qed.

Lemma decryptor_update_stream (key iv x y : bytes) :
  snd (decryptor_update (decryptor_after key iv x) y)
  = decryptor_after key iv (x ++ y) /\
  cbc_decrypt key iv (x ++ y)
  = cbc_decrypt key iv x ++ fst (decryptor_update (decryptor_after key iv x) y).
Proof.
  unfold decryptor_update, decryptor_after, cbc_decrypt.
  cbn [ctx_key ctx_chain ctx_buffer].
  rewrite (split_blocks_app x y).
  destruct (split_blocks x) as [bx rx]. cbn [fst snd].
  destruct (split_blocks (rx ++ y)) as [by' ry]. cbn [fst snd].
  rewrite cbc_decrypt_blocks_app.
  destruct (cbc_decrypt_blocks key iv bx) as [o1 c1]. cbn [fst snd].
  destruct (cbc_decrypt_blocks key c1 by') as [o2 c2]. cbn [fst snd].
  split; reflexivity.
Qed.

Lemma new_cipher_encryptor (key iv : bytes) (ctx : CipherContext) :
  new_cipher key iv = Ok ctx ->
  ctx = encryptor_after key iv [] /\ ctx = decryptor_after key iv [] /\
  length iv = 16.
Proof.
  unfold new_cipher. destruct (andb _ _) eqn:E; [|discriminate].
  intros [= <-]. apply andb_prop in E. destruct E as [_ E].
  apply Nat.eqb_eq in E. repeat split; exact E || reflexivity.
Qed.

Lemma cbc_encrypt_cons (key iv b rest : bytes) :
  length b = 16 ->
  cbc_encrypt key iv (b ++ rest)
  = aes_encrypt_block key (xor_bytes b iv)
      ++ cbc_encrypt key (aes_encrypt_block key (xor_bytes b iv)) rest.
Proof.
  intros Hb. unfold cbc_encrypt. rewrite split_blocks_cons by exact Hb.
  cbn [fst cbc_encrypt_blocks].
  destruct (cbc_encrypt_blocks key _ (fst (split_blocks rest))). reflexivity.
Qed.

Lemma cbc_decrypt_cons (key iv c rest : bytes) :
  length c = 16 ->
  cbc_decrypt key iv (c ++ rest)
  = xor_bytes (aes_decrypt_block key c) iv ++ cbc_decrypt key c rest.
Proof.
  intros Hc. unfold cbc_decrypt. rewrite split_blocks_cons by exact Hc.
  cbn [fst cbc_decrypt_blocks].
  destruct (cbc_decrypt_blocks key c (fst (split_blocks rest))). reflexivity.
Qed.

Lemma cbc_encrypt_short (key iv r : bytes) :
  length r < 16 -> cbc_encrypt key iv r = [].
Proof.
  intros Hr. unfold cbc_encrypt. rewrite split_blocks_short by exact Hr.
  reflexivity.
Qed.

Lemma cbc_decrypt_short (key iv r : bytes) :
  length r < 16 -> cbc_decrypt key iv r = [].
Proof.
  intros Hr. unfold cbc_decrypt. rewrite split_blocks_short by exact Hr.
  reflexivity.
Qed.

Lemma cbc_encrypt_length (key iv data : bytes) :
  length iv = 16 ->
  length (cbc_encrypt key iv data) = 16 * (length data / 16).
Proof.
  revert iv. induction data as [r Hr | b rest Hb IH] using block_ind; intros iv Hiv.
  - rewrite cbc_encrypt_short by exact Hr. cbn [length]. lia.
  - rewrite cbc_encrypt_cons by exact Hb.
    assert (Hc : length (aes_encrypt_block key (xor_bytes b iv)) = 16).
    { apply aes_encrypt_length. rewrite xor_bytes_length. lia. }
    rewrite !length_app, Hc, IH, Hb by exact Hc. lia.
Qed.

(** Decrypting the first [m] bytes of a ciphertext gives the plaintext of
    the complete blocks among them. *)
Lemma cbc_decrypt_prefix (key iv data : bytes) (m : nat) :
  length iv = 16 -> length data mod 16 = 0 ->
  cbc_decrypt key iv (firstn m (cbc_encrypt key iv data))
  = firstn (16 * (m / 16)) data.
Proof.
  revert iv m.
  induction data as [r Hr | b rest Hb IH] using block_ind; intros iv m Hiv Hal.
  - assert (r = []) as -> by (apply length_zero_iff_nil; lia).
    rewrite cbc_encrypt_short by (cbn; lia).
    rewrite !firstn_nil. apply cbc_decrypt_short. cbn. lia.
  - rewrite cbc_encrypt_cons by exact Hb.
    set (c := aes_encrypt_block key (xor_bytes b iv)).
    assert (Hc : length c = 16).
    { apply aes_encrypt_length. rewrite xor_bytes_length. lia. }
    rewrite length_app, Hb in Hal.
    destruct (Nat.lt_ge_cases m 16) as [Hlt|Hge].
    + replace (m / 16) with 0 by lia. rewrite Nat.mul_0_r, firstn_0.
      apply cbc_decrypt_short. rewrite length_firstn. lia.
    + rewrite firstn_app, Hc.
      rewrite (firstn_all2 (n := m) c) by lia.
      rewrite cbc_decrypt_cons by exact Hc.
      rewrite IH by (exact Hc || lia).
      subst c. rewrite aes_decrypt_encrypt by (rewrite xor_bytes_length; lia).
      rewrite xor_bytes_cancel by lia.
      replace (16 * (m / 16)) with (16 + 16 * ((m - 16) / 16)) by lia.
      rewrite firstn_app, Hb.
      rewrite (firstn_all2 (n := 16 + _) b) by lia.
      f_equal. f_equal. lia.
Qed.

Lemma cbc_decrypt_encrypt (key iv data : bytes) :
  length iv = 16 -> length data mod 16 = 0 ->
  cbc_decrypt key iv (cbc_encrypt key iv data) = data.
Proof.
  intros Hiv Hal.
  rewrite <- (firstn_all (cbc_encrypt key iv data)) at 1.
  rewrite cbc_decrypt_prefix, cbc_encrypt_length by assumption.
  apply firstn_all2. lia.
Qed.

End CipherFacts.

(** ** encrypt_fd *)

Lemma BUFFER_SIZE_eq : BUFFER_SIZE = 1024.
Proof. reflexivity. Qed.

Lemma pathname_padding_aligned (n : nat) :
  (n + length (pathname_padding n)) mod 16 = 0.
Proof.
  unfold pathname_padding.
  destruct (Nat.eqb_spec (n mod 16) 0) as [He|Hne].
  - cbn [length]. lia.
  - rewrite repeat_length. lia.
Qed.

Lemma pathname_padding_length (n : nat) :
  length (pathname_padding n) = if n mod 16 =? 0 then 0 else 16 - n mod 16.
Proof.
  unfold pathname_padding.
  destruct (n mod 16 =? 0); [reflexivity | apply repeat_length].
Qed.

Lemma content_padding_length (n : nat) :
  length (content_padding n) = 16 - n mod 16.
Proof. apply repeat_length. Qed.

Lemma content_padding_mod (n k : nat) :
  n mod 16 = k mod 16 -> content_padding n = content_padding k.
Proof. unfold content_padding. intros ->. reflexivity. Qed.

Lemma bytes_mul_single (n : nat) (b : byte) : bytes_mul n [b] = repeat b n.
Proof.
  induction n as [|n IH]; cbn; [reflexivity | rewrite IH; reflexivity].
Qed.

Section EncryptFacts.
Context `{Libs} `{Host}.

Lemma encrypt_loop_S (fuel bs : nat) (encryptor : CipherContext)
  (h : md5_obj) (s : fds) :
  encrypt_loop (S fuel) bs encryptor h s
  = let chunk := firstn (BUFFER_SIZE * bs) (in_fd s) in
    let rest := skipn (BUFFER_SIZE * bs) (in_fd s) in
    if (length chunk =? 0) || negb (length chunk mod bs =? 0) then
      match pack_B (py_or (Z.of_nat bs - Z.of_nat (length chunk) mod Z.of_nat bs)
                          (Z.of_nat bs)) with
      | Ok pad =>
          let padded :=
            chunk ++ bytes_mul
              (Z.to_nat (py_or (Z.of_nat bs - Z.of_nat (length chunk) mod Z.of_nat bs)
                               (Z.of_nat bs))) pad in
          (Return (snd (encryptor_update encryptor padded), md5_update h chunk),
           {| in_fd := rest;
              out_fd := out_fd s ++ fst (encryptor_update encryptor padded) |})
      | Err e => (Raise e, {| in_fd := rest; out_fd := out_fd s |})
      end
    else
      encrypt_loop fuel bs (snd (encryptor_update encryptor chunk))
        (md5_update h chunk)
        {| in_fd := rest;
           out_fd := out_fd s ++ fst (encryptor_update encryptor chunk) |}.
Proof.
  cbn [encrypt_loop]. unfold bind at 1. cbn [fd_read].
  cbv zeta.
  destruct ((length (firstn (BUFFER_SIZE * bs) (in_fd s)) =? 0)
            || negb (length (firstn (BUFFER_SIZE * bs) (in_fd s)) mod bs =? 0)).
  - unfold bind at 1.
    destruct (pack_B _) as [pad|e]; cbn [lift ret raise]; [|reflexivity].
    destruct (encryptor_update encryptor _) as [ct enc']. reflexivity.
  - destruct (encryptor_update encryptor _) as [ct enc']. reflexivity.
Qed.

(** The loop writes the encryption of the content and its padding, and
    has fed the content to the digest. *)
Lemma encrypt_loop_content (fuel : nat) (key iv x h content out : bytes) :
  length content / (BUFFER_SIZE * 16)
    + (if length content =? 0 then 1 else 2) <= fuel ->
  encrypt_loop fuel 16 (encryptor_after key iv x) h
    {| in_fd := content; out_fd := out ++ cbc_encrypt key iv x |}
  = (Return (encryptor_after key iv
               (x ++ content ++ content_padding (length content)),
             h ++ content),
     {| in_fd := [];
        out_fd := out ++ cbc_encrypt key iv
                           (x ++ content ++ content_padding (length content)) |}).
Proof.
  pose proof BUFFER_SIZE_eq as HB.
  revert x h content.
  induction fuel as [|fuel IH]; intros x h content Hfuel;
    [destruct (length content =? 0); lia|].
  rewrite encrypt_loop_S. cbn [in_fd out_fd]. cbv zeta.
  destruct (Nat.le_gt_cases (BUFFER_SIZE * 16) (length content)) as [Hfull|Hlast].
  - (* a full chunk: no padding yet *)
    assert (Hlen : length (firstn (BUFFER_SIZE * 16) content) = BUFFER_SIZE * 16)
      by (rewrite length_firstn; lia).
    rewrite Hlen.
    replace ((BUFFER_SIZE * 16 =? 0) || negb ((BUFFER_SIZE * 16) mod 16 =? 0))
      with false
      by (symmetry; apply orb_false_intro;
          [apply Nat.eqb_neq; lia
          | apply negb_false_iff, Nat.eqb_eq; lia]).
    destruct (encryptor_update_stream key iv x (firstn (BUFFER_SIZE * 16) content))
      as [Hctx Hout].
    rewrite Hctx, <- app_assoc, <- Hout.
    unfold md5_update.
    rewrite IH
      by (rewrite length_skipn;
          destruct (Nat.eqb_spec (length content) 0);
          destruct (Nat.eqb_spec (length content - BUFFER_SIZE * 16) 0); lia).
    rewrite <- !app_assoc.
    rewrite (app_assoc (firstn _ content)), firstn_skipn.
    rewrite (content_padding_mod (length (skipn (BUFFER_SIZE * 16) content))
               (length content))
      by (rewrite length_skipn; lia).
    reflexivity.
  - rewrite firstn_all2, skipn_all2 by lia.
    destruct ((length content =? 0) || negb (length content mod 16 =? 0)) eqn:E.
    + (* the end of the stream: an empty chunk or one with a partial block *)
      assert (Hpl : py_or (Z.of_nat 16 - Z.of_nat (length content) mod Z.of_nat 16)
                      (Z.of_nat 16)
                    = Z.of_nat (16 - length content mod 16)).
      { unfold py_or.
        destruct (Z.eqb_spec (Z.of_nat 16 - Z.of_nat (length content) mod Z.of_nat 16) 0);
          lia. }
      rewrite Hpl.
      assert (Hpack : pack_B (Z.of_nat (16 - length content mod 16))
                      = Ok [byte_of_Z (Z.of_nat (16 - length content mod 16))]).
      { unfold pack_B, pack_unsigned.
        replace ((0 <=? Z.of_nat (16 - length content mod 16))%Z
                 && (Z.of_nat (16 - length content mod 16) <? 256 ^ Z.of_nat 1)%Z)
          with true; [reflexivity|].
        symmetry. apply andb_true_intro.
        change (256 ^ Z.of_nat 1)%Z with 256%Z.
        split; [apply Z.leb_le | apply Z.ltb_lt]; lia. }
      rewrite Hpack, Nat2Z.id, bytes_mul_single.
      fold (content_padding (length content)).
      destruct (encryptor_update_stream key iv x
                  (content ++ content_padding (length content))) as [Hctx Hout].
      rewrite Hctx, <- app_assoc, <- Hout.
      unfold md5_update. reflexivity.
    + (* a last chunk of whole blocks: the padding comes with the next read *)
      apply orb_false_elim in E. destruct E as [E1 E2].
      apply Nat.eqb_neq in E1. apply negb_false_iff, Nat.eqb_eq in E2.
      destruct (encryptor_update_stream key iv x content) as [Hctx Hout].
      rewrite Hctx, <- app_assoc, <- Hout.
      unfold md5_update.
      rewrite IH
        by (cbn [length Nat.eqb];
            destruct (Nat.eqb_spec (length content) 0); lia).
      cbn [app length].
      rewrite <- !app_assoc, !app_nil_r.
      rewrite (content_padding_mod 0 (length content)) by lia.
      reflexivity.
Qed.

End EncryptFacts.

Section EncryptFd.
Context `{Libs} `{Host}.

Lemma new_cipher_ok (self : Crypto) (the_salt : bytes) :
  aes_key_size_ok (key_size self) = true ->
  new_cipher (fst (gen_key_and_iv self the_salt)) (snd (gen_key_and_iv self the_salt))
  = Ok (encryptor_after (fst (gen_key_and_iv self the_salt))
          (snd (gen_key_and_iv self the_salt)) []).
Proof.
  intros Hk. destruct (gen_key_and_iv_lengths self the_salt) as [Hlk Hli].
  unfold new_cipher. rewrite Hlk, Hli, Hk. reflexivity.
Qed.

Lemma pack_B_byte (v : Z) :
  (0 <= v < 256)%Z -> pack_B v = Ok [byte_of_Z v].
Proof.
  intros Hv. unfold pack_B, pack_unsigned.
  change (256 ^ Z.of_nat 1)%Z with 256%Z.
  replace ((0 <=? v)%Z && (v <? 256)%Z) with true; [reflexivity|].
  symmetry. apply andb_true_intro. split; [apply Z.leb_le | apply Z.ltb_lt]; lia.
Qed.

Lemma pack_H_short (v : Z) :
  (0 <= v < 65536)%Z -> pack_H v = Ok (be_encode 2 v).
Proof.
  intros Hv. unfold pack_H, pack_unsigned.
  change (256 ^ Z.of_nat 2)%Z with 65536%Z.
  replace ((0 <=? v)%Z && (v <? 65536)%Z) with true; [reflexivity|].
  symmetry. apply andb_true_intro. split; [apply Z.leb_le | apply Z.ltb_lt]; lia.
Qed.

Lemma plain_stream_aligned (name body d : bytes) (sz ct mt md : Z) :
  length d = 16 ->
  length (plain_stream name body d sz ct mt md) mod 16 = 0.
Proof.
  intros Hd. unfold plain_stream.
  rewrite !length_app, footer_layout_length, Hd, repeat_length.
  rewrite content_padding_length.
  pose proof (pathname_padding_aligned (length name)). lia.
Qed.

(** What an encryption writes and returns. *)
Lemma encrypt_fd_container (fuel : nat) (self : Crypto)
  (file_entry : option (FileEntry text)) (flags : Z) (content out name : bytes) :
  let fe := effective_entry file_entry in
  let the_salt := effective_salt fe in
  let body := if compresses flags then zlib_compress content else content in
  aes_key_size_ok (key_size self) = true ->
  numbers_ok fe = true ->
  encode_utf8 (pathname fe) = Ok name ->
  (Z.of_nat (length name) < 65536)%Z ->
  length body / (BUFFER_SIZE * 16) + 2 <= fuel ->
  encrypt_fd fuel self file_entry flags {| in_fd := content; out_fd := out |}
  = (Return (set_digest (set_salt fe the_salt) (md5 body)),
     {| in_fd := [];
        out_fd := out ++ container self flags name the_salt body (md5 body)
                           (size fe) (seconds (ctime fe)) (seconds (mtime fe)) (mode fe) |}).
Proof.
  intros fe the_salt body Hks Hnum Henc Hname Hfuel.
  unfold encrypt_fd. fold (effective_entry file_entry). fold fe.
  change (block_size self) with 16. change (16 - 4) with 12.
  assert (Hsalt : match salt (match salt fe with
                              | None => set_salt fe (os_urandom 12)
                              | Some _ => fe
                              end) with
                  | Some s => s | None => []
                  end = the_salt).
  { unfold the_salt, effective_salt. destruct (salt fe) eqn:E; [rewrite E|];
      reflexivity. }
  rewrite Hsalt.
  assert (Hfe : match salt fe with
                | None => set_salt fe (os_urandom 12)
                | Some _ => fe
                end = set_salt fe the_salt).
  { unfold the_salt, effective_salt. destruct fe as [p s c m mo d i [sl|]];
      reflexivity. }
  rewrite Hfe. clear Hsalt Hfe.
  pose proof (new_cipher_ok self the_salt Hks) as Hnc.
  destruct (gen_key_and_iv_lengths self the_salt) as [_ Hiv].
  unfold container.
  destruct (gen_key_and_iv self the_salt) as [key iv]. cbn [fst snd] in *.
  unfold bind at 1. rewrite Hnc. cbn [lift ret].
  unfold bind at 1. cbn [pathname set_salt]. rewrite Henc. cbn [lift ret].
  change (2 ^ 16)%Z with (Z.of_nat (16 * 4096)).
  rewrite slice_to, firstn_all2 by lia.
  replace (if negb (length name mod 16 =? 0)
           then repeat x00 (16 - length name mod 16) else [])
    with (pathname_padding (length name))
    by (unfold pathname_padding; destruct (length name mod 16 =? 0); reflexivity).
  unfold bind at 1. rewrite (pack_B_byte VERSION) by (unfold VERSION; lia).
  cbn [lift ret].
  unfold bind at 1.
  rewrite (pack_B_byte (Z.land flags 255))
    by (change 255%Z with (Z.ones 8); rewrite Z.land_ones by lia;
        apply Z.mod_pos_bound; lia).
  cbn [lift ret].
  unfold bind at 1. cbn [fd_write in_fd out_fd].
  unfold bind at 1. rewrite pack_H_short by lia. cbn [lift ret].
  unfold bind at 1. cbn [fd_write in_fd out_fd].
  unfold bind at 1. cbn [fd_write in_fd out_fd].
  destruct (encryptor_update_stream key iv [] (name ++ pathname_padding (length name)))
    as [Hctx Hout].
  destruct (encryptor_update (encryptor_after key iv [])
              (name ++ pathname_padding (length name))) as [ct1 enc1].
  cbn [fst snd app] in Hctx, Hout. subst enc1.
  rewrite (cbc_encrypt_short key iv []) in Hout by (cbn; lia).
  cbn [app] in Hout. subst ct1.
  unfold bind at 1. cbn [fd_write in_fd out_fd].
  set (hdr := ((out ++ [byte_of_Z VERSION] ++ [byte_of_Z (Z.land flags 255)])
                 ++ be_encode 2 (Z.of_nat (length name))) ++ the_salt).
  assert (Hhdr : hdr = out ++ header (Z.land flags 255) (length name) the_salt).
  { unfold hdr, header. rewrite <- !app_assoc. reflexivity. }
  (* the optional compression stage *)
  unfold bind at 1.
  assert (Hstage :
    (if negb (Z.land (Z.land flags 255) COMPRESS =? 0)%Z
     then bind fd_read_all (fun data => fd_rebind (zlib_compress data))
     else ret tt)
      {| in_fd := content;
         out_fd := hdr ++ cbc_encrypt key iv (name ++ pathname_padding (length name)) |}
    = (Return tt,
       {| in_fd := body;
          out_fd := hdr ++ cbc_encrypt key iv (name ++ pathname_padding (length name)) |})).
  { unfold body, compresses.
    destruct (negb (Z.land (Z.land flags 255) COMPRESS =? 0)%Z); reflexivity. }
  rewrite Hstage. clear Hstage.
  (* the content *)
  unfold bind at 1.
  rewrite encrypt_loop_content
    by (destruct (length body =? 0); lia).
  unfold md5_new, md5_digest. cbn [app].
  unfold bind at 1.
  destruct (numbers_ok_inv fe Hnum) as (Hs & Hci & Hc & Hmi & Hm & Hmo).
  rewrite (build_footer_layout _ (md5 body)
             (seconds (ctime fe)) (seconds (mtime fe)))
    by (cbn [digest size ctime mtime mode set_digest set_salt];
        first [reflexivity | assumption]).
  cbn [lift ret size ctime mtime mode set_digest set_salt].
  set (footer := footer_layout (md5 body) (size fe) (seconds (ctime fe)) (seconds (mtime fe)) (mode fe)
                   (repeat x00 12)).
  set (x := (name ++ pathname_padding (length name))
              ++ body ++ content_padding (length body)).
  destruct (encryptor_update_stream key iv x footer) as [Hctx Hout].
  destruct (encryptor_update (encryptor_after key iv x) footer) as [ct2 enc2].
  cbn [fst snd] in Hctx, Hout. subst enc2.
  unfold bind at 1. cbn [fd_write in_fd out_fd].
  rewrite <- app_assoc, <- Hout.
  assert (Hx : x ++ footer
               = plain_stream name body (md5 body)
                   (size fe) (seconds (ctime fe)) (seconds (mtime fe)) (mode fe)).
  { unfold x, footer, plain_stream. rewrite <- !app_assoc. reflexivity. }
  rewrite Hx.
  unfold bind at 1. unfold cipher_finalize, encryptor_after. cbn [ctx_buffer].
  rewrite split_blocks_aligned by apply plain_stream_aligned, md5_length.
  cbn [lift ret].
  unfold bind at 1. cbn [fd_write in_fd out_fd ret].
  rewrite app_nil_r, Hhdr, <- app_assoc. reflexivity.
Qed.
End EncryptFd.

(** ** decrypt_fd: the pathname region and the loop *)

(** The true division makes the block size of a pathname that does not fill
    its last block [pathname_size + bs], not the next multiple of [bs]. *)
Lemma pathname_block_size_16 (p : Z) :
  (0 <= p)%Z ->
  pathname_block_size 16 p = if (p mod 16 =? 0)%Z then p else (p + 16)%Z.
Proof.
  intros Hp. unfold pathname_block_size.
  destruct (p mod 16 =? 0)%Z; cbn [negb]; [reflexivity|].
  assert (Heq : ((true_div p 16 + 1) * inject_Z 16 == inject_Z (p + 16))%Q).
  { unfold true_div. rewrite inject_Z_plus. field. }
  unfold int_of_float.
  assert (Hle : Qle_bool 0 ((true_div p 16 + 1) * inject_Z 16) = true).
  { apply Qle_bool_iff. rewrite Heq.
    change 0%Q with (inject_Z 0). rewrite <- Zle_Qle. lia. }
  rewrite Hle, (Qfloor_comp _ _ Heq). apply Qfloor_Z.
Qed.

Section DecryptLoopFacts.
Context `{Libs}.

Lemma decrypt_loop_S (fuel bs : nat) (name : bytes) (decryptor : CipherContext)
  (str_io : bytes) (h : md5_obj) (next_chunk : bytes) (s : fds) :
  decrypt_loop (S fuel) bs name decryptor str_io h next_chunk s
  = let read := firstn (BUFFER_SIZE * bs) (in_fd s) in
    let s1 := {| in_fd := skipn (BUFFER_SIZE * bs) (in_fd s); out_fd := out_fd s |} in
    match next_chunk with
    | [] => decrypt_loop fuel bs name decryptor str_io h read s1
    | _ :: _ =>
        let plaintext := fst (decryptor_update decryptor next_chunk) in
        let decryptor' := snd (decryptor_update decryptor next_chunk) in
        if length read =? 0 then
          match cipher_finalize decryptor' with
          | Err e => (Raise e, s1)
          | Ok fin =>
              match _unpack_footer name
                      (slice (plaintext ++ fin) (Some (-48)%Z) None) with
              | Err e => (Raise e, s1)
              | Ok file_entry =>
                  match bytearray_first
                          (slice (plaintext ++ fin) (Some (-49)%Z) (Some (-48)%Z)) with
                  | Err e => (Raise e, s1)
                  | Ok padding_length =>
                      let stripped :=
                        slice (plaintext ++ fin) None
                          (Some (- padding_length - 48)%Z) in
                      (Return (file_entry, str_io ++ stripped,
                               md5_update h stripped), s1)
                  end
              end
          end
        else
          decrypt_loop fuel bs name decryptor' (str_io ++ plaintext)
            (md5_update h plaintext) read s1
    end.
Proof.
  cbn [decrypt_loop]. unfold bind at 1. cbn [fd_read]. cbv zeta.
  destruct next_chunk as [|b next_chunk]; [reflexivity|].
  destruct (decryptor_update decryptor (b :: next_chunk)) as [pt dec'].
  cbn [fst snd].
  destruct (length (firstn (BUFFER_SIZE * bs) (in_fd s)) =? 0); [|reflexivity].
  unfold bind at 1.
  destruct (cipher_finalize dec') as [fin|e]; cbn [lift ret raise]; [|reflexivity].
  unfold bind at 1.
  destruct (_unpack_footer name _) as [fe|e]; cbn [lift ret raise]; [|reflexivity].
  unfold bind at 1.
  destruct (bytearray_first _) as [pl|e]; cbn [lift ret raise]; reflexivity.
Qed.

(** The loop writes nothing, and what it raises comes from [finalize],
    [unpack] or the index of an empty [bytearray]. *)
Lemma decrypt_loop_frame (fuel bs : nat) (name : bytes) (decryptor : CipherContext)
  (str_io : bytes) (h : md5_obj) (next_chunk : bytes) (s : fds) :
  out_fd (snd (decrypt_loop fuel bs name decryptor str_io h next_chunk s)) = out_fd s /\
  forall e,
    fst (decrypt_loop fuel bs name decryptor str_io h next_chunk s) = Raise e ->
    e = ValueError \/ e = StructError \/ e = IndexError.
Proof.
  revert decryptor str_io h next_chunk s.
  induction fuel as [|fuel IH]; intros decryptor str_io h next_chunk s.
  - cbn. split; [reflexivity | discriminate].
  - rewrite decrypt_loop_S. cbv zeta.
    destruct next_chunk as [|b next_chunk].
    + destruct (IH decryptor str_io h (firstn (BUFFER_SIZE * bs) (in_fd s))
                  {| in_fd := skipn (BUFFER_SIZE * bs) (in_fd s); out_fd := out_fd s |})
        as [Ho He].
      split; [exact Ho | exact He].
    + destruct (length (firstn (BUFFER_SIZE * bs) (in_fd s)) =? 0).
      * destruct (cipher_finalize _) as [fin|e] eqn:Efin.
        2:{ split; [reflexivity|]. cbn [fst]. intros e' [= <-].
            unfold cipher_finalize in Efin.
            destruct (ctx_buffer _); [discriminate|].
            injection Efin as <-. auto. }
        destruct (_unpack_footer name _) as [fe|e] eqn:Eun.
        2:{ split; [reflexivity|]. cbn [fst]. intros e' [= <-].
            unfold _unpack_footer, unpack_QIIi in Eun.
            destruct (length _ =? 20) in Eun; cbn [rbind] in Eun;
              [discriminate|].
            inversion Eun. auto. }
        destruct (bytearray_first _) as [pl|e] eqn:Eba.
        2:{ split; [reflexivity|]. cbn [fst]. intros e' [= <-].
            unfold bytearray_first in Eba.
            destruct (slice _ _ _) in Eba; [|discriminate Eba].
            inversion Eba. auto. }
        split; [reflexivity | discriminate].
      * destruct (IH (snd (decryptor_update decryptor (b :: next_chunk)))
                    (str_io ++ fst (decryptor_update decryptor (b :: next_chunk)))
                    (md5_update h (fst (decryptor_update decryptor (b :: next_chunk))))
                    (firstn (BUFFER_SIZE * bs) (in_fd s))
                    {| in_fd := skipn (BUFFER_SIZE * bs) (in_fd s);
                       out_fd := out_fd s |})
          as [Ho He].
        split; [exact Ho | exact He].
Qed.

End DecryptLoopFacts.

(** ** The loop of decrypt_fd on the ciphertext of a container *)

Lemma skipn_firstn_glue {A} (l : list A) (x y : nat) :
  x <= y -> skipn x (firstn y l) ++ skipn y l = skipn x l.
Proof.
  intros Hxy.
  rewrite <- (firstn_skipn y l) at 3.
  rewrite skipn_app, length_firstn.
  destruct (Nat.le_gt_cases y (length l)) as [Hle|Hgt].
  - rewrite Nat.min_l by exact Hle.
    replace (x - y) with 0 by lia. reflexivity.
  - rewrite (skipn_all2 (n := y)) by lia.
    rewrite skipn_nil. reflexivity.
Qed.

Lemma K_eq : BUFFER_SIZE * 16 = 1024 * 16.
Proof. reflexivity. Qed.

Ltac knorm := rewrite ?K_eq in *.

Section DecryptValid.
Context `{Libs}.
Variables (key iv : bytes) (Q pad footer name : bytes) (fe : FileEntry bytes).
Hypothesis Hiv : length iv = 16.
Hypothesis Hal : length (Q ++ pad ++ footer) mod 16 = 0.
Hypothesis Hfooter : length footer = 48.
Hypothesis Hpad_len : 1 <= length pad <= 16.
Hypothesis Hpad : pad = repeat (byte_of_Z (Z.of_nat (length pad))) (length pad).
Hypothesis Hfe : _unpack_footer name footer = Ok fe.

Let P := Q ++ pad ++ footer.
Let CT := cbc_encrypt key iv P.

Lemma valid_ct_length : length CT = length P.
Proof.
  unfold CT. rewrite cbc_encrypt_length by exact Hiv.
  fold P in Hal. lia.
Qed.

Lemma P_length : length P = length Q + length pad + 48.
Proof. unfold P. rewrite !length_app, Hfooter. lia. Qed.

Lemma decrypt_prefix_of_valid (A R : bytes) :
  A ++ R = CT ->
  cbc_decrypt key iv A = firstn (16 * (length A / 16)) P.
Proof.
  intros HA.
  assert (Hle : length A <= length P).
  { rewrite <- valid_ct_length, <- HA, length_app. lia. }
  assert (HA' : A = firstn (length A) CT).
  { rewrite <- HA. symmetry. apply firstn_app_exact. reflexivity. }
  remember (length A) as a eqn:Ha. rewrite HA'.
  unfold CT. apply cbc_decrypt_prefix; [exact Hiv | exact Hal].
Qed.

(** What an [update] with the pending chunk emits. *)
Lemma update_of_valid (A N R : bytes) :
  A ++ N ++ R = CT ->
  fst (decryptor_update (decryptor_after key iv A) N)
  = skipn (16 * (length A / 16)) (firstn (16 * ((length A + length N) / 16)) P).
Proof.
  intros HA.
  destruct (decryptor_update_stream key iv A N) as [_ Hout].
  rewrite (decrypt_prefix_of_valid A (N ++ R) HA) in Hout.
  rewrite (decrypt_prefix_of_valid (A ++ N) R) in Hout
    by (rewrite <- app_assoc; exact HA).
  rewrite length_app in Hout. rewrite Hout.
  assert (Hle : length A + length N <= length P).
  { rewrite <- valid_ct_length, <- HA, !length_app. lia. }
  rewrite skipn_app, length_firstn.
  rewrite (skipn_all2 (n := 16 * (length A / 16))) by (rewrite length_firstn; lia).
  rewrite Nat.min_l by lia. rewrite Nat.sub_diag. reflexivity.
Qed.

(** The three slices of the last plaintext. *)
Lemma last_plaintext_slices (x : nat) :
  x <= length Q ->
  let fp := skipn x P in
  slice fp (Some (-48)%Z) None = footer /\
  bytearray_first (slice fp (Some (-49)%Z) (Some (-48)%Z))
  = Ok (Z.of_nat (length pad)) /\
  slice fp None (Some (- Z.of_nat (length pad) - 48)%Z) = skipn x Q.
Proof.
  intros Hx fp.
  assert (Hfp : fp = skipn x Q ++ pad ++ footer).
  { unfold fp, P. rewrite skipn_app. replace (x - length Q) with 0 by lia.
    reflexivity. }
  assert (Hlen : length fp = (length Q - x) + length pad + 48).
  { rewrite Hfp, !length_app, length_skipn, Hfooter. lia. }
  repeat split.
  - change (-48)%Z with (- Z.of_nat 48)%Z. rewrite slice_last by lia.
    rewrite Hlen, Hfp, app_assoc.
    apply skipn_app_exact. rewrite length_app, length_skipn. lia.
  - change (-48)%Z with (- Z.of_nat 48)%Z. change (-49)%Z with (- Z.of_nat 49)%Z.
    rewrite slice_neg_neg by lia. rewrite Hlen.
    replace (length Q - x + length pad + 48 - 48 - (length Q - x + length pad + 48 - 49))
      with 1 by lia.
    rewrite Hfp.
    destruct pad as [|p0 pad'] using rev_ind; [cbn in Hpad_len; lia|].
    clear IHpad'.
    rewrite length_app in *. cbn [length] in *.
    replace (skipn x Q ++ (pad' ++ [p0]) ++ footer)
      with ((skipn x Q ++ pad') ++ p0 :: footer)
      by (rewrite <- !app_assoc; reflexivity).
    rewrite skipn_app_exact by (rewrite length_app, length_skipn; lia).
    cbn [firstn bytearray_first].
    f_equal.
    assert (Hp0 : p0 = byte_of_Z (Z.of_nat (length pad' + 1))).
    { assert (Hin : In p0 (pad' ++ [p0])) by (apply in_or_app; right; left; reflexivity).
      rewrite Hpad in Hin. apply repeat_spec in Hin. exact Hin. }
    rewrite Hp0, Z_of_byte_of_Z. apply Z.mod_small. lia.
  - replace (- Z.of_nat (length pad) - 48)%Z
      with (- Z.of_nat (length pad + 48))%Z by lia.
    rewrite slice_drop_last by lia.
    rewrite Hlen, Hfp.
    apply firstn_app_exact. rewrite length_skipn. lia.
Qed.

Lemma decrypt_loop_valid (fuel : nat) (A N R s h out : bytes) :
  A ++ N ++ R = CT ->
  N <> [] \/ R <> [] ->
  (if length R =? 0 then 1 else length R / (BUFFER_SIZE * 16) + 2) <= fuel ->
  16 * (final_start (length A) (length N) (length R) / 16) + 64 <= length P ->
  decrypt_loop fuel 16 name (decryptor_after key iv A) s h N
    {| in_fd := R; out_fd := out |}
  = (Return (fe, s ++ skipn (16 * (length A / 16)) Q,
             h ++ skipn (16 * (length A / 16)) Q),
     {| in_fd := []; out_fd := out |}).
Proof.
  pose proof P_length as HP.
  assert (HalP : length P mod 16 = 0) by exact Hal.
  revert A N R s h.
  induction fuel as [|fuel IH]; intros A N R s h HA Hne Hfuel Hcond;
    [destruct (length R =? 0); lia|].
  rewrite decrypt_loop_S. cbn [in_fd out_fd]. cbv zeta.
  destruct N as [|b N0].
  - (* nothing pending yet: the first turn *)
    destruct Hne as [Hne|Hne]; [congruence|].
    assert (HR : 0 < length R) by (destruct R; [congruence | cbn; lia]).
    rewrite IH.
    + reflexivity.
    + cbn [app] in *. rewrite firstn_skipn. exact HA.
    + left. intros Hnil. apply (f_equal (@length byte)) in Hnil.
      rewrite length_firstn in Hnil. cbn [length] in Hnil. knorm. lia.
    + rewrite length_skipn. knorm.
      destruct (Nat.eqb_spec (length R) 0); [lia|].
      destruct (Nat.eqb_spec (length R - 1024 * 16) 0); lia.
    + rewrite length_firstn, length_skipn. cbn [length] in Hcond.
      unfold final_start in *. knorm.
      destruct (Nat.eqb_spec (length R) 0); [lia|].
      destruct (Nat.eqb_spec (length R - 1024 * 16) 0); lia.
  - set (N := b :: N0) in *.
    assert (HN : 0 < length N) by (unfold N; cbn; lia).
    destruct (decryptor_update_stream key iv A N) as [Hctx _].
    rewrite Hctx, (update_of_valid A N R HA).
    assert (Hle : length A + length N + length R = length P).
    { rewrite <- valid_ct_length, <- HA, !length_app. lia. }
    destruct (Nat.eqb_spec (length (firstn (BUFFER_SIZE * 16) R)) 0) as [Hend|Hmore].
    + (* the pending chunk is the last one *)
      assert (R = []) as ->.
      { apply length_zero_iff_nil. rewrite length_firstn in Hend. knorm. lia. }
      rewrite app_nil_r in HA. cbn [length] in *.
      unfold final_start in Hcond. cbn [Nat.eqb] in Hcond.
      unfold cipher_finalize, decryptor_after. cbn [ctx_buffer].
      rewrite HA. unfold CT at 1.
      rewrite split_blocks_aligned
        by (rewrite cbc_encrypt_length by exact Hiv; lia).
      rewrite app_nil_r.
      replace (16 * ((length A + length N) / 16)) with (length P) by lia.
      rewrite firstn_all.
      destruct (last_plaintext_slices (16 * (length A / 16))) as (Hf & Hb & Hs);
        [lia|].
      rewrite Hf, Hfe, Hb, Hs. unfold md5_update.
      rewrite skipn_nil. reflexivity.
    + (* more chunks follow *)
      rewrite length_firstn in Hmore.
      assert (HR : 0 < length R) by (knorm; lia).
      assert (Hfs : final_start (length A + length N)
                      (length (firstn (BUFFER_SIZE * 16) R))
                      (length (skipn (BUFFER_SIZE * 16) R))
                    = final_start (length A) (length N) (length R)).
      { rewrite length_firstn, length_skipn. unfold final_start. knorm.
        destruct (Nat.eqb_spec (length R) 0); [lia|].
        destruct (Nat.eqb_spec (length R - 1024 * 16) 0); lia. }
      assert (Hy : 16 * ((length A + length N) / 16) <= length Q).
      { unfold final_start in Hcond. knorm.
        destruct (Nat.eqb_spec (length R) 0); lia. }
      rewrite IH.
      * rewrite length_app. unfold md5_update. rewrite <- !app_assoc.
        replace (firstn (16 * ((length A + length N) / 16)) P)
          with (firstn (16 * ((length A + length N) / 16)) Q)
          by (unfold P; rewrite firstn_app;
              replace (16 * ((length A + length N) / 16) - length Q) with 0 by lia;
              rewrite firstn_0, app_nil_r; reflexivity).
        rewrite skipn_firstn_glue by lia.
        reflexivity.
      * rewrite <- app_assoc, firstn_skipn. exact HA.
      * left. intros Hnil. apply (f_equal (@length byte)) in Hnil.
        rewrite length_firstn in Hnil. cbn [length] in Hnil. knorm. lia.
      * rewrite length_skipn. knorm.
        destruct (Nat.eqb_spec (length R) 0); [lia|].
        destruct (Nat.eqb_spec (length R - 1024 * 16) 0); lia.
      * rewrite length_app, Hfs. exact Hcond.
Qed.

(** The other lengths: the last chunk holds less than padding and footer,
    and the loop fails on what it takes for them. *)
Lemma decrypt_loop_straddle (fuel : nat) (A N R s h out : bytes) :
  A ++ N ++ R = CT ->
  N <> [] \/ R <> [] ->
  (if length R =? 0 then 1 else length R / (BUFFER_SIZE * 16) + 2) <= fuel ->
  length P < 16 * (final_start (length A) (length N) (length R) / 16) + 64 ->
  decrypt_loop fuel 16 name (decryptor_after key iv A) s h N
    {| in_fd := R; out_fd := out |}
  = (Raise (if length P
               - 16 * (final_start (length A) (length N) (length R) / 16) <? 48
            then StructError else IndexError),
     {| in_fd := []; out_fd := out |}).
Proof.
  pose proof P_length as HP.
  assert (HalP : length P mod 16 = 0) by exact Hal.
  revert A N R s h.
  induction fuel as [|fuel IH]; intros A N R s h HA Hne Hfuel Hcond;
    [destruct (length R =? 0); lia|].
  rewrite decrypt_loop_S. cbn [in_fd out_fd]. cbv zeta.
  destruct N as [|b N0].
  - destruct Hne as [Hne|Hne]; [congruence|].
    assert (HR : 0 < length R) by (destruct R; [congruence | cbn; lia]).
    assert (Hfs : final_start (length A)
                    (length (firstn (BUFFER_SIZE * 16) R))
                    (length (skipn (BUFFER_SIZE * 16) R))
                  = final_start (length A) (length (@nil byte)) (length R)).
    { rewrite length_firstn, length_skipn. cbn [length].
      unfold final_start. knorm.
      destruct (Nat.eqb_spec (length R) 0); [lia|].
      destruct (Nat.eqb_spec (length R - 1024 * 16) 0); lia. }
    rewrite IH.
    + rewrite Hfs. reflexivity.
    + cbn [app] in *. rewrite firstn_skipn. exact HA.
    + left. intros Hnil. apply (f_equal (@length byte)) in Hnil.
      rewrite length_firstn in Hnil. cbn [length] in Hnil. knorm. lia.
    + rewrite length_skipn. knorm.
      destruct (Nat.eqb_spec (length R) 0); [lia|].
      destruct (Nat.eqb_spec (length R - 1024 * 16) 0); lia.
    + rewrite Hfs. exact Hcond.
  - set (N := b :: N0) in *.
    assert (HN : 0 < length N) by (unfold N; cbn; lia).
    destruct (decryptor_update_stream key iv A N) as [Hctx _].
    rewrite Hctx, (update_of_valid A N R HA).
    assert (Hle : length A + length N + length R = length P).
    { rewrite <- valid_ct_length, <- HA, !length_app. lia. }
    destruct (Nat.eqb_spec (length (firstn (BUFFER_SIZE * 16) R)) 0) as [Hend|Hmore].
    + assert (R = []) as ->.
      { apply length_zero_iff_nil. rewrite length_firstn in Hend. knorm. lia. }
      rewrite app_nil_r in HA. cbn [length] in *.
      unfold final_start in *. cbn [Nat.eqb] in *.
      unfold cipher_finalize, decryptor_after. cbn [ctx_buffer].
      rewrite HA. unfold CT at 1.
      rewrite split_blocks_aligned
        by (rewrite cbc_encrypt_length by exact Hiv; lia).
      rewrite app_nil_r.
      replace (16 * ((length A + length N) / 16)) with (length P) by lia.
      rewrite firstn_all.
      set (x := 16 * (length A / 16)) in *.
      assert (Hfp : length (skipn x P) = length P - x) by apply length_skipn.
      change (-48)%Z with (- Z.of_nat 48)%Z. rewrite slice_last by lia.
      rewrite Hfp.
      replace (length P - x - 48) with 0 by lia. cbn [skipn].
      destruct (Nat.ltb_spec (length P - x) 48) as [Hlt|Hge].
      * (* less than a footer *)
        unfold _unpack_footer, unpack_QIIi.
        change 16%Z with (Z.of_nat 16) at 1. change 36%Z with (Z.of_nat 36).
        rewrite slice_from_to, length_firstn, length_skipn, Hfp.
        destruct (Nat.eqb_spec (Nat.min (36 - 16) (length P - x - 16)) 20);
          [lia|].
        reflexivity.
      * (* a footer and nothing before it *)
        assert (Hx : x = length P - 48) by lia.
        assert (Hfoot : skipn x P = footer).
        { rewrite Hx, HP. unfold P. rewrite app_assoc.
          apply skipn_app_exact. rewrite length_app. lia. }
        rewrite Hfoot, Hfe.
        change (-49)%Z with (- Z.of_nat 49)%Z.
        rewrite slice_neg_neg by lia. rewrite Hfooter.
        reflexivity.
    + rewrite length_firstn in Hmore.
      assert (HR : 0 < length R) by (knorm; lia).
      assert (Hfs : final_start (length A + length N)
                      (length (firstn (BUFFER_SIZE * 16) R))
                      (length (skipn (BUFFER_SIZE * 16) R))
                    = final_start (length A) (length N) (length R)).
      { rewrite length_firstn, length_skipn. unfold final_start. knorm.
        destruct (Nat.eqb_spec (length R) 0); [lia|].
        destruct (Nat.eqb_spec (length R - 1024 * 16) 0); lia. }
      rewrite IH.
      * rewrite length_app, Hfs. reflexivity.
      * rewrite <- app_assoc, firstn_skipn. exact HA.
      * left. intros Hnil. apply (f_equal (@length byte)) in Hnil.
        rewrite length_firstn in Hnil. cbn [length] in Hnil. knorm. lia.
      * rewrite length_skipn. knorm.
        destruct (Nat.eqb_spec (length R) 0); [lia|].
        destruct (Nat.eqb_spec (length R - 1024 * 16) 0); lia.
      * rewrite length_app, Hfs. exact Hcond.
Qed.

End DecryptValid.


(** ** decrypt_fd on a container *)

Section DecryptFd.
Context `{Libs}.

Lemma land_255_range (flags : Z) : (0 <= Z.land flags 255 < 256)%Z.
Proof.
  change 255%Z with (Z.ones 8). rewrite Z.land_ones by lia.
  apply Z.mod_pos_bound. lia.
Qed.

Lemma header_length (flags : Z) (p : nat) (the_salt : bytes) :
  length the_salt = 12 -> length (header flags p the_salt) = 16.
Proof.
  intros Hs. unfold header. rewrite !length_app, be_encode_length, Hs.
  reflexivity.
Qed.

Lemma content_padding_repeat (n : nat) :
  content_padding n
  = repeat (byte_of_Z (Z.of_nat (length (content_padding n))))
      (length (content_padding n)).
Proof. rewrite content_padding_length. reflexivity. Qed.

Lemma bytes_eqb_eq (a b : bytes) : bytes_eqb a b = true <-> a = b.
Proof.
  revert b. induction a as [|x a IH]; intros [|y b]; cbn; split;
    try congruence; try discriminate.
  - intros Hab. apply andb_prop in Hab. destruct Hab as [Hxy Hab].
    apply Byte.byte_dec_bl in Hxy. apply IH in Hab. congruence.
  - intros [= -> ->]. apply andb_true_intro. split.
    + apply Byte.byte_dec_lb. reflexivity.
    + apply IH. reflexivity.
Qed.

(** The bytes [decrypt_fd] reads as the pathname region. *)
Lemma pathname_region_read (p : nat) :
  Z.to_nat (pathname_block_size 16 (Z.of_nat p))
  = if p mod 16 =? 0 then p else p + 16.
Proof.
  rewrite pathname_block_size_16 by lia.
  destruct (Z.eqb_spec (Z.of_nat p mod 16) 0) as [He|Hne];
    destruct (Nat.eqb_spec (p mod 16) 0) as [He'|Hne']; lia.
Qed.

(** Up to its loop, [decrypt_fd] on a container: the header is parsed,
    [p'] bytes are read for the pathname and the loop starts on the rest. *)
Lemma decrypt_fd_container_loop (fuel : nat) (self : Crypto) (flags : Z)
  (name the_salt body d : bytes) (sz ct mt md : Z) (out : bytes) :
  let p := length name in
  let p' := Z.to_nat (pathname_block_size 16 (Z.of_nat p)) in
  let key := fst (gen_key_and_iv self the_salt) in
  let iv := snd (gen_key_and_iv self the_salt) in
  let P := plain_stream name body d sz ct mt md in
  aes_key_size_ok (key_size self) = true ->
  length the_salt = 12 ->
  length d = 16 ->
  (Z.of_nat (length name) < 65536)%Z ->
  decrypt_fd fuel self
    {| in_fd := container self flags name the_salt body d sz ct mt md;
       out_fd := out |}
  = bind (decrypt_loop fuel 16 name
            (decryptor_after key iv (firstn p' (cbc_encrypt key iv P)))
            [] md5_new [])
      (fun '(file_entry, str_io, md5) =>
         decrypt_finish 16 (Z.land flags 255) the_salt file_entry str_io md5)
      {| in_fd := skipn p' (cbc_encrypt key iv P); out_fd := out |}.
Proof.
  intros p p' key iv P Hks Hsalt Hd Hname.
  pose proof (new_cipher_ok self the_salt Hks) as Hnc.
  destruct (gen_key_and_iv_lengths self the_salt) as [_ Hiv].
  change (block_size self) with 16 in Hiv.
  unfold container, decrypt_fd.
  change (block_size self) with 16.
  fold key iv in Hnc, Hiv |- *. fold P.
  set (hdr := header (Z.land flags 255) (length name) the_salt).
  assert (Hhdr : length hdr = 16) by (apply header_length; exact Hsalt).
  (* the header *)
  unfold bind at 1. cbn [fd_read in_fd out_fd].
  rewrite (firstn_app_exact 16) by exact Hhdr.
  rewrite (skipn_app_exact 16) by exact Hhdr.
  rewrite Hhdr. cbn [Nat.ltb Nat.leb].
  assert (Hparse :
    slice hdr None (Some 2%Z) = [byte_of_Z VERSION; byte_of_Z (Z.land flags 255)] /\
    slice hdr (Some 2%Z) (Some 4%Z) = be_encode 2 (Z.of_nat (length name)) /\
    slice hdr (Some 4%Z) None = the_salt).
  { unfold hdr, header.
    change 2%Z with (Z.of_nat 2). change 4%Z with (Z.of_nat 4).
    rewrite slice_to, slice_from_to, slice_from.
    split; [|split].
    - apply firstn_app_exact. reflexivity.
    - rewrite (skipn_app_exact 2) by reflexivity.
      apply firstn_app_exact. apply be_encode_length.
    - rewrite app_assoc. apply skipn_app_exact.
      rewrite length_app, be_encode_length. reflexivity. }
  destruct Hparse as (Hints & Hsize & Hslt).
  rewrite Hints, Hsize, Hslt. cbn [nth].
  rewrite !Z_of_byte_of_Z.
  change (VERSION mod 256)%Z with 1%Z. change (VERSION <? 1)%Z with false.
  cbv iota.
  unfold bind at 1. unfold unpack_H, unpack_unsigned.
  rewrite be_encode_length, be_decode_encode. cbn [Nat.eqb lift ret].
  change (256 ^ Z.of_nat 2)%Z with 65536%Z.
  rewrite (Z.mod_small (Z.of_nat (length name))) by lia.
  fold key. fold iv.
  replace (gen_key_and_iv self the_salt) with (key, iv)
    by (unfold key, iv; destruct (gen_key_and_iv self the_salt); reflexivity).
  unfold bind at 1. rewrite Hnc. cbn [lift ret].
  change (Z.of_nat 16) with 16%Z.
  (* the pathname region *)
  unfold bind at 1. cbn [fd_read in_fd out_fd].
  fold p in Hname |- *. fold p'.
  assert (Hp' : p' = if p mod 16 =? 0 then p else p + 16)
    by apply pathname_region_read.
  assert (HP : length P = p + length (pathname_padding p) + length body
                          + length (content_padding (length body)) + 48).
  { unfold P, plain_stream.
    rewrite !length_app, footer_layout_length, Hd, repeat_length.
    fold p. lia. }
  pose proof (plain_stream_aligned name body d sz ct mt md Hd) as HalP.
  fold P in HalP.
  pose proof (pathname_padding_length p) as Hnp.
  pose proof (content_padding_length (length body)) as Hcp.
  assert (HCT : length (cbc_encrypt key iv P) = length P).
  { rewrite cbc_encrypt_length by exact Hiv. lia. }
  assert (Hp'le : p' < length P).
  { rewrite Hp', HP, Hnp, Hcp. destruct (p mod 16 =? 0); lia. }
  assert (Hread : length (firstn p' (cbc_encrypt key iv P)) = p')
    by (rewrite length_firstn; lia).
  rewrite Hread.
  replace (Z.of_nat p' <? pathname_block_size 16 (Z.of_nat p))%Z with false.
  2:{ symmetry. apply Z.ltb_ge. unfold p'.
      rewrite pathname_block_size_16 by lia.
      destruct (Z.of_nat p mod 16 =? 0)%Z; lia. }
  change (encryptor_after key iv []) with (decryptor_after key iv []).
  set (A0 := firstn p' (cbc_encrypt key iv P)).
  set (R0 := skipn p' (cbc_encrypt key iv P)).
  destruct (decryptor_update_stream key iv [] A0) as [Hctx Hout].
  destruct (decryptor_update (decryptor_after key iv []) A0) as [plain dec1].
  cbn [fst snd app] in Hctx, Hout. subst dec1.
  rewrite (cbc_decrypt_short key iv []) in Hout by (cbn; lia).
  cbn [app] in Hout. subst plain.
  unfold A0 at 1. rewrite cbc_decrypt_prefix by assumption.
  set (Q := name ++ pathname_padding p ++ body).
  set (footer := footer_layout d sz ct mt md (repeat x00 12)).
  assert (HPQ : P = Q ++ content_padding (length body) ++ footer).
  { unfold P, plain_stream, Q, footer. fold p. rewrite <- !app_assoc. reflexivity. }
  assert (Hpp : 16 * (p' / 16) = p + length (pathname_padding p)).
  { rewrite Hp', Hnp. destruct (Nat.eqb_spec (p mod 16) 0); lia. }
  assert (Hnamepart : firstn (16 * (p' / 16)) P = name ++ pathname_padding p).
  { rewrite Hpp. unfold P, plain_stream. fold p. rewrite app_assoc.
    apply firstn_app_exact. rewrite length_app. reflexivity. }
  rewrite Hnamepart, slice_to.
  rewrite (firstn_app_exact p) by reflexivity.
  rewrite (Z.mod_small (Z.land flags 255)) by apply land_255_range.
  reflexivity.
Qed.

End DecryptFd.

(** Where the plaintext of the last chunk starts: [a] blocks of pathname,
    [rho] bytes read beyond them, [b] blocks of content, padding and footer. *)
Lemma last_chunk_start (a b rho : nat) :
  rho < 16 -> 1 <= b ->
  16 * ((16 * a + rho + (1024 * 16) * ((16 * b - rho - 1) / (1024 * 16))) / 16)
  = 16 * a + 16 * b
    - (if (16 * b) mod (1024 * 16) =? 0 then 1024 * 16 else (16 * b) mod (1024 * 16)).
Proof.
  intros Hrho Hb.
  set (q := b / 1024). set (u := b mod 1024).
  assert (Hbq : b = 1024 * q + u) by (unfold q, u; lia).
  assert (Hu : u < 1024) by (unfold u; lia).
  clearbody q u. subst b.
  assert (Hmod : (16 * (1024 * q + u)) mod (1024 * 16) = 16 * u).
  { symmetry. apply (Nat.mod_unique _ _ q); lia. }
  rewrite Hmod.
  destruct (Nat.eqb_spec (16 * u) 0) as [Hz|Hnz].
  - assert (u = 0) by lia. subst u.
    assert (Hq : 1 <= q) by lia.
    assert (Hdiv : (16 * (1024 * q + 0) - rho - 1) / (1024 * 16) = q - 1).
    { symmetry. apply (Nat.div_unique _ _ _ (1024 * 16 - rho - 1)); lia. }
    rewrite Hdiv.
    assert (Hd2 : (16 * a + rho + 1024 * 16 * (q - 1)) / 16 = a + 1024 * (q - 1)).
    { symmetry. apply (Nat.div_unique _ _ _ rho); lia. }
    rewrite Hd2. lia.
  - assert (Hdiv : (16 * (1024 * q + u) - rho - 1) / (1024 * 16) = q).
    { symmetry. apply (Nat.div_unique _ _ _ (16 * u - rho - 1)); lia. }
    rewrite Hdiv.
    assert (Hd2 : (16 * a + rho + 1024 * 16 * q) / 16 = a + 1024 * q).
    { symmetry. apply (Nat.div_unique _ _ _ rho); lia. }
    rewrite Hd2. lia.
Qed.

Section DecryptContainer.
Context `{Libs}.

(** [decrypt_fd] on a container that stores the digest [d]: for the
    content lengths of [footer_in_last_chunk] it recovers the content,
    checks the digest and only then writes; for the others the loop fails
    on its last chunk. *)
Lemma decrypt_fd_container (fuel : nat) (self : Crypto) (flags : Z)
  (name the_salt body d : bytes) (sz ct mt md : Z) (out : bytes) :
  aes_key_size_ok (key_size self) = true ->
  length the_salt = 12 ->
  length d = 16 ->
  (Z.of_nat (length name) < 65536)%Z ->
  (0 <= sz < 2 ^ 64)%Z -> (0 <= ct < 2 ^ 32)%Z ->
  (0 <= mt < 2 ^ 32)%Z -> (- 2 ^ 31 <= md < 2 ^ 31)%Z ->
  (length body + 64) / (BUFFER_SIZE * 16) + 2 <= fuel ->
  decrypt_fd fuel self
    {| in_fd := container self flags name the_salt body d sz ct mt md;
       out_fd := out |}
  = if footer_in_last_chunk (length body) then
      match (if compresses flags then zlib_decompress body else Some body) with
      | Some data =>
          if bytes_eqb d (md5 body) then
            (Return (set_salt (new_FileEntry name sz (PyInt ct) (PyInt mt) md (Some d) false)
                       the_salt),
             {| in_fd := []; out_fd := out ++ data |})
          else (Raise DigestMissMatch, {| in_fd := []; out_fd := out |})
      | None => (Raise ZlibError, {| in_fd := []; out_fd := out |})
      end
    else
      (Raise (if (length body + (16 - length body mod 16) + 48)
                   mod (BUFFER_SIZE * 16) <? 48
              then StructError else IndexError),
       {| in_fd := []; out_fd := out |}).
Proof.
  intros Hks Hsalt Hd Hname Hsz Hct Hmt Hmd Hfuel.
  rewrite decrypt_fd_container_loop by assumption.
  destruct (gen_key_and_iv_lengths self the_salt) as [_ Hiv].
  change (block_size self) with 16 in Hiv.
  set (key := fst (gen_key_and_iv self the_salt)) in *.
  set (iv := snd (gen_key_and_iv self the_salt)) in *.
  set (P := plain_stream name body d sz ct mt md).
  set (p := length name) in *.
  set (p' := Z.to_nat (pathname_block_size 16 (Z.of_nat p))).
  assert (Hp' : p' = if p mod 16 =? 0 then p else p + 16)
    by apply pathname_region_read.
  assert (HP : length P = p + length (pathname_padding p) + length body
                          + length (content_padding (length body)) + 48).
  { unfold P, plain_stream.
    rewrite !length_app, footer_layout_length, Hd, repeat_length.
    fold p. lia. }
  pose proof (plain_stream_aligned name body d sz ct mt md Hd) as HalP.
  fold P in HalP.
  pose proof (pathname_padding_length p) as Hnp.
  pose proof (content_padding_length (length body)) as Hcp.
  assert (HCT : length (cbc_encrypt key iv P) = length P).
  { rewrite cbc_encrypt_length by exact Hiv. lia. }
  assert (Hp'le : p' < length P).
  { rewrite Hp', HP, Hnp, Hcp. destruct (p mod 16 =? 0); lia. }
  set (A0 := firstn p' (cbc_encrypt key iv P)).
  set (R0 := skipn p' (cbc_encrypt key iv P)).
  assert (HA0 : length A0 = p') by (unfold A0; rewrite length_firstn; lia).
  assert (HR0 : length R0 = length P - p')
    by (unfold R0; rewrite length_skipn; lia).
  set (Q := name ++ pathname_padding p ++ body).
  set (footer := footer_layout d sz ct mt md (repeat x00 12)).
  assert (HPQ : P = Q ++ content_padding (length body) ++ footer).
  { unfold P, plain_stream, Q, footer. fold p. rewrite <- !app_assoc. reflexivity. }
  assert (Hpp : 16 * (p' / 16) = p + length (pathname_padding p)).
  { rewrite Hp', Hnp. destruct (Nat.eqb_spec (p mod 16) 0); lia. }
  assert (Hsplit : A0 ++ [] ++ R0 = cbc_encrypt key iv
                     (Q ++ content_padding (length body) ++ footer)).
  { rewrite <- HPQ. cbn [app]. apply firstn_skipn. }
  assert (Hrest : @nil byte <> [] \/ R0 <> []).
  { right. intros Hnil. rewrite Hnil in HR0. cbn [length] in HR0. lia. }
  assert (Hfuel' : (if length R0 =? 0 then 1
                    else length R0 / (BUFFER_SIZE * 16) + 2) <= fuel).
  { rewrite HR0. knorm.
    destruct (Nat.eqb_spec (length P - p') 0); [lia|].
    rewrite HP, Hp', Hnp, Hcp. destruct (Nat.eqb_spec (p mod 16) 0); lia. }
  assert (Hal : length (Q ++ content_padding (length body) ++ footer) mod 16 = 0)
    by (rewrite <- HPQ; exact HalP).
  assert (Hfl : length footer = 48).
  { unfold footer. rewrite footer_layout_length, Hd, repeat_length. reflexivity. }
  assert (Hpl : 1 <= length (content_padding (length body)) <= 16)
    by (rewrite Hcp; lia).
  assert (Hun : _unpack_footer name footer
                = Ok (new_FileEntry name sz (PyInt ct) (PyInt mt) md (Some d) false))
    by (unfold footer; apply unpack_footer_layout; assumption).
  (* the arithmetic of the last chunk *)
  assert (Hfs : exists a b,
            length P = 16 * a + 16 * b /\
            length body + (16 - length body mod 16) + 48 = 16 * b /\
            16 * (final_start p' 0 (length P - p') / 16)
            = 16 * a + 16 * b
              - (if (16 * b) mod (1024 * 16) =? 0 then 1024 * 16
                 else (16 * b) mod (1024 * 16))).
  { exists ((p + length (pathname_padding p)) / 16).
    exists ((length body + (16 - length body mod 16) + 48) / 16).
    set (a := (p + length (pathname_padding p)) / 16).
    set (b := (length body + (16 - length body mod 16) + 48) / 16).
    assert (Ha : p + length (pathname_padding p) = 16 * a).
    { unfold a. rewrite Hnp. destruct (Nat.eqb_spec (p mod 16) 0); lia. }
    assert (Hb : length body + (16 - length body mod 16) + 48 = 16 * b)
      by (unfold b; lia).
    assert (Hrho : exists rho, rho < 16 /\ p' = 16 * a + rho).
    { exists (p' - 16 * a). rewrite Hp'. rewrite Hnp in Ha.
      destruct (Nat.eqb_spec (p mod 16) 0); lia. }
    destruct Hrho as (rho & Hrho & Hp'a).
    assert (HPab : length P = 16 * a + 16 * b) by (rewrite HP, Hcp; lia).
    split; [exact HPab|]. split; [exact Hb|].
    unfold final_start. knorm.
    destruct (Nat.eqb_spec (length P - p') 0) as [Hz|_]; [lia|].
    replace (p' + 0 + 1024 * 16 * ((length P - p' - 1) / (1024 * 16)))
      with (16 * a + rho + 1024 * 16 * ((16 * b - rho - 1) / (1024 * 16))).
    - apply last_chunk_start; lia.
    - rewrite HPab, Hp'a.
      replace (16 * a + 16 * b - (16 * a + rho) - 1) with (16 * b - rho - 1) by lia.
      lia. }
  destruct Hfs as (a & b & HPab & Hb & Hfs).
  unfold footer_in_last_chunk.
  set (t := (length body + (16 - length body mod 16) + 48) mod (BUFFER_SIZE * 16)).
  assert (Ht : t = (16 * b) mod (1024 * 16)) by (unfold t; rewrite Hb; reflexivity).
  assert (Htb : t <= 16 * b /\ t < 1024 * 16).
  { rewrite Ht. clear. split; [apply Nat.Div0.mod_le | apply Nat.mod_upper_bound; lia]. }
  rewrite <- Ht in Hfs. clear Ht. clearbody t.
  assert (Hb4 : 4 <= b) by (clear - Hb; lia).
  cbv zeta.
  destruct ((t =? 0) || (64 <=? t)) eqn:Elast.
  - (* the footer is whole in the last chunk *)
    unfold bind.
    rewrite (decrypt_loop_valid key iv Q (content_padding (length body)) footer
               name (new_FileEntry name sz (PyInt ct) (PyInt mt) md (Some d) false)
               Hiv Hal Hfl Hpl (content_padding_repeat _) Hun
               fuel A0 [] R0 [] md5_new out Hsplit Hrest Hfuel').
    + rewrite HA0, Hpp. unfold md5_new, Q. cbn [app].
      rewrite app_assoc, skipn_app_exact by (rewrite length_app; reflexivity).
      unfold decrypt_finish.
      unfold bind at 1. fold (compresses flags).
      cbn [digest set_salt new_FileEntry].
      unfold md5_digest.
      change 16%Z with (Z.of_nat 16).
      rewrite slice_to, (firstn_all2 (n := 16)) by (rewrite md5_length; lia).
      destruct (bytes_eqb d (md5 body)); cbn [negb];
        destruct (compresses flags);
        try (destruct (zlib_decompress body) as [data|]); reflexivity.
    + rewrite <- HPQ, HA0, HR0. cbn [length]. rewrite Hfs, HPab.
      apply orb_prop in Elast. clear - Elast Htb Hb4.
      destruct Elast as [Hl|Hl];
        [apply Nat.eqb_eq in Hl; rewrite Hl; cbn [Nat.eqb]
        | apply Nat.leb_le in Hl; destruct (Nat.eqb_spec t 0)]; lia.
  - (* padding or footer lie across two chunks *)
    apply orb_false_elim in Elast. destruct Elast as [E1 E2].
    apply Nat.eqb_neq in E1. apply Nat.leb_gt in E2.
    unfold bind.
    rewrite (decrypt_loop_straddle key iv Q (content_padding (length body)) footer
               name (new_FileEntry name sz (PyInt ct) (PyInt mt) md (Some d) false)
               Hiv Hal Hfl Hpl Hun
               fuel A0 [] R0 [] md5_new out Hsplit Hrest Hfuel').
    + rewrite <- HPQ, HA0, HR0. cbn [length].
      replace (length P - 16 * (final_start p' 0 (length P - p') / 16)) with t;
        [reflexivity|].
      rewrite Hfs, HPab. clear - E1 E2 Htb Hb4.
      destruct (Nat.eqb_spec t 0); lia.
    + rewrite <- HPQ, HA0, HR0. cbn [length]. rewrite Hfs, HPab.
      clear - E1 E2 Htb Hb4.
      destruct (Nat.eqb_spec t 0); lia.
Qed.

End DecryptContainer.

(** ** decrypt_fd on any stream: the gates before the loop *)

Section DecryptGates.
Context `{Libs}.

Lemma decrypt_fd_short (fuel : nat) (self : Crypto) (s : fds) :
  length (in_fd s) < 16 ->
  decrypt_fd fuel self s
  = (Raise UnrecognizedContent, {| in_fd := []; out_fd := out_fd s |}).
Proof.
  intros Hlen. unfold decrypt_fd. change (block_size self) with 16.
  unfold bind at 1. cbn [fd_read].
  rewrite firstn_all2, skipn_all2 by lia.
  destruct (Nat.ltb_spec (length (in_fd s)) 16); [reflexivity | lia].
Qed.

(** The header as the slices of line 177 give it. *)
Lemma header_slices (stream : bytes) :
  16 <= length stream ->
  let line := firstn 16 stream in
  length line = 16 /\
  nth 0 (slice line None (Some 2%Z)) x00 = nth 0 stream x00 /\
  nth 1 (slice line None (Some 2%Z)) x00 = nth 1 stream x00 /\
  slice line (Some 2%Z) (Some 4%Z) = firstn 2 (skipn 2 stream) /\
  slice line (Some 4%Z) None = header_salt stream.
Proof.
  intros Hlen line.
  assert (Hl : length line = 16) by (unfold line; rewrite length_firstn; lia).
  split; [exact Hl|].
  change 2%Z with (Z.of_nat 2). change 4%Z with (Z.of_nat 4).
  rewrite slice_to, slice_from_to, slice_from.
  unfold line, header_salt.
  do 16 (destruct stream as [|? stream]; [cbn in Hlen; lia|]).
  cbn. repeat split; reflexivity.
Qed.

Lemma decrypt_fd_version (fuel : nat) (self : Crypto) (s : fds) :
  16 <= length (in_fd s) ->
  (VERSION < header_version (in_fd s))%Z ->
  decrypt_fd fuel self s
  = (Raise VersionNotCompatible,
     {| in_fd := skipn 16 (in_fd s); out_fd := out_fd s |}).
Proof.
  intros Hlen Hver. unfold decrypt_fd. change (block_size self) with 16.
  destruct (header_slices (in_fd s) Hlen) as (Hl & Hv & _).
  unfold bind at 1. cbn [fd_read]. rewrite Hl. cbn [Nat.ltb Nat.leb].
  rewrite Hv. fold (header_version (in_fd s)).
  destruct (Z.ltb_spec VERSION (header_version (in_fd s))); [reflexivity | lia].
Qed.

(** Past the two gates of the header: the cipher is set up, the pathname
    region is read with the declared size, and the loop starts on what
    follows it. *)
Lemma decrypt_fd_header (fuel : nat) (self : Crypto) (s : fds) :
  let stream := in_fd s in
  let psize := header_pathname_size stream in
  let key := fst (gen_key_and_iv self (header_salt stream)) in
  let iv := snd (gen_key_and_iv self (header_salt stream)) in
  let p' := Z.to_nat (pathname_block_size 16 psize) in
  let region := firstn p' (skipn 16 stream) in
  16 <= length stream ->
  (header_version stream <= VERSION)%Z ->
  decrypt_fd fuel self s
  = match new_cipher key iv with
    | Err e => (Raise e, {| in_fd := skipn 16 stream; out_fd := out_fd s |})
    | Ok decryptor =>
        if length (skipn 16 stream) <? p'
        then (Raise UnrecognizedContent, {| in_fd := []; out_fd := out_fd s |})
        else
          bind (decrypt_loop fuel 16
                  (slice (fst (decryptor_update decryptor region))
                     None (Some psize))
                  (snd (decryptor_update decryptor region))
                  [] md5_new [])
            (fun '(file_entry, str_io, md5) =>
               decrypt_finish 16 (header_flags stream) (header_salt stream)
                 file_entry str_io md5)
            {| in_fd := skipn p' (skipn 16 stream); out_fd := out_fd s |}
    end.
Proof.
  intros stream psize key iv p' region Hlen Hver.
  unfold decrypt_fd. change (block_size self) with 16.
  destruct (header_slices stream Hlen) as (Hl & Hv & Hf & Hsz & Hsl).
  fold stream.
  unfold bind at 1. cbn [fd_read in_fd out_fd]. fold stream.
  rewrite Hl. change (16 <? 16) with false. cbv iota.
  rewrite Hv, Hf, Hsz, Hsl.
  fold (header_version stream). fold (header_flags stream).
  destruct (Z.ltb_spec VERSION (header_version stream)) as [Hgt|_]; [lia|].
  unfold bind at 1. unfold unpack_H.
  assert (H2 : length (firstn 2 (skipn 2 stream)) = 2)
    by (rewrite length_firstn, length_skipn; lia).
  rewrite H2. cbn [Nat.eqb lift ret].
  unfold unpack_unsigned. fold (header_pathname_size stream). fold psize.
  replace (gen_key_and_iv self (header_salt stream)) with (key, iv)
    by (unfold key, iv; destruct (gen_key_and_iv self (header_salt stream));
        reflexivity).
  unfold bind at 1.
  destruct (new_cipher key iv) as [decryptor|e]; cbn [lift ret raise];
    [|reflexivity].
  change (Z.of_nat 16) with 16%Z. fold p'.
  unfold bind at 1. cbn [fd_read in_fd out_fd]. fold region.
  assert (Hps : (0 <= psize)%Z).
  { unfold psize, header_pathname_size.
    pose proof (be_decode_range (firstn 2 (skipn 2 stream))). lia. }
  assert (Hpbs : (0 <= pathname_block_size 16 psize)%Z).
  { rewrite pathname_block_size_16 by exact Hps.
    destruct (psize mod 16 =? 0)%Z; lia. }
  destruct (Nat.ltb_spec (length (skipn 16 stream)) p') as [Hshort|Hfull].
  - replace (Z.of_nat (length region) <? pathname_block_size 16 psize)%Z with true.
    + rewrite skipn_all2 by lia. reflexivity.
    + symmetry. apply Z.ltb_lt. unfold region. rewrite length_firstn. lia.
  - replace (Z.of_nat (length region) <? pathname_block_size 16 psize)%Z with false.
    + destruct (decryptor_update decryptor region) as [plain dec].
      reflexivity.
    + symmetry. apply Z.ltb_ge. unfold region. rewrite length_firstn. lia.
Qed.

Lemma new_cipher_error (key iv : bytes) (e : exn) :
  new_cipher key iv = Err e -> e = ValueError.
Proof.
  unfold new_cipher. destruct (andb _ _); [discriminate|].
  intros [= <-]. reflexivity.
Qed.

(** [decrypt_finish] writes only when it returns, and raises only the
    errors of decompression and of the digest check. *)
Lemma decrypt_finish_frame (flags : Z) (the_salt : bytes)
  (fe : FileEntry bytes) (str_io h : bytes) (s : fds) :
  forall e, fst (decrypt_finish 16 flags the_salt fe str_io h s) = Raise e ->
    (e = ZlibError \/ e = DigestMissMatch) /\
    snd (decrypt_finish 16 flags the_salt fe str_io h s) = s.
Proof.
  intros e. unfold decrypt_finish. unfold bind at 1.
  destruct (negb (Z.land flags COMPRESS =? 0)%Z).
  - destruct (zlib_decompress str_io) as [data|]; cbn [ret raise].
    + destruct (negb _); cbn; [intros [= <-]; auto | discriminate].
    + cbn. intros [= <-]. auto.
  - cbn [ret]. destruct (negb _); cbn; [intros [= <-]; auto | discriminate].
Qed.

(** Whatever the stream, a call that raises has written nothing, and
    raises [VersionNotCompatible] only at the version gate. *)
Lemma decrypt_fd_raise_frame (fuel : nat) (self : Crypto) (s : fds) (e : exn) :
  fst (decrypt_fd fuel self s) = Raise e ->
  out_fd (snd (decrypt_fd fuel self s)) = out_fd s /\
  (e = VersionNotCompatible ->
   16 <= length (in_fd s) /\ (VERSION < header_version (in_fd s))%Z).
Proof.
  destruct (Nat.lt_ge_cases (length (in_fd s)) 16) as [Hshort|Hlen].
  { rewrite decrypt_fd_short by exact Hshort. cbn.
    intros [= <-]. split; [reflexivity | discriminate]. }
  destruct (Z.lt_ge_cases VERSION (header_version (in_fd s))) as [Hgt|Hle].
  { rewrite decrypt_fd_version by assumption. cbn.
    intros _. split; [reflexivity | intros _; split; assumption]. }
  rewrite decrypt_fd_header by assumption. cbv zeta.
  destruct (new_cipher _ _) as [decryptor|e0] eqn:Enc.
  2:{ cbn. intros [= <-]. apply new_cipher_error in Enc. subst e0.
      split; [reflexivity | discriminate]. }
  destruct (length (skipn 16 (in_fd s)) <? _).
  { cbn. intros [= <-]. split; [reflexivity | discriminate]. }
  unfold bind.
  match goal with
  | |- context [decrypt_loop ?f ?b ?n ?d ?st ?h ?nc ?s0] =>
      destruct (decrypt_loop_frame f b n d st h nc s0) as [Hout Herr];
      destruct (decrypt_loop f b n d st h nc s0) as [[[[fe str] md] | e1 | ] s1]
  end; cbn [fst snd out_fd] in *.
  - intros Hfin.
    destruct (decrypt_finish_frame _ _ _ _ _ _ _ Hfin) as [[He|He] Hs];
      rewrite Hs, Hout; subst e; (split; [reflexivity | discriminate]).
  - intros [= <-]. split; [exact Hout|].
    destruct (Herr e1 eq_refl) as [->|[->| ->]]; discriminate.
  - discriminate.
Qed.

(** With nothing pending and nothing left to read, a turn of the loop
    changes nothing: the loop never ends. *)
Lemma decrypt_loop_spins (fuel : nat) (name : bytes) (decryptor : CipherContext)
  (str_io h out : bytes) :
  decrypt_loop fuel 16 name decryptor str_io h []
    {| in_fd := []; out_fd := out |}
  = (OutOfFuel, {| in_fd := []; out_fd := out |}).
Proof.
  induction fuel as [|fuel IH]; [reflexivity|].
  rewrite decrypt_loop_S. cbn [in_fd out_fd]. cbv zeta.
  rewrite firstn_nil, skipn_nil. exact IH.
Qed.

End DecryptGates.

(** ** The gates of decrypt_fd: version, truncation, the end of the stream *)

(** C8.  Version gate.  On a stream that supplies a header (16 bytes),
    [decrypt_fd] fails with [VersionNotCompatible] when the version byte
    (byte 0) exceeds [VERSION]: it has then read the 16 bytes of the header
    and nothing of the rest, and has written nothing; when the version byte
    is at most [VERSION] the call goes past the gate: whatever else happens,
    it does not fail with [VersionNotCompatible]. *)
Theorem version_gate `{Libs} (fuel : nat) (self : Crypto) (s : fds) :
  16 <= length (in_fd s) ->
  ((VERSION < header_version (in_fd s))%Z ->
   decrypt_fd fuel self s
   = (Raise VersionNotCompatible,
      {| in_fd := skipn 16 (in_fd s); out_fd := out_fd s |})) /\
  ((header_version (in_fd s) <= VERSION)%Z ->
   fst (decrypt_fd fuel self s) <> Raise VersionNotCompatible).
Proof.
  intros Hlen. split.
  - intros Hver. apply decrypt_fd_version; assumption.
  - intros Hver Hraise.
    destruct (decrypt_fd_raise_frame fuel self s _ Hraise) as [_ Hgate].
    destruct (Hgate eq_refl) as [_ Hgt]. lia.
Qed.

(** C9.  Truncation.  A stream with fewer than 16 bytes for the header, or,
    past the version gate of an engine with an AES key size, with fewer bytes
    after the header than the pathname block size [decrypt_fd] computes from
    the declared pathname size, makes [decrypt_fd] fail with
    [UnrecognizedContent], whatever the fuel: the loop is not reached, the
    call neither fails otherwise nor runs on, and nothing is written. *)
Theorem truncation_unrecognized `{Libs} (fuel : nat) (self : Crypto) (s : fds) :
  length (in_fd s) < 16 \/
  (16 <= length (in_fd s) /\
   (header_version (in_fd s) <= VERSION)%Z /\
   aes_key_size_ok (key_size self) = true /\
   length (in_fd s) - 16
   < Z.to_nat (pathname_block_size 16 (header_pathname_size (in_fd s)))) ->
  decrypt_fd fuel self s
  = (Raise UnrecognizedContent, {| in_fd := []; out_fd := out_fd s |}).
Proof.
  intros [Hshort | (Hlen & Hver & Hks & Hregion)].
  - apply decrypt_fd_short, Hshort.
  - rewrite decrypt_fd_header by assumption. cbv zeta.
    rewrite new_cipher_ok by exact Hks.
    rewrite length_skipn.
    destruct (Nat.ltb_spec (length (in_fd s) - 16)
                (Z.to_nat (pathname_block_size 16 (header_pathname_size (in_fd s)))));
      [reflexivity | lia].
Qed.

(** C10.  A stream that ends with the bytes [decrypt_fd] reads as the
    pathname region (past the version gate, with an AES key size) makes the
    loop spin: the first read of the content region is empty, nothing is
    ever pending, [finished] is never set.  For every amount of fuel the call
    is still in the loop when the fuel is spent: it neither returns nor
    raises. *)
Theorem empty_content_region_hangs `{Libs} (fuel : nat) (self : Crypto) (s : fds) :
  16 <= length (in_fd s) ->
  (header_version (in_fd s) <= VERSION)%Z ->
  aes_key_size_ok (key_size self) = true ->
  length (in_fd s)
  = 16 + Z.to_nat (pathname_block_size 16 (header_pathname_size (in_fd s))) ->
  decrypt_fd fuel self s = (OutOfFuel, {| in_fd := []; out_fd := out_fd s |}).
Proof.
  intros Hlen Hver Hks Hend.
  rewrite decrypt_fd_header by assumption. cbv zeta.
  rewrite new_cipher_ok by exact Hks.
  rewrite length_skipn.
  destruct (Nat.ltb_spec (length (in_fd s) - 16)
              (Z.to_nat (pathname_block_size 16 (header_pathname_size (in_fd s)))));
    [lia|].
  rewrite (skipn_all2 (n := Z.to_nat _)) by (rewrite length_skipn; lia).
  unfold bind. rewrite decrypt_loop_spins. reflexivity.
Qed.

(** ** Encryption followed by decryption *)

Section RoundTrip.
Context `{Libs} `{Host}.

Lemma effective_salt_length (fe : FileEntry text) :
  salt_ok fe = true -> length (effective_salt fe) = 12.
Proof.
  unfold salt_ok, effective_salt. destruct (salt fe) as [s|].
  - intros Hs. apply Nat.eqb_eq, Hs.
  - intros _. apply os_urandom_length.
Qed.

(** Encryption and decryption with any flags; [body] is the content as it
    is stored, compressed or not. *)
Lemma roundtrip_flags (fuel : nat) (self : Crypto)
  (file_entry : option (FileEntry text)) (flags : Z)
  (content out out' name : bytes) :
  let fe := effective_entry file_entry in
  let body := if compresses flags then zlib_compress content else content in
  let c := container self flags name (effective_salt fe) body (md5 body)
             (size fe) (seconds (ctime fe)) (seconds (mtime fe)) (mode fe) in
  aes_key_size_ok (key_size self) = true ->
  numbers_ok fe = true ->
  salt_ok fe = true ->
  encode_utf8 (pathname fe) = Ok name ->
  (Z.of_nat (length name) < 65536)%Z ->
  footer_in_last_chunk (length body) = true ->
  (length body + 64) / (BUFFER_SIZE * 16) + 2 <= fuel ->
  encrypt_fd fuel self file_entry flags {| in_fd := content; out_fd := out |}
  = (Return (set_digest (set_salt fe (effective_salt fe)) (md5 body)),
     {| in_fd := []; out_fd := out ++ c |}) /\
  decrypt_fd fuel self {| in_fd := c; out_fd := out' |}
  = (Return (recovered_entry fe name body),
     {| in_fd := []; out_fd := out' ++ content |}).
Proof.
  intros fe body c Hks Hnum Hsalt Henc Hname Hlast Hfuel.
  destruct (numbers_ok_inv fe Hnum) as (Hs & Hci & Hc & Hmi & Hm & Hmo).
  split.
  - apply encrypt_fd_container; try assumption.
    fold body. knorm. lia.
  - unfold c. rewrite decrypt_fd_container; try assumption.
    + rewrite Hlast.
      replace (bytes_eqb (md5 body) (md5 body)) with true
        by (symmetry; apply bytes_eqb_eq; reflexivity).
      unfold body. destruct (compresses flags).
      * rewrite zlib_decompress_compress. reflexivity.
      * reflexivity.
    + apply effective_salt_length, Hsalt.
    + apply md5_length.
Qed.

(** The other content lengths: encryption succeeds as well, and decryption
    of what it wrote fails in the loop. *)
Lemma straddle_flags (fuel : nat) (self : Crypto)
  (file_entry : option (FileEntry text)) (content out out' name : bytes) :
  let fe := effective_entry file_entry in
  let n := length content in
  let c := container self 0 name (effective_salt fe) content (md5 content)
             (size fe) (seconds (ctime fe)) (seconds (mtime fe)) (mode fe) in
  aes_key_size_ok (key_size self) = true ->
  numbers_ok fe = true ->
  salt_ok fe = true ->
  encode_utf8 (pathname fe) = Ok name ->
  (Z.of_nat (length name) < 65536)%Z ->
  footer_in_last_chunk n = false ->
  (n + 64) / (BUFFER_SIZE * 16) + 2 <= fuel ->
  encrypt_fd fuel self file_entry 0 {| in_fd := content; out_fd := out |}
  = (Return (set_digest (set_salt fe (effective_salt fe)) (md5 content)),
     {| in_fd := []; out_fd := out ++ c |}) /\
  decrypt_fd fuel self {| in_fd := c; out_fd := out' |}
  = (Raise (if (n + (16 - n mod 16) + 48) mod (BUFFER_SIZE * 16) <? 48
            then StructError else IndexError),
     {| in_fd := []; out_fd := out' |}).
Proof.
  intros fe n c Hks Hnum Hsalt Henc Hname Hlast Hfuel.
  destruct (numbers_ok_inv fe Hnum) as (Hs & Hci & Hc & Hmi & Hm & Hmo).
  split.
  - apply (encrypt_fd_container fuel self file_entry 0 content out name);
      try assumption.
    change (compresses 0) with false. cbv iota.
    unfold n in Hfuel. clear - Hfuel. knorm. lia.
  - unfold c. rewrite decrypt_fd_container; try assumption.
    + fold n. rewrite Hlast. reflexivity.
    + apply effective_salt_length, Hsalt.
    + apply md5_length.
Qed.

Lemma compresses_0 : compresses 0 = false.
Proof. reflexivity. Qed.

End RoundTrip.

(** ** The content lengths the lookahead loop cannot decrypt

    The loop of [decrypt_fd] takes the footer and the byte of the padding
    length from the plaintext of the last chunk it read (lines 211-215).
    When content, padding and footer fill whole chunks of 16384 bytes and
    16, 32 or 48 bytes more, the last chunk holds less than the 49 bytes
    the loop looks for. *)

Lemma straddling_content_length :
  length Sample.straddling_content = 16 * 1021.
Proof. apply repeat_length. Qed.

Lemma straddling_content_fuel (fuel : nat) :
  (length Sample.straddling_content + 64) / (BUFFER_SIZE * 16) + 2 <= 3 + fuel.
Proof.
  rewrite straddling_content_length.
  apply Nat.le_trans with 3; [|lia].
  apply Nat.leb_le. vm_compute. reflexivity.
Qed.

Lemma straddling_content_last_chunk :
  footer_in_last_chunk (length Sample.straddling_content) = false.
Proof. rewrite straddling_content_length. vm_compute. reflexivity. Qed.

Lemma straddling_content_error :
  ((length Sample.straddling_content
    + (16 - length Sample.straddling_content mod 16) + 48)
     mod (BUFFER_SIZE * 16) <? 48) = true.
Proof. rewrite straddling_content_length. vm_compute. reflexivity. Qed.

(** C1, at an input on which the code departs from it.  For the content of
    16336 bytes "a", the entry named "aé" and the password "pw",
    [encrypt_fd] returns and writes a container, and [decrypt_fd] on that
    container does not give the content back: it raises [struct.error] and
    writes nothing (content, padding and footer take 16400 bytes, the last
    chunk read holds the last 16 of them, and the footer is looked for in
    that chunk). *)
Theorem roundtrip_fails_across_chunks `{Libs} `{Host} (fuel : nat)
  (out out' : bytes) :
  let content := Sample.straddling_content in
  length content = 16 * 1021 /\
  exists c,
    encrypt_fd (3 + fuel) Sample.self (Some Sample.entry) 0
      {| in_fd := content; out_fd := out |}
    = (Return (set_digest (set_salt Sample.entry (os_urandom 12)) (md5 content)),
       {| in_fd := []; out_fd := out ++ c |}) /\
    decrypt_fd (3 + fuel) Sample.self {| in_fd := c; out_fd := out' |}
    = (Raise StructError, {| in_fd := []; out_fd := out' |}).
Proof.
  intros content. split; [apply straddling_content_length|].
  destruct (straddle_flags (3 + fuel) Sample.self (Some Sample.entry)
              content out out' Sample.name
              eq_refl eq_refl eq_refl eq_refl eq_refl
              straddling_content_last_chunk (straddling_content_fuel fuel))
    as [He Hd].
  eexists. split; [exact He|].
  rewrite Hd. unfold content. rewrite straddling_content_error.
  reflexivity.
Qed.

(** C5, at an input on which the code departs from it.  The content of
    16336 bytes "a" has a length that is a multiple of the block size:
    [encrypt_fd] gives it a full block of padding, 16 bytes of value 16,
    before the footer; [decrypt_fd] on that container does not strip the
    padding: the byte before the 48-byte footer is not in the chunk the loop
    holds, and the call raises [struct.error]. *)
Theorem full_pad_block_not_stripped `{Libs} `{Host} (fuel : nat)
  (out out' : bytes) :
  let content := Sample.straddling_content in
  let key := fst (gen_key_and_iv Sample.self (os_urandom 12)) in
  let iv := snd (gen_key_and_iv Sample.self (os_urandom 12)) in
  length content mod 16 = 0 /\
  exists footer c,
    length footer = 48 /\
    c = header 0 3 (os_urandom 12)
          ++ cbc_encrypt key iv
               (Sample.name ++ repeat x00 13
                  ++ content ++ repeat x10 16 ++ footer) /\
    encrypt_fd (3 + fuel) Sample.self (Some Sample.entry) 0
      {| in_fd := content; out_fd := out |}
    = (Return (set_digest (set_salt Sample.entry (os_urandom 12)) (md5 content)),
       {| in_fd := []; out_fd := out ++ c |}) /\
    decrypt_fd (3 + fuel) Sample.self {| in_fd := c; out_fd := out' |}
    = (Raise StructError, {| in_fd := []; out_fd := out' |}).
Proof.
  intros content key iv.
  split; [unfold content; rewrite straddling_content_length; reflexivity|].
  destruct (straddle_flags (3 + fuel) Sample.self (Some Sample.entry)
              content out out' Sample.name
              eq_refl eq_refl eq_refl eq_refl eq_refl
              straddling_content_last_chunk (straddling_content_fuel fuel))
    as [He Hd].
  exists (footer_layout (md5 content) 2 1446336000 1446336001 420
            (repeat x00 12)).
  eexists.
  split; [rewrite footer_layout_length, md5_length, repeat_length; reflexivity|].
  split; [|split; [exact He|]].
  - unfold container, plain_stream, key, iv.
    cbn [effective_entry effective_salt Sample.entry salt size ctime mtime mode].
    unfold content at 2. rewrite straddling_content_length.
    change (content_padding (16 * 1021)) with (repeat x10 16).
    reflexivity.
  - rewrite Hd. unfold content. rewrite straddling_content_error.
    reflexivity.
Qed.

(** ** The empty pathname *)

(** C7, as amended.  An empty pathname is legal and takes no room in the
    container: [encrypt_fd] writes the header, with pathname size 0, and
    right after it the encryption of content, padding and footer, no block
    of padding for the pathname; and, for an engine with an AES key size, an
    entry whose numbers fit the footer and whose salt is absent or 12 bytes
    long, and a content whose length keeps padding and footer within the
    last chunk the loop of [decrypt_fd] reads, [decrypt_fd] recovers the
    empty pathname from it. *)
Theorem empty_pathname `{Libs} `{Host} (fuel : nat) (self : Crypto)
  (file_entry : option (FileEntry text)) (content out out' : bytes) :
  let fe := effective_entry file_entry in
  let key := fst (gen_key_and_iv self (effective_salt fe)) in
  let iv := snd (gen_key_and_iv self (effective_salt fe)) in
  pathname fe = [] ->
  aes_key_size_ok (key_size self) = true ->
  numbers_ok fe = true ->
  salt_ok fe = true ->
  footer_in_last_chunk (length content) = true ->
  (length content + 64) / (BUFFER_SIZE * 16) + 2 <= fuel ->
  exists c,
    c = header 0 0 (effective_salt fe)
          ++ cbc_encrypt key iv
               (content ++ content_padding (length content)
                  ++ footer_layout (md5 content) (size fe)
                       (seconds (ctime fe)) (seconds (mtime fe))
                       (mode fe) (repeat x00 12)) /\
    length c = 16 + (length content + (16 - length content mod 16) + 48) /\
    encrypt_fd fuel self file_entry 0 {| in_fd := content; out_fd := out |}
    = (Return (set_digest (set_salt fe (effective_salt fe)) (md5 content)),
       {| in_fd := []; out_fd := out ++ c |}) /\
    decrypt_fd fuel self {| in_fd := c; out_fd := out' |}
    = (Return (recovered_entry fe [] content),
       {| in_fd := []; out_fd := out' ++ content |}).
Proof.
  intros fe key iv Hempty Hks Hnum Hsalt Hlast Hfuel.
  assert (Henc : encode_utf8 (pathname fe) = Ok []) by (rewrite Hempty; reflexivity).
  assert (Hname : (Z.of_nat (length (@nil byte)) < 65536)%Z) by (cbn; lia).
  destruct (roundtrip_flags fuel self file_entry 0 content out out' []
              Hks Hnum Hsalt Henc Hname Hlast Hfuel) as [He Hd].
  exists (container self 0 [] (effective_salt fe) content (md5 content)
            (size fe) (seconds (ctime fe)) (seconds (mtime fe)) (mode fe)).
  split; [reflexivity|].
  split; [|split; assumption].
  unfold container, plain_stream. cbn [length pathname_padding app].
  destruct (gen_key_and_iv_lengths self (effective_salt fe)) as [_ Hiv].
  rewrite length_app, header_length by (apply effective_salt_length, Hsalt).
  rewrite cbc_encrypt_length by exact Hiv.
  rewrite !length_app, content_padding_length, footer_layout_length,
    md5_length, repeat_length.
  change (length (pathname_padding 0)) with 0. lia.
Qed.

(** ** The digest check and the sink *)

(** C2, as amended.  On a container (AES key size, salt of 12 bytes, stored
    digest of 16 bytes, pathname of at most 65535 bytes, footer numbers
    within their fields) whose content length keeps padding and footer
    within the last chunk the loop reads: when the digest stored in the
    footer differs from the digest of the recovered (stored) content,
    [decrypt_fd] fails, with [DigestMissMatch], or, when the flags ask for
    decompression and the recovered content does not decompress, with the
    error of zlib, which comes before the comparison; and at that point
    nothing has been written to the sink: the recovered content is held in
    the in-memory buffer and the write comes after the comparison.  More
    generally no call of [decrypt_fd] that raises has written anything. *)
Theorem digest_mismatch `{Libs} (fuel : nat) (self : Crypto) (flags : Z)
  (name the_salt body d : bytes) (sz ct mt md : Z) (out : bytes) :
  aes_key_size_ok (key_size self) = true ->
  length the_salt = 12 ->
  length d = 16 ->
  (Z.of_nat (length name) < 65536)%Z ->
  (0 <= sz < 2 ^ 64)%Z -> (0 <= ct < 2 ^ 32)%Z ->
  (0 <= mt < 2 ^ 32)%Z -> (- 2 ^ 31 <= md < 2 ^ 31)%Z ->
  footer_in_last_chunk (length body) = true ->
  (length body + 64) / (BUFFER_SIZE * 16) + 2 <= fuel ->
  d <> md5 body ->
  decrypt_fd fuel self
    {| in_fd := container self flags name the_salt body d sz ct mt md;
       out_fd := out |}
  = (Raise (match (if compresses flags then zlib_decompress body
                   else Some body) with
            | Some _ => DigestMissMatch
            | None => ZlibError
            end),
     {| in_fd := []; out_fd := out |}) /\
  forall s e,
    fst (decrypt_fd fuel self s) = Raise e ->
    out_fd (snd (decrypt_fd fuel self s)) = out_fd s.
Proof.
  intros Hks Hsalt Hd Hname Hsz Hct Hmt Hmd Hlast Hfuel Hne.
  split.
  - rewrite decrypt_fd_container by assumption.
    rewrite Hlast.
    destruct (if compresses flags then zlib_decompress body else Some body)
      as [data|]; [|reflexivity].
    destruct (bytes_eqb d (md5 body)) eqn:E; [|reflexivity].
    apply bytes_eqb_eq in E. congruence.
  - intros s e Hraise. apply (decrypt_fd_raise_frame fuel self s e Hraise).
Qed.

(** ** The pathname that does not fit its length field *)

Lemma encode_utf8_letters (n : nat) :
  encode_utf8 (repeat 0x61%N n) = Ok (repeat x61 n).
Proof.
  induction n as [|n IH]; [reflexivity|].
  cbn [repeat encode_utf8].
  change (utf8_encode_char 97) with (@Ok bytes [x61]).
  cbn [rbind]. rewrite IH. reflexivity.
Qed.

Section PathnameOverflow.
Context `{Libs} `{Host}.

(** A pathname of 65536 or more encoded bytes is cut to 65536 bytes, one
    more than the length field holds: packing the length fails, after the
    version and flags bytes are written. *)
Lemma encrypt_fd_pathname_overflow (fuel : nat) (self : Crypto)
  (file_entry : option (FileEntry text)) (flags : Z) (content out enc : bytes) :
  aes_key_size_ok (key_size self) = true ->
  encode_utf8 (pathname (effective_entry file_entry)) = Ok enc ->
  (65536 <= Z.of_nat (length enc))%Z ->
  encrypt_fd fuel self file_entry flags {| in_fd := content; out_fd := out |}
  = (Raise StructError,
     {| in_fd := content;
        out_fd := out ++ [byte_of_Z VERSION; byte_of_Z (Z.land flags 255)] |}).
Proof.
  intros Hks Henc Hlen.
  unfold encrypt_fd. fold (effective_entry file_entry).
  set (fe := effective_entry file_entry) in *.
  change (block_size self) with 16. change (16 - 4) with 12.
  set (fe' := match salt fe with
              | None => set_salt fe (os_urandom 12)
              | Some _ => fe
              end).
  assert (Hpath : pathname fe' = pathname fe)
    by (unfold fe'; destruct (salt fe); reflexivity).
  set (the_salt := match salt fe' with Some s => s | None => [] end).
  pose proof (new_cipher_ok self the_salt Hks) as Hnc.
  destruct (gen_key_and_iv self the_salt) as [key iv]. cbn [fst snd] in Hnc.
  unfold bind at 1. rewrite Hnc. cbn [lift ret].
  unfold bind at 1. rewrite Hpath, Henc. cbn [lift ret].
  change (2 ^ 16)%Z with (Z.of_nat (16 * 4096)).
  rewrite slice_to.
  assert (Hcut : length (firstn (16 * 4096) enc) = 16 * 4096)
    by (rewrite length_firstn; lia).
  rewrite Hcut.
  unfold bind at 1. rewrite (pack_B_byte VERSION) by (unfold VERSION; lia).
  cbn [lift ret].
  unfold bind at 1.
  rewrite (pack_B_byte (Z.land flags 255)) by apply land_255_range.
  cbn [lift ret].
  unfold bind at 1. cbn [fd_write in_fd out_fd].
  unfold bind at 1. unfold pack_H, pack_unsigned.
  rewrite Nat2Z.inj_mul.
  change (Z.of_nat 16 * Z.of_nat 4096)%Z with 65536%Z.
  reflexivity.
Qed.

End PathnameOverflow.

(** C6, at the input on which the code departs from it.  For the entry
    whose pathname is 65536 letters "a" (65536 bytes of UTF-8), [encrypt_fd]
    does not succeed: the cut at [2**16] leaves 65536 bytes, whose length
    [pack(b'!H', ...)] refuses; the call raises [struct.error] with the two
    bytes of version and flags written. *)
Theorem long_pathname_fails `{Libs} `{Host} (fuel : nat) (content out : bytes) :
  encode_utf8 (pathname Sample.long_named) = Ok (repeat x61 (16 * 4096)) /\
  encrypt_fd fuel Sample.self (Some Sample.long_named) 0
    {| in_fd := content; out_fd := out |}
  = (Raise StructError, {| in_fd := content; out_fd := out ++ [x01; x00] |}).
Proof.
  split; [apply encode_utf8_letters|].
  apply (encrypt_fd_pathname_overflow fuel Sample.self (Some Sample.long_named) 0
           content out (repeat x61 (16 * 4096))).
  - reflexivity.
  - apply encode_utf8_letters.
  - rewrite repeat_length. lia.
Qed.


(** ** The statements on sample inputs *)

(** On the sample container whose footer stores a digest of zero bytes, the
    content b"hi" is recovered and the digests differ, yet the sink is empty
    when [DigestMissMatch] is raised. *)
Lemma digest_mismatch_counterexample :
  @decrypt_fd toy_libs 2 Sample.self
    {| in_fd := @container toy_libs Sample.self 0 Sample.name Sample.the_salt
                  Sample.content (repeat x00 16) 2 1446336000 1446336001 420;
       out_fd := [] |}
  = (Raise DigestMissMatch, {| in_fd := []; out_fd := [] |}) /\
  @decrypt_fd toy_libs 2 Sample.self
    {| in_fd := @container toy_libs Sample.self 0 Sample.name Sample.the_salt
                  Sample.content (Toy.md5 Sample.content)
                  2 1446336000 1446336001 420;
       out_fd := [] |}
  = (Return {| pathname := Sample.name; size := 2; ctime := PyInt 1446336000;
               mtime := PyInt 1446336001; mode := 420;
               digest := Some (Toy.md5 Sample.content); isdir := false;
               salt := Some Sample.the_salt |},
     {| in_fd := []; out_fd := Sample.content |}).
Proof. split; vm_compute; reflexivity. Qed.

(** The same container, and one with the compression flag set whose stored
    content b"hi" is no output of the compressor. *)
Lemma digest_mismatch_witness :
  @decrypt_fd toy_libs 2 Sample.self
    {| in_fd := @container toy_libs Sample.self 0 Sample.name Sample.the_salt
                  Sample.content (repeat x00 16) 2 1446336000 1446336001 420;
       out_fd := [x2e] |}
  = (Raise DigestMissMatch, {| in_fd := []; out_fd := [x2e] |}) /\
  @decrypt_fd toy_libs 2 Sample.self
    {| in_fd := @container toy_libs Sample.self 1 Sample.name Sample.the_salt
                  Sample.content (repeat x00 16) 2 1446336000 1446336001 420;
       out_fd := [x2e] |}
  = (Raise ZlibError, {| in_fd := []; out_fd := [x2e] |}).
Proof.
  split.
  - apply (@digest_mismatch toy_libs 2 Sample.self 0 Sample.name Sample.the_salt
             Sample.content (repeat x00 16) 2 1446336000 1446336001 420 [x2e]);
      try reflexivity; try (split; [discriminate | reflexivity]);
      discriminate.
  - apply (@digest_mismatch toy_libs 2 Sample.self 1 Sample.name Sample.the_salt
             Sample.content (repeat x00 16) 2 1446336000 1446336001 420 [x2e]);
      try reflexivity; try (split; [discriminate | reflexivity]);
      discriminate.
Defined.

(** With an empty pathname and an empty content the container has 80 bytes:
    header (16), one block of content padding (16) and footer (48); a block
    of pathname padding would make it 96. *)
Lemma empty_pathname_counterexample :
  pathname_padding 0 = [] /\
  length (out_fd (snd (@encrypt_fd toy_libs toy_host 2 Sample.self
                         (Some Sample.unnamed) 0
                         {| in_fd := []; out_fd := [] |})))
  = 16 + 0 + 16 + 48.
Proof. split; vm_compute; reflexivity. Qed.

Lemma empty_pathname_witness :
  exists c,
    length c = 16 + (length Sample.content + (16 - length Sample.content mod 16) + 48) /\
    @encrypt_fd toy_libs toy_host 2 Sample.self (Some Sample.unnamed) 0
      {| in_fd := Sample.content; out_fd := [] |}
    = (Return (set_digest (set_salt Sample.unnamed (repeat x2a 12))
                 (Toy.md5 Sample.content)),
       {| in_fd := []; out_fd := [] ++ c |}) /\
    @decrypt_fd toy_libs 2 Sample.self {| in_fd := c; out_fd := [] |}
    = (Return (@recovered_entry toy_libs toy_host Sample.unnamed [] Sample.content),
       {| in_fd := []; out_fd := [] ++ Sample.content |}).
Proof.
  destruct (@empty_pathname toy_libs toy_host 2 Sample.self (Some Sample.unnamed)
              Sample.content [] [])
    as (c & _ & Hlen & He & Hd); try reflexivity.
  exists c. split; [exact Hlen | split; [exact He | exact Hd]].
Defined.

(** An entry with the times of [os.stat]: the footer of the entry whose
    mtime is 1446336001.75 unpacks to an entry whose mtime is 1446336001;
    and an entry whose size is 2^64 has no footer. *)
Lemma footer_codec_counterexample :
  (exists footer fe',
     _build_footer Sample.stat_entry = Ok footer /\
     length footer = 48 /\
     _unpack_footer Sample.name footer = Ok fe' /\
     mtime fe' = PyInt 1446336001 /\
     mtime fe' <> mtime Sample.stat_entry) /\
  _build_footer
    {| pathname := Sample.name; size := 2 ^ 64; ctime := PyInt 0;
       mtime := PyInt 0; mode := 0; digest := Some (repeat x07 16);
       isdir := false; salt := None |}
  = Err StructError.
Proof.
  split; [|reflexivity].
  eexists. eexists.
  split; [vm_compute; reflexivity|].
  split; [reflexivity|].
  split; [vm_compute; reflexivity|].
  split; [reflexivity | discriminate].
Qed.

Lemma footer_codec_witness :
  exists d footer,
    digest Sample.stat_entry = Some d /\
    _build_footer Sample.stat_entry = Ok footer /\
    length footer = 48 /\
    _unpack_footer [x62] footer
    = Ok (new_FileEntry [x62] 2 (PyInt 1446336000) (PyInt 1446336001) 420
            (Some d) false).
Proof.
  destruct (footer_codec Sample.stat_entry eq_refl)
    as (d & ct & mt & footer & Hd & Hci & Hmi & _ & _ & Hb & _ & _ & Hl & Hu).
  injection Hci as <-. injection Hmi as <-.
  exists d, footer.
  split; [exact Hd | split; [exact Hb | split; [exact Hl | apply Hu]]].
Defined.

(** A header with version 2. *)
Lemma version_gate_witness :
  @decrypt_fd toy_libs 5 Sample.self
    {| in_fd := x02 :: repeat x00 15 ++ [x41; x42]; out_fd := [] |}
  = (Raise VersionNotCompatible, {| in_fd := [x41; x42]; out_fd := [] |}).
Proof.
  apply (proj1 (@version_gate toy_libs 5 Sample.self
                  {| in_fd := x02 :: repeat x00 15 ++ [x41; x42]; out_fd := [] |}
                  (proj1 (Nat.leb_le 16 18) eq_refl))).
  reflexivity.
Defined.

(** A header that declares a pathname of 5 bytes, followed by 4 bytes. *)
Lemma truncation_witness :
  @decrypt_fd toy_libs 5 Sample.self
    {| in_fd := [x01; x00; x00; x05] ++ repeat x2a 12 ++ [x41; x42; x43; x44];
       out_fd := [] |}
  = (Raise UnrecognizedContent, {| in_fd := []; out_fd := [] |}).
Proof.
  apply (@truncation_unrecognized toy_libs 5 Sample.self
           {| in_fd := [x01; x00; x00; x05] ++ repeat x2a 12 ++ [x41; x42; x43; x44];
              out_fd := [] |}).
  right. split; [apply Nat.leb_le; reflexivity|].
  split; [discriminate|].
  split; [reflexivity|].
  apply Nat.ltb_lt. vm_compute. reflexivity.
Defined.

(** A header that declares an empty pathname, and nothing after it. *)
Lemma empty_content_region_witness :
  @decrypt_fd toy_libs 1000 Sample.self
    {| in_fd := [x01; x00; x00; x00] ++ repeat x2a 12; out_fd := [] |}
  = (OutOfFuel, {| in_fd := []; out_fd := [] |}).
Proof.
  apply (@empty_content_region_hangs toy_libs 1000 Sample.self
           {| in_fd := [x01; x00; x00; x00] ++ repeat x2a 12; out_fd := [] |}).
  - apply Nat.leb_le. reflexivity.
  - discriminate.
  - reflexivity.
  - vm_compute. reflexivity.
Defined.

(** * Further properties of the engine *)

(** ** Every content length the lookahead loop cannot decrypt *)

(** When content, padding and footer leave a last chunk of 16, 32 or 48
    bytes, [encrypt_fd] succeeds and [decrypt_fd] fails on what it wrote:
    with [struct.error] when the last chunk is shorter than the footer, with
    [IndexError] when it is the footer alone; nothing is written. *)
Theorem straddling_footer_fails `{Libs} `{Host} (fuel : nat) (self : Crypto)
  (file_entry : option (FileEntry text)) (content out out' name : bytes) :
  let fe := effective_entry file_entry in
  let n := length content in
  aes_key_size_ok (key_size self) = true ->
  numbers_ok fe = true ->
  salt_ok fe = true ->
  encode_utf8 (pathname fe) = Ok name ->
  (Z.of_nat (length name) < 65536)%Z ->
  footer_in_last_chunk n = false ->
  (n + 64) / (BUFFER_SIZE * 16) + 2 <= fuel ->
  exists c,
    encrypt_fd fuel self file_entry 0 {| in_fd := content; out_fd := out |}
    = (Return (set_digest (set_salt fe (effective_salt fe)) (md5 content)),
       {| in_fd := []; out_fd := out ++ c |}) /\
    decrypt_fd fuel self {| in_fd := c; out_fd := out' |}
    = (Raise (if (n + (16 - n mod 16) + 48) mod (BUFFER_SIZE * 16) <? 48
              then StructError else IndexError),
       {| in_fd := []; out_fd := out' |}).
Proof.
  intros fe n Hks Hnum Hsalt Henc Hname Hlast Hfuel.
  eexists.
  exact (straddle_flags fuel self file_entry content out out' name
           Hks Hnum Hsalt Henc Hname Hlast Hfuel).
Qed.

Lemma straddling_footer_witness :
  exists c,
    @encrypt_fd toy_libs toy_host 3 Sample.self (Some Sample.entry) 0
      {| in_fd := Sample.straddling_content; out_fd := [] |}
    = (Return (set_digest (set_salt Sample.entry (repeat x2a 12))
                 (Toy.md5 Sample.straddling_content)),
       {| in_fd := []; out_fd := [] ++ c |}) /\
    @decrypt_fd toy_libs 3 Sample.self {| in_fd := c; out_fd := [] |}
    = (Raise StructError, {| in_fd := []; out_fd := [] |}).
Proof.
  apply (@straddling_footer_fails toy_libs toy_host 3 Sample.self
           (Some Sample.entry) Sample.straddling_content [] [] Sample.name);
    reflexivity.
Defined.

(** ** Compression *)



(** ** The shape of a container *)

(** What [encrypt_fd] writes has 16 bytes of header, the pathname rounded up
    to whole blocks, the content with its 1 to 16 bytes of padding, and 48
    bytes of footer: a multiple of 16 bytes in all. *)
Theorem container_size `{Libs} `{Host} (fuel : nat) (self : Crypto)
  (file_entry : option (FileEntry text)) (content out name : bytes) :
  let fe := effective_entry file_entry in
  aes_key_size_ok (key_size self) = true ->
  numbers_ok fe = true ->
  salt_ok fe = true ->
  encode_utf8 (pathname fe) = Ok name ->
  (Z.of_nat (length name) < 65536)%Z ->
  length content / (BUFFER_SIZE * 16) + 2 <= fuel ->
  exists c,
    encrypt_fd fuel self file_entry 0 {| in_fd := content; out_fd := out |}
    = (Return (set_digest (set_salt fe (effective_salt fe)) (md5 content)),
       {| in_fd := []; out_fd := out ++ c |}) /\
    length c
    = 16 + 16 * ((length name + 15) / 16) + 16 * (length content / 16 + 1) + 48.
Proof.
  intros fe Hks Hnum Hsalt Henc Hname Hfuel.
  exists (container self 0 name (effective_salt fe) content (md5 content)
            (size fe) (seconds (ctime fe)) (seconds (mtime fe)) (mode fe)).
  split.
  - apply (encrypt_fd_container fuel self file_entry 0 content out name);
      assumption.
  - unfold container.
    destruct (gen_key_and_iv_lengths self (effective_salt fe)) as [_ Hiv].
    rewrite length_app, header_length by (apply effective_salt_length, Hsalt).
    rewrite cbc_encrypt_length by exact Hiv.
    pose proof (plain_stream_aligned name content (md5 content)
                  (size fe) (seconds (ctime fe)) (seconds (mtime fe)) (mode fe) (md5_length _)) as Hal.
    assert (HP : length (plain_stream name content (md5 content)
                           (size fe) (seconds (ctime fe)) (seconds (mtime fe)) (mode fe))
                 = length name + length (pathname_padding (length name))
                   + length content + (16 - length content mod 16) + 48).
    { unfold plain_stream.
      rewrite !length_app, footer_layout_length, md5_length, repeat_length,
        content_padding_length. lia. }
    rewrite HP in *. rewrite pathname_padding_length in *.
    clear - Hal. destruct (Nat.eqb_spec (length name mod 16) 0); lia.
Qed.

Lemma container_size_witness :
  exists c,
    @encrypt_fd toy_libs toy_host 2 Sample.self (Some Sample.entry) 0
      {| in_fd := Sample.content; out_fd := [] |}
    = (Return (set_digest (set_salt Sample.entry (repeat x2a 12))
                 (Toy.md5 Sample.content)),
       {| in_fd := []; out_fd := [] ++ c |}) /\
    length c = 16 + 16 + 16 + 48.
Proof.
  apply (@container_size toy_libs toy_host 2 Sample.self (Some Sample.entry)
           Sample.content [] Sample.name);
    reflexivity.
Defined.

(** The header [encrypt_fd] writes reads back, with the parse of
    [decrypt_fd], as version 1, the flags masked to 8 bits, the length of
    the encoded pathname and the salt. *)
Theorem header_roundtrip `{Libs} `{Host} (fuel : nat) (self : Crypto)
  (file_entry : option (FileEntry text)) (flags : Z) (content out name : bytes) :
  let fe := effective_entry file_entry in
  let body := if compresses flags then zlib_compress content else content in
  aes_key_size_ok (key_size self) = true ->
  numbers_ok fe = true ->
  salt_ok fe = true ->
  encode_utf8 (pathname fe) = Ok name ->
  (Z.of_nat (length name) < 65536)%Z ->
  length body / (BUFFER_SIZE * 16) + 2 <= fuel ->
  exists c,
    out_fd (snd (encrypt_fd fuel self file_entry flags
                   {| in_fd := content; out_fd := out |})) = out ++ c /\
    header_version c = VERSION /\
    header_flags c = Z.land flags 255 /\
    header_pathname_size c = Z.of_nat (length name) /\
    header_salt c = effective_salt fe.
Proof.
  intros fe body Hks Hnum Hsalt Henc Hname Hfuel.
  exists (container self flags name (effective_salt fe) body (md5 body)
            (size fe) (seconds (ctime fe)) (seconds (mtime fe)) (mode fe)).
  split.
  - rewrite (encrypt_fd_container fuel self file_entry flags content out name)
      by assumption.
    reflexivity.
  - pose proof (effective_salt_length fe Hsalt) as Hsl.
    unfold container, header, header_version, header_flags,
      header_pathname_size, header_salt.
    cbn [app nth skipn].
    rewrite !Z_of_byte_of_Z.
    split; [reflexivity|].
    split; [apply Z.mod_small, land_255_range|].
    rewrite <- !app_assoc.
    rewrite (firstn_app_exact 2) by apply be_encode_length.
    split.
    + rewrite be_decode_encode. apply Z.mod_small.
      change (256 ^ Z.of_nat 2)%Z with 65536%Z. lia.
    + pose proof (be_encode_length 2 (Z.of_nat (length name))) as Hbe.
      destruct (be_encode 2 (Z.of_nat (length name))) as [|b0 [|b1 [|? ?]]];
        try discriminate.
      cbn [app skipn]. apply firstn_app_exact, Hsl.
Qed.

Lemma header_roundtrip_witness :
  exists c,
    out_fd (snd (@encrypt_fd toy_libs toy_host 2 Sample.self (Some Sample.entry)
                   257 {| in_fd := Sample.content; out_fd := [] |})) = [] ++ c /\
    header_version c = 1%Z /\
    header_flags c = 1%Z /\
    header_pathname_size c = 3%Z /\
    header_salt c = repeat x2a 12.
Proof.
  apply (@header_roundtrip toy_libs toy_host 2 Sample.self (Some Sample.entry)
           257 Sample.content [] Sample.name);
    reflexivity.
Defined.

(** ** The pathname region as decrypt_fd reads it *)

(** For a declared pathname size that is no multiple of 16 the block size
    [decrypt_fd] computes is the size plus 16, not the size rounded up: the
    read takes [size mod 16] bytes more than the padded pathname
    [encrypt_fd] wrote, out of the content region. *)
Theorem pathname_region_over_read (p : nat) :
  let region := Z.to_nat (pathname_block_size 16 (Z.of_nat p)) in
  region = p + (if p mod 16 =? 0 then 0 else 16) /\
  region = p + length (pathname_padding p) + p mod 16.
Proof.
  cbv zeta. rewrite pathname_region_read, pathname_padding_length.
  destruct (Nat.eqb_spec (p mod 16) 0); lia.
Qed.

(** ** Failures of encrypt_fd *)

Lemma build_footer_bad_number {P} (fe : FileEntry P) (d : bytes) :
  digest fe = Some d -> numbers_ok fe = false ->
  exists e, _build_footer fe = Err e /\
    (e = StructError \/ e = ValueError \/ e = OverflowError).
Proof.
  intros Hd Hnum. unfold _build_footer, pack_Q, pack_I, pack_i,
    pack_unsigned, pack_signed.
  rewrite Hd. unfold numbers_ok, time_ok in Hnum.
  change (256 ^ Z.of_nat 8)%Z with (2 ^ 64)%Z.
  change (256 ^ Z.of_nat 4)%Z with (2 ^ 32)%Z.
  change (2 ^ 32 / 2)%Z with (2 ^ 31)%Z.
  assert (Hint : forall x e, py_int x = Err e -> e = ValueError \/ e = OverflowError).
  { intros [z|[s|s| |s m e0]] e; cbn; intros [= <-]; auto. }
  destruct ((0 <=? size fe)%Z && (size fe <? 2 ^ 64)%Z);
    [|exists StructError; auto].
  cbn [andb rbind].
  destruct (py_int (ctime fe)) as [ct|e] eqn:Ec; cbn [rbind];
    [|exists e; split; [reflexivity | right; exact (Hint _ _ Ec)]].
  destruct ((0 <=? ct)%Z && (ct <? 2 ^ 32)%Z);
    [|exists StructError; auto].
  cbn [andb rbind].
  destruct (py_int (mtime fe)) as [mt|e] eqn:Em; cbn [rbind];
    [|exists e; split; [reflexivity | right; exact (Hint _ _ Em)]].
  destruct ((0 <=? mt)%Z && (mt <? 2 ^ 32)%Z);
    [|exists StructError; auto].
  cbn [andb rbind].
  destruct ((- 2 ^ 31 <=? mode fe)%Z && (mode fe <? 2 ^ 31)%Z);
    [discriminate | exists StructError; auto].
Qed.

Section EncryptFailures.
Context `{Libs} `{Host}.

(** Up to the footer, whatever the numbers of the entry. *)
Lemma encrypt_fd_footer_error (fuel : nat) (self : Crypto)
  (file_entry : option (FileEntry text)) (flags : Z)
  (content out name : bytes) (e : exn) :
  let fe := effective_entry file_entry in
  let the_salt := effective_salt fe in
  let body := if compresses flags then zlib_compress content else content in
  aes_key_size_ok (key_size self) = true ->
  encode_utf8 (pathname fe) = Ok name ->
  (Z.of_nat (length name) < 65536)%Z ->
  length body / (BUFFER_SIZE * 16) + 2 <= fuel ->
  _build_footer (set_digest (set_salt fe the_salt) (md5 body)) = Err e ->
  encrypt_fd fuel self file_entry flags {| in_fd := content; out_fd := out |}
  = (Raise e,
     {| in_fd := [];
        out_fd := out ++ header (Z.land flags 255) (length name) the_salt
                    ++ cbc_encrypt (fst (gen_key_and_iv self the_salt))
                         (snd (gen_key_and_iv self the_salt))
                         (name ++ pathname_padding (length name)
                            ++ body ++ content_padding (length body)) |}).
Proof.
  intros fe the_salt body Hks Henc Hname Hfuel Hfoot.
  unfold encrypt_fd. fold (effective_entry file_entry). fold fe.
  change (block_size self) with 16. change (16 - 4) with 12.
  assert (Hsalt : match salt (match salt fe with
                              | None => set_salt fe (os_urandom 12)
                              | Some _ => fe
                              end) with
                  | Some s => s | None => []
                  end = the_salt).
  { unfold the_salt, effective_salt. destruct (salt fe) eqn:E; [rewrite E|];
      reflexivity. }
  rewrite Hsalt.
  assert (Hfe : match salt fe with
                | None => set_salt fe (os_urandom 12)
                | Some _ => fe
                end = set_salt fe the_salt).
  { unfold the_salt, effective_salt. destruct fe as [p s c m mo d i [sl|]];
      reflexivity. }
  rewrite Hfe. clear Hsalt Hfe.
  pose proof (new_cipher_ok self the_salt Hks) as Hnc.
  destruct (gen_key_and_iv self the_salt) as [key iv]. cbn [fst snd] in *.
  unfold bind at 1. rewrite Hnc. cbn [lift ret].
  unfold bind at 1. cbn [pathname set_salt]. rewrite Henc. cbn [lift ret].
  change (2 ^ 16)%Z with (Z.of_nat (16 * 4096)).
  rewrite slice_to, firstn_all2 by lia.
  replace (if negb (length name mod 16 =? 0)
           then repeat x00 (16 - length name mod 16) else [])
    with (pathname_padding (length name))
    by (unfold pathname_padding; destruct (length name mod 16 =? 0); reflexivity).
  unfold bind at 1. rewrite (pack_B_byte VERSION) by (unfold VERSION; lia).
  cbn [lift ret].
  unfold bind at 1.
  rewrite (pack_B_byte (Z.land flags 255)) by apply land_255_range.
  cbn [lift ret].
  unfold bind at 1. cbn [fd_write in_fd out_fd].
  unfold bind at 1. rewrite pack_H_short by lia. cbn [lift ret].
  unfold bind at 1. cbn [fd_write in_fd out_fd].
  unfold bind at 1. cbn [fd_write in_fd out_fd].
  destruct (encryptor_update_stream key iv [] (name ++ pathname_padding (length name)))
    as [Hctx Hout].
  destruct (encryptor_update (encryptor_after key iv [])
              (name ++ pathname_padding (length name))) as [ct1 enc1].
  cbn [fst snd app] in Hctx, Hout. subst enc1.
  rewrite (cbc_encrypt_short key iv []) in Hout by (cbn; lia).
  cbn [app] in Hout. subst ct1.
  unfold bind at 1. cbn [fd_write in_fd out_fd].
  set (hdr := ((out ++ [byte_of_Z VERSION] ++ [byte_of_Z (Z.land flags 255)])
                 ++ be_encode 2 (Z.of_nat (length name))) ++ the_salt).
  assert (Hhdr : hdr = out ++ header (Z.land flags 255) (length name) the_salt).
  { unfold hdr, header. rewrite <- !app_assoc. reflexivity. }
  unfold bind at 1.
  assert (Hstage :
    (if negb (Z.land (Z.land flags 255) COMPRESS =? 0)%Z
     then bind fd_read_all (fun data => fd_rebind (zlib_compress data))
     else ret tt)
      {| in_fd := content;
         out_fd := hdr ++ cbc_encrypt key iv (name ++ pathname_padding (length name)) |}
    = (Return tt,
       {| in_fd := body;
          out_fd := hdr ++ cbc_encrypt key iv (name ++ pathname_padding (length name)) |})).
  { unfold body, compresses.
    destruct (negb (Z.land (Z.land flags 255) COMPRESS =? 0)%Z); reflexivity. }
  rewrite Hstage. clear Hstage.
  unfold bind at 1.
  rewrite encrypt_loop_content
    by (destruct (length body =? 0); lia).
  unfold md5_new, md5_digest. cbn [app].
  unfold bind at 1. rewrite Hfoot. cbn [lift raise].
  rewrite Hhdr, <- !app_assoc. reflexivity.
Qed.

(** A pathname that does not encode stops the call before anything is read
    or written. *)
Lemma encrypt_fd_encode_error (fuel : nat) (self : Crypto)
  (file_entry : option (FileEntry text)) (flags : Z) (content out : bytes)
  (e : exn) :
  aes_key_size_ok (key_size self) = true ->
  encode_utf8 (pathname (effective_entry file_entry)) = Err e ->
  encrypt_fd fuel self file_entry flags {| in_fd := content; out_fd := out |}
  = (Raise e, {| in_fd := content; out_fd := out |}).
Proof.
  intros Hks Henc.
  unfold encrypt_fd. fold (effective_entry file_entry).
  set (fe := effective_entry file_entry) in *.
  change (block_size self) with 16. change (16 - 4) with 12.
  set (fe' := match salt fe with
              | None => set_salt fe (os_urandom 12)
              | Some _ => fe
              end).
  assert (Hpath : pathname fe' = pathname fe)
    by (unfold fe'; destruct (salt fe); reflexivity).
  set (the_salt := match salt fe' with Some s => s | None => [] end).
  pose proof (new_cipher_ok self the_salt Hks) as Hnc.
  destruct (gen_key_and_iv self the_salt) as [key iv]. cbn [fst snd] in Hnc.
  unfold bind at 1. rewrite Hnc. cbn [lift ret].
  unfold bind at 1. rewrite Hpath, Henc. reflexivity.
Qed.

End EncryptFailures.

(** A size, time or mode that the footer cannot hold is noticed only when
    the footer is packed: [encrypt_fd] raises ([struct.error] for a number
    outside its field, [ValueError] or [OverflowError] for a time that is
    nan or infinite) after the header, the pathname and the whole content
    with its padding have been written, and the sink holds a container
    without footer. *)
Theorem bad_number_fails_late `{Libs} `{Host} (fuel : nat) (self : Crypto)
  (file_entry : option (FileEntry text)) (flags : Z)
  (content out name : bytes) :
  let fe := effective_entry file_entry in
  let the_salt := effective_salt fe in
  let body := if compresses flags then zlib_compress content else content in
  aes_key_size_ok (key_size self) = true ->
  numbers_ok fe = false ->
  encode_utf8 (pathname fe) = Ok name ->
  (Z.of_nat (length name) < 65536)%Z ->
  length body / (BUFFER_SIZE * 16) + 2 <= fuel ->
  exists e,
    (e = StructError \/ e = ValueError \/ e = OverflowError) /\
    encrypt_fd fuel self file_entry flags {| in_fd := content; out_fd := out |}
    = (Raise e,
       {| in_fd := [];
          out_fd := out ++ header (Z.land flags 255) (length name) the_salt
                      ++ cbc_encrypt (fst (gen_key_and_iv self the_salt))
                           (snd (gen_key_and_iv self the_salt))
                           (name ++ pathname_padding (length name)
                              ++ body ++ content_padding (length body)) |}).
Proof.
  intros fe the_salt body Hks Hnum Henc Hname Hfuel.
  destruct (build_footer_bad_number
              (set_digest (set_salt fe the_salt) (md5 body)) (md5 body)
              eq_refl Hnum) as (e & Hfoot & He).
  exists e. split; [exact He|].
  apply encrypt_fd_footer_error; assumption.
Qed.

Lemma bad_number_witness :
  exists e,
    (e = StructError \/ e = ValueError \/ e = OverflowError) /\
    @encrypt_fd toy_libs toy_host 2 Sample.self
      (Some {| pathname := []; size := 0; ctime := PyFloat S754_nan;
               mtime := PyInt 0; mode := 0;
               digest := None; isdir := false; salt := None |})
      0 {| in_fd := Sample.content; out_fd := [] |}
    = (Raise e,
       {| in_fd := [];
          out_fd := [] ++ header (Z.land 0 255) (length (@nil byte)) (Toy.urandom 12)
                      ++ @cbc_encrypt toy_libs
                           (fst (@gen_key_and_iv toy_libs Sample.self (Toy.urandom 12)))
                           (snd (@gen_key_and_iv toy_libs Sample.self (Toy.urandom 12)))
                           ([] ++ pathname_padding (length (@nil byte))
                              ++ Sample.content
                              ++ content_padding (length Sample.content)) |}).
Proof.
  apply (@bad_number_fails_late toy_libs toy_host 2 Sample.self
           (Some {| pathname := []; size := 0; ctime := PyFloat S754_nan;
                    mtime := PyInt 0; mode := 0;
                    digest := None; isdir := false; salt := None |})
           0 Sample.content [] []);
    reflexivity.
Defined.

(** A pathname that cannot be encoded as UTF-8 (a lone surrogate) makes
    [encrypt_fd] raise [UnicodeEncodeError] with nothing read and nothing
    written. *)
Theorem unencodable_pathname_fails_early `{Libs} `{Host} (fuel : nat) (self : Crypto)
  (fe : FileEntry text) (flags : Z) (content out : bytes) :
  aes_key_size_ok (key_size self) = true ->
  Exists (fun c => (0xD800 <= c <= 0xDFFF)%N) (pathname fe) ->
  encrypt_fd fuel self (Some fe) flags {| in_fd := content; out_fd := out |}
  = (Raise UnicodeEncodeError, {| in_fd := content; out_fd := out |}).
Proof.
  intros Hks Hsur.
  apply encrypt_fd_encode_error; [exact Hks|].
  cbn [effective_entry].
  induction (pathname fe) as [|c s IH]; [inversion Hsur|].
  cbn [encode_utf8].
  destruct (utf8_encode_char c) as [b|e] eqn:Ec.
  - cbn [rbind]. inversion Hsur as [? ? Hc | ? ? Hs]; subst.
    + exfalso. unfold utf8_encode_char in Ec.
      destruct (N.ltb_spec c 128); [lia|].
      destruct (N.ltb_spec c 2048); [lia|].
      destruct (N.ltb_spec c 65536); [|lia].
      destruct (N.leb_spec 55296 c); [|lia].
      destruct (N.leb_spec c 57343); [|lia].
      discriminate.
    + rewrite (IH Hs). reflexivity.
  - cbn [rbind]. f_equal. unfold utf8_encode_char in Ec.
    repeat match type of Ec with
           | context [if ?b then _ else _] => destruct b
           end; congruence.
Qed.

Lemma unencodable_pathname_witness :
  @encrypt_fd toy_libs toy_host 2 Sample.self
    (Some {| pathname := [0x61; 0xD800]%N; size := 0; ctime := PyInt 0; mtime := PyInt 0;
             mode := 0; digest := None; isdir := false; salt := None |})
    0 {| in_fd := Sample.content; out_fd := [] |}
  = (Raise UnicodeEncodeError, {| in_fd := Sample.content; out_fd := [] |}).
Proof.
  apply (@unencodable_pathname_fails_early toy_libs toy_host 2 Sample.self).
  - reflexivity.
  - apply Exists_cons_tl, Exists_cons_hd. split; discriminate.
Defined.

(** ** The footer, read back *)

Lemma byte_of_Z_add_mul (v k : Z) : byte_of_Z (v + k * 256) = byte_of_Z v.
Proof.
  unfold byte_of_Z. rewrite Z.mod_add by lia. reflexivity.
Qed.

Lemma be_encode_shift (n : nat) (v k : Z) :
  be_encode n (v + k * 256 ^ Z.of_nat n) = be_encode n v.
Proof.
  revert v k. induction n as [|n IH]; intros v k; [reflexivity|].
  cbn [be_encode].
  rewrite Nat2Z.inj_succ, Z.pow_succ_r by lia.
  replace (v + k * (256 * 256 ^ Z.of_nat n))%Z
    with (v + (k * 256 ^ Z.of_nat n) * 256)%Z by lia.
  rewrite Z.div_add, byte_of_Z_add_mul, IH by lia.
  reflexivity.
Qed.

Lemma be_encode_decode (l : bytes) : be_encode (length l) (be_decode l) = l.
Proof.
  induction l as [|b l IH] using rev_ind; [reflexivity|].
  rewrite length_app, Nat.add_1_r. cbn [length be_encode].
  rewrite be_decode_snoc.
  pose proof (Z_of_byte_range b) as Hb.
  rewrite Z.div_add_l, (Z.div_small (Z_of_byte b)), Z.add_0_r, IH by lia.
  rewrite Z.add_comm, byte_of_Z_add_mul, byte_of_Z_of_byte.
  reflexivity.
Qed.

Lemma be_encode_unpack_signed (l : bytes) :
  be_encode (length l) (unpack_signed l) = l.
Proof.
  unfold unpack_signed. cbv zeta.
  destruct (be_decode l <? 256 ^ Z.of_nat (length l) / 2)%Z.
  - apply be_encode_decode.
  - replace (be_decode l - 256 ^ Z.of_nat (length l))%Z
      with (be_decode l + (-1) * 256 ^ Z.of_nat (length l))%Z by lia.
    rewrite be_encode_shift. apply be_encode_decode.
Qed.

Lemma unpack_signed_range (l : bytes) :
  0 < length l ->
  (- (256 ^ Z.of_nat (length l) / 2) <= unpack_signed l
   < 256 ^ Z.of_nat (length l) / 2)%Z.
Proof.
  intros Hl. unfold unpack_signed. cbv zeta.
  pose proof (be_decode_range l) as Hr.
  assert (Hev : (256 ^ Z.of_nat (length l)
                 = 2 * (256 ^ Z.of_nat (length l) / 2))%Z).
  { destruct (length l) as [|n]; [lia|].
    rewrite Nat2Z.inj_succ, Z.pow_succ_r by lia.
    replace (256 * 256 ^ Z.of_nat n)%Z with ((128 * 256 ^ Z.of_nat n) * 2)%Z by lia.
    rewrite Z.div_mul by lia. lia. }
  destruct (Z.ltb_spec (be_decode l) (256 ^ Z.of_nat (length l) / 2)); lia.
Qed.

(** Any 36 bytes are the start of a footer. *)
Lemma footer_layout_of_bytes (footer : bytes) :
  36 <= length footer ->
  exists d q c m mo rest,
    footer = d ++ q ++ c ++ m ++ mo ++ rest /\
    length d = 16 /\ length q = 8 /\ length c = 4 /\ length m = 4 /\
    length mo = 4 /\
    firstn 16 footer = d /\
    firstn 36 footer = d ++ q ++ c ++ m ++ mo.
Proof.
  intros Hlen.
  set (d := firstn 16 footer). set (r1 := skipn 16 footer).
  set (q := firstn 8 r1). set (r2 := skipn 8 r1).
  set (c := firstn 4 r2). set (r3 := skipn 4 r2).
  set (m := firstn 4 r3). set (r4 := skipn 4 r3).
  set (mo := firstn 4 r4). set (rest := skipn 4 r4).
  assert (H1 : length r1 = length footer - 16) by apply length_skipn.
  assert (H2 : length r2 = length footer - 24)
    by (unfold r2; rewrite length_skipn; lia).
  assert (H3 : length r3 = length footer - 28)
    by (unfold r3; rewrite length_skipn; lia).
  assert (H4 : length r4 = length footer - 32)
    by (unfold r4; rewrite length_skipn; lia).
  assert (Hd : length d = 16) by (unfold d; rewrite length_firstn; lia).
  assert (Hq : length q = 8) by (unfold q; rewrite length_firstn; lia).
  assert (Hc : length c = 4) by (unfold c; rewrite length_firstn; lia).
  assert (Hm : length m = 4) by (unfold m; rewrite length_firstn; lia).
  assert (Hmo : length mo = 4) by (unfold mo; rewrite length_firstn; lia).
  assert (Hfooter : footer = d ++ q ++ c ++ m ++ mo ++ rest).
  { unfold d, q, c, m, mo, rest.
    rewrite (firstn_skipn 4 r4). unfold r4.
    rewrite (firstn_skipn 4 r3). unfold r3.
    rewrite (firstn_skipn 4 r2). unfold r2.
    rewrite (firstn_skipn 8 r1). unfold r1.
    symmetry. apply firstn_skipn. }
  exists d, q, c, m, mo, rest.
  repeat (split; [assumption|]). split; [reflexivity|].
  rewrite Hfooter at 1.
  replace (d ++ q ++ c ++ m ++ mo ++ rest)
    with ((d ++ q ++ c ++ m ++ mo) ++ rest)
    by (rewrite <- !app_assoc; reflexivity).
  apply firstn_app_exact. rewrite !length_app. lia.
Qed.

(** [_unpack_footer] looks at the first 36 bytes only and fails with
    [struct.error] on fewer.  On 36 bytes or more it always returns an
    entry, with the first 16 bytes as digest and numbers within the fields
    of the footer: [_build_footer] takes that entry back to the same 36
    bytes, followed by the 12 zero bytes. *)
Theorem unpack_footer_then_build (name footer : bytes) :
  (length footer < 36 -> _unpack_footer name footer = Err StructError) /\
  (36 <= length footer ->
   exists fe,
     _unpack_footer name footer = Ok fe /\
     pathname fe = name /\ digest fe = Some (firstn 16 footer) /\
     isdir fe = false /\ salt fe = None /\
     numbers_ok fe = true /\
     _build_footer fe = Ok (firstn 36 footer ++ repeat x00 12)).
Proof.
  split.
  - intros Hlen. unfold _unpack_footer, unpack_QIIi.
    change 16%Z with (Z.of_nat 16). change 36%Z with (Z.of_nat 36).
    rewrite slice_from_to.
    replace (length (firstn (36 - 16) (skipn 16 footer)) =? 20) with false;
      [reflexivity|].
    symmetry. apply Nat.eqb_neq. rewrite length_firstn, length_skipn. lia.
  - intros Hlen.
    destruct (footer_layout_of_bytes footer Hlen)
      as (d & q & c & m & mo & rest & Hfooter & Hd & Hq & Hc & Hm & Hmo & Hf16 & Hf36).
    pose proof (be_decode_range q) as Rq. rewrite Hq in Rq.
    pose proof (be_decode_range c) as Rc. rewrite Hc in Rc.
    pose proof (be_decode_range m) as Rm. rewrite Hm in Rm.
    pose proof (unpack_signed_range mo) as Rmo. rewrite Hmo in Rmo.
    specialize (Rmo ltac:(lia)).
    change (256 ^ Z.of_nat 8)%Z with (2 ^ 64)%Z in Rq.
    change (256 ^ Z.of_nat 4)%Z with (2 ^ 32)%Z in Rc, Rm, Rmo.
    change (2 ^ 32 / 2)%Z with (2 ^ 31)%Z in Rmo.
    assert (Hlay : footer
                   = footer_layout d (be_decode q) (be_decode c) (be_decode m)
                       (unpack_signed mo) rest).
    { unfold footer_layout.
      rewrite <- Hq at 1. rewrite <- Hc at 1. rewrite <- Hm at 1.
      rewrite <- Hmo at 1.
      rewrite !be_encode_decode, be_encode_unpack_signed. exact Hfooter. }
    exists (new_FileEntry name (be_decode q) (PyInt (be_decode c))
              (PyInt (be_decode m)) (unpack_signed mo) (Some d) false).
    split.
    { rewrite Hlay at 1. apply unpack_footer_layout; assumption. }
    rewrite Hf16, Hf36. cbn [new_FileEntry pathname digest isdir salt].
    repeat (split; [reflexivity|]).
    split.
    { unfold numbers_ok, time_ok.
      cbn [new_FileEntry size ctime mtime mode py_int].
      repeat (apply andb_true_intro; split);
        try apply Z.leb_le; try apply Z.ltb_lt; lia. }
    rewrite (build_footer_layout _ d (be_decode c) (be_decode m));
      cbn [new_FileEntry digest size ctime mtime mode py_int];
      try reflexivity; try lia.
    unfold footer_layout.
    rewrite <- Hq at 1. rewrite <- Hc at 1. rewrite <- Hm at 1.
    rewrite <- Hmo at 1.
    rewrite !be_encode_decode, be_encode_unpack_signed.
    rewrite <- !app_assoc. reflexivity.
Qed.

(** ** The constructor *)


(** A key size that AES does not have (anything but 16, 24 or 32) passes
    the constructor and surfaces in the engine: [encrypt_fd] raises
    [ValueError] before it reads or writes anything, [decrypt_fd] after it
    has read the header, and writes nothing. *)
Theorem bad_key_size_surfaces_in_the_engine `{Libs} `{Host}
  (fuel : nat) (pw : text) (ks : nat) (self : Crypto)
  (file_entry : option (FileEntry text)) (flags : Z) (s : fds) :
  Crypto_init pw ks = Ok self ->
  aes_key_size_ok ks = false ->
  encrypt_fd fuel self file_entry flags s = (Raise ValueError, s) /\
  (16 <= length (in_fd s) ->
   (header_version (in_fd s) <= VERSION)%Z ->
   decrypt_fd fuel self s
   = (Raise ValueError, {| in_fd := skipn 16 (in_fd s); out_fd := out_fd s |})).
Proof.
  intros Hinit Hks.
  assert (Hsize : key_size self = ks).
  { unfold Crypto_init in Hinit.
    destruct (encode_latin1 pw); cbn [rbind] in Hinit; [|discriminate].
    injection Hinit as <-. reflexivity. }
  assert (Hnc : forall the_salt,
             new_cipher (fst (gen_key_and_iv self the_salt))
               (snd (gen_key_and_iv self the_salt)) = Err ValueError).
  { intros the_salt.
    destruct (gen_key_and_iv_lengths self the_salt) as [Hlk _].
    unfold new_cipher. rewrite Hlk, Hsize, Hks. reflexivity. }
  split.
  - unfold encrypt_fd.
    match goal with
    | |- context [gen_key_and_iv self ?x] =>
        specialize (Hnc x); destruct (gen_key_and_iv self x) as [key iv]
    end.
    cbn [fst snd] in Hnc. unfold bind at 1. rewrite Hnc.
    destruct s. reflexivity.
  - intros Hlen Hver.
    rewrite decrypt_fd_header by assumption. cbv zeta.
    rewrite Hnc. reflexivity.
Qed.

Lemma bad_key_size_witness :
  @encrypt_fd toy_libs toy_host 2 {| password := [x70; x77]; key_size := 20 |}
    None 0 {| in_fd := Sample.content; out_fd := [] |}
  = (Raise ValueError, {| in_fd := Sample.content; out_fd := [] |}).
Proof.
  apply (@bad_key_size_surfaces_in_the_engine toy_libs toy_host 2
           [0x70; 0x77]%N 20 {| password := [x70; x77]; key_size := 20 |}
           None 0 {| in_fd := Sample.content; out_fd := [] |});
    reflexivity.
Defined.

(** ** Streams that are no containers *)

Section DecryptAnyStream.
Context `{Libs}.

(** A stream whose length after the header is no multiple of 16 leaves a
    partial block in the cipher: [finalize] raises. *)
Lemma decrypt_loop_misaligned (fuel : nat) (key iv A N R name str_io h out : bytes) :
  (length A + length N + length R) mod 16 <> 0 ->
  N <> [] \/ R <> [] ->
  (if length R =? 0 then 1 else length R / (BUFFER_SIZE * 16) + 2) <= fuel ->
  decrypt_loop fuel 16 name (decryptor_after key iv A) str_io h N
    {| in_fd := R; out_fd := out |}
  = (Raise ValueError, {| in_fd := []; out_fd := out |}).
Proof.
  revert A N R str_io h.
  induction fuel as [|fuel IH]; intros A N R str_io h Hmis Hne Hfuel;
    [destruct (length R =? 0); lia|].
  rewrite decrypt_loop_S. cbn [in_fd out_fd]. cbv zeta.
  assert (Hsplit : length (firstn (BUFFER_SIZE * 16) R)
                   + length (skipn (BUFFER_SIZE * 16) R) = length R)
    by (rewrite <- length_app, firstn_skipn; reflexivity).
  assert (Hnext : R <> [] ->
            (if length (skipn (BUFFER_SIZE * 16) R) =? 0 then 1
             else length (skipn (BUFFER_SIZE * 16) R) / (BUFFER_SIZE * 16) + 2)
            <= fuel).
  { intros HR0.
    assert (HR : 0 < length R) by (destruct R; [congruence | cbn; lia]).
    clear - Hfuel HR. rewrite length_skipn. knorm.
    destruct (Nat.eqb_spec (length R) 0); [lia|].
    destruct (Nat.eqb_spec (length R - 1024 * 16) 0); lia. }
  assert (Hread : R <> [] -> firstn (BUFFER_SIZE * 16) R <> []).
  { intros HR0 Hnil. destruct R as [|r R]; [congruence|]. discriminate Hnil. }
  destruct N as [|b N0].
  - destruct Hne as [Hne|Hne]; [congruence|].
    apply IH.
    + cbn [length] in Hmis. rewrite Nat.add_0_r in Hmis.
      rewrite <- Nat.add_assoc, Hsplit. exact Hmis.
    + left. apply Hread, Hne.
    + apply Hnext, Hne.
  - set (N := b :: N0) in *.
    destruct (decryptor_update_stream key iv A N) as [Hctx _].
    rewrite Hctx.
    destruct (Nat.eqb_spec (length (firstn (BUFFER_SIZE * 16) R)) 0) as [Hend|Hmore].
    + assert (R = []) as ->.
      { destruct R as [|r R]; [reflexivity | discriminate Hend]. }
      unfold cipher_finalize, decryptor_after. cbn [ctx_buffer].
      pose proof (split_blocks_rest_length (A ++ N)) as Hrest.
      rewrite length_app in Hrest. cbn [length] in Hmis.
      rewrite Nat.add_0_r in Hmis.
      destruct (snd (split_blocks (A ++ N))) as [|x rest];
        [cbn [length] in Hrest; congruence|].
      rewrite skipn_nil. reflexivity.
    + assert (HR0 : R <> []) by (intros ->; apply Hmore; reflexivity).
      apply IH.
      * rewrite length_app, <- Nat.add_assoc, Hsplit. exact Hmis.
      * left. apply Hread, HR0.
      * apply Hnext, HR0.
Qed.

(** What the loop returns: the two accumulators have grown by the same
    bytes, the source is at its end, nothing is written. *)
Lemma decrypt_loop_return (fuel : nat) (name : bytes) (decryptor : CipherContext)
  (str_io : bytes) (h : md5_obj) (next_chunk : bytes) (s : fds)
  (fe : FileEntry bytes) (str' : bytes) (h' : md5_obj) (s' : fds) :
  decrypt_loop fuel 16 name decryptor str_io h next_chunk s
  = (Return (fe, str', h'), s') ->
  exists X,
    str' = str_io ++ X /\ h' = h ++ X /\
    out_fd s' = out_fd s /\ in_fd s' = [] /\
    pathname fe = name /\ isdir fe = false.
Proof.
  revert decryptor str_io h next_chunk s.
  induction fuel as [|fuel IH]; intros decryptor str_io h next_chunk s;
    [discriminate|].
  rewrite decrypt_loop_S. cbv zeta.
  destruct next_chunk as [|b N0].
  - intros Heq. apply IH in Heq. exact Heq.
  - destruct (Nat.eqb_spec (length (firstn (BUFFER_SIZE * 16) (in_fd s))) 0)
      as [Hend|Hmore].
    + destruct (cipher_finalize _) as [fin|e]; [|discriminate].
      destruct (_unpack_footer name _) as [fe0|e] eqn:Eun; [|discriminate].
      destruct (bytearray_first _) as [pl|e]; [|discriminate].
      intros [= <- <- <- <-].
      eexists. split; [reflexivity|]. split; [reflexivity|].
      cbn [in_fd out_fd]. split; [reflexivity|].
      split.
      { destruct (in_fd s) as [|r R]; [reflexivity | discriminate Hend]. }
      unfold _unpack_footer in Eun.
      destruct (unpack_QIIi _) as [[[[sz ct] mt] md]|e]; cbn [rbind] in Eun;
        [|discriminate].
      injection Eun as <-. split; reflexivity.
    + intros Heq. apply IH in Heq.
      destruct Heq as (X & Hs & Hh & Ho & Hi & Hp & Hd).
      exists (fst (decryptor_update decryptor (b :: N0)) ++ X).
      unfold md5_update in Hh. rewrite <- !app_assoc in Hs, Hh.
      repeat (split; [assumption|]). assumption.
Qed.

End DecryptAnyStream.

(** Whatever the stream: when the bytes after the header are no whole
    number of cipher blocks and some follow the pathname region,
    [decrypt_fd] reads the stream to its end and raises [ValueError] (the
    cipher's [finalize]); it writes nothing. *)
Theorem misaligned_stream_fails `{Libs} (fuel : nat) (self : Crypto) (s : fds) :
  (header_version (in_fd s) <= VERSION)%Z ->
  aes_key_size_ok (key_size self) = true ->
  16 + Z.to_nat (pathname_block_size 16 (header_pathname_size (in_fd s)))
    < length (in_fd s) ->
  length (in_fd s) mod 16 <> 0 ->
  length (in_fd s) / (BUFFER_SIZE * 16) + 2 <= fuel ->
  decrypt_fd fuel self s
  = (Raise ValueError, {| in_fd := []; out_fd := out_fd s |}).
Proof.
  intros Hver Hks Hregion Hmis Hfuel.
  assert (Hlen : 16 <= length (in_fd s)) by lia.
  rewrite decrypt_fd_header by assumption. cbv zeta.
  rewrite new_cipher_ok by exact Hks.
  set (stream := in_fd s) in *.
  set (p' := Z.to_nat (pathname_block_size 16 (header_pathname_size stream))) in *.
  set (key := fst (gen_key_and_iv self (header_salt stream))).
  set (iv := snd (gen_key_and_iv self (header_salt stream))).
  rewrite length_skipn.
  destruct (Nat.ltb_spec (length stream - 16) p') as [Hshort|_]; [lia|].
  change (encryptor_after key iv []) with (decryptor_after key iv []).
  destruct (decryptor_update_stream key iv [] (firstn p' (skipn 16 stream)))
    as [Hctx _].
  rewrite Hctx. cbn [app].
  unfold bind.
  assert (Hreg : length (firstn p' (skipn 16 stream)) = p')
    by (rewrite length_firstn, length_skipn; lia).
  assert (Hrest : length (skipn p' (skipn 16 stream)) = length stream - 16 - p')
    by (rewrite !length_skipn; lia).
  rewrite decrypt_loop_misaligned; [reflexivity | | |].
  - cbn [length]. rewrite Hreg, Hrest.
    clear - Hmis Hregion. lia.
  - right. intros Hnil. rewrite Hnil in Hrest. cbn [length] in Hrest. lia.
  - rewrite Hrest.
    destruct (Nat.eqb_spec (length stream - 16 - p') 0); [lia|].
    assert (Hle : (length stream - 16 - p') / (BUFFER_SIZE * 16)
                  <= length stream / (BUFFER_SIZE * 16))
      by (apply Nat.Div0.div_le_mono; lia).
    clear - Hle Hfuel. lia.
Qed.

Lemma misaligned_stream_witness :
  @decrypt_fd toy_libs 2 Sample.self
    {| in_fd := repeat x00 33; out_fd := [x68] |}
  = (Raise ValueError, {| in_fd := []; out_fd := [x68] |}).
Proof.
  apply (@misaligned_stream_fails toy_libs 2 Sample.self
           {| in_fd := repeat x00 33; out_fd := [x68] |});
    vm_compute; try reflexivity; try discriminate; lia.
Defined.

(** Whatever the stream, when [decrypt_fd] returns it has read the stream
    to its end and appended to the sink, in one piece, data that the
    returned entry vouches for: the entry's digest is the MD5 of the stored
    content [body], and the data is [body], or its decompression when the
    flags of the header ask for it; the entry carries the salt of the
    header and is no directory. *)
Theorem decrypt_fd_returns_checked `{Libs} (fuel : nat) (self : Crypto) (s : fds)
  (fe : FileEntry bytes) (s' : fds) :
  decrypt_fd fuel self s = (Return fe, s') ->
  exists body data,
    out_fd s' = out_fd s ++ data /\
    in_fd s' = [] /\
    digest fe = Some (md5 body) /\
    salt fe = Some (header_salt (in_fd s)) /\
    isdir fe = false /\
    (if negb (Z.land (header_flags (in_fd s)) COMPRESS =? 0)%Z
     then zlib_decompress body = Some data
     else data = body).
Proof.
  destruct (Nat.lt_ge_cases (length (in_fd s)) 16) as [Hshort|Hlen].
  { rewrite decrypt_fd_short by exact Hshort. discriminate. }
  destruct (Z.lt_ge_cases VERSION (header_version (in_fd s))) as [Hgt|Hle].
  { rewrite decrypt_fd_version by assumption. discriminate. }
  rewrite decrypt_fd_header by assumption. cbv zeta.
  destruct (new_cipher _ _) as [decryptor|e0]; [|discriminate].
  destruct (length (skipn 16 (in_fd s)) <? _); [discriminate|].
  unfold bind.
  match goal with
  | |- context [decrypt_loop ?f ?b ?n ?d ?st ?h ?nc ?s0] =>
      pose proof (decrypt_loop_return f n d st h nc s0) as Hloop;
      destruct (decrypt_loop f b n d st h nc s0) as [[[[fe0 str] md] | e1 | ] s1]
  end; [|discriminate|discriminate].
  destruct (Hloop fe0 str md s1 eq_refl) as (X & Hstr & Hmd & Hout & Hin & _ & Hdir).
  cbn [app] in Hstr, Hmd. subst str md. cbn [out_fd] in Hout.
  unfold decrypt_finish, bind.
  set (compressed := negb (Z.land (header_flags (in_fd s)) COMPRESS =? 0)%Z).
  assert (Hfin : forall data (s2 : fds),
    (if negb (match digest (set_salt fe0 (header_salt (in_fd s))) with
              | Some d => bytes_eqb d (slice (md5_digest X) None (Some (Z.of_nat 16)))
              | None => false
              end)
     then raise DigestMissMatch
     else fun s3 => let (o, s4) := fd_write data s3 in
            match o with
            | Return _ => ret (set_salt fe0 (header_salt (in_fd s))) s4
            | Raise e => (Raise e, s4)
            | OutOfFuel => (OutOfFuel, s4)
            end) s2 = (Return fe, s') ->
    out_fd s' = out_fd s2 ++ data /\ in_fd s' = in_fd s2 /\
    digest fe = Some (md5 X) /\
    salt fe = Some (header_salt (in_fd s)) /\ isdir fe = false).
  { intros data s2. cbn [set_salt digest].
    destruct (digest fe0) as [d|] eqn:Ed; cbn [negb]; [|discriminate].
    destruct (bytes_eqb d _) eqn:Eeq; cbn [negb]; [|discriminate].
    cbn [fd_write ret]. intros [= <- <-]. cbn [out_fd in_fd set_salt digest salt isdir].
    apply bytes_eqb_eq in Eeq. rewrite slice_to in Eeq.
    unfold md5_digest in Eeq.
    rewrite firstn_all2 in Eeq by (rewrite md5_length; lia).
    subst d. rewrite Ed. repeat split; try reflexivity. exact Hdir. }
  destruct compressed.
  - destruct (zlib_decompress X) as [data|] eqn:Ez; cbn [ret raise];
      [|discriminate].
    intros Heq. apply Hfin in Heq.
    destruct Heq as (Ho & Hi & Hd & Hs & Hdr).
    exists X, data. rewrite Ho, Hi, Hout, Hin. repeat split; assumption.
  - cbn [ret]. intros Heq. apply Hfin in Heq.
    destruct Heq as (Ho & Hi & Hd & Hs & Hdr).
    exists X, X. rewrite Ho, Hi, Hout, Hin. repeat split; assumption.
Qed.

Lemma decrypt_fd_returns_checked_witness :
  exists body data,
    [x2d] ++ Sample.content = [x2d] ++ data /\
    @nil byte = [] /\
    Some (Toy.md5 Sample.content) = Some (@md5 toy_libs body) /\
    Some Sample.the_salt
    = Some (header_salt
              (@container toy_libs Sample.self 0 Sample.name Sample.the_salt
                 Sample.content (Toy.md5 Sample.content)
                 2 1446336000 1446336001 420)) /\
    false = false /\
    (if negb (Z.land
                (header_flags
                   (@container toy_libs Sample.self 0 Sample.name Sample.the_salt
                      Sample.content (Toy.md5 Sample.content)
                      2 1446336000 1446336001 420)) COMPRESS =? 0)%Z
     then @zlib_decompress toy_libs body = Some data
     else data = body).
Proof.
  apply (@decrypt_fd_returns_checked toy_libs 2 Sample.self
           {| in_fd := @container toy_libs Sample.self 0 Sample.name
                         Sample.the_salt Sample.content (Toy.md5 Sample.content)
                         2 1446336000 1446336001 420;
              out_fd := [x2d] |}
           {| pathname := Sample.name; size := 2; ctime := PyInt 1446336000;
              mtime := PyInt 1446336001; mode := 420;
              digest := Some (Toy.md5 Sample.content); isdir := false;
              salt := Some Sample.the_salt |}
           {| in_fd := []; out_fd := [x2d] ++ Sample.content |}).
  vm_compute. reflexivity.
Defined.

(** ** The round trip, within the lengths the loop can decrypt *)

(** For every content whose length keeps padding and footer within the
    last chunk the loop of [decrypt_fd] reads, every entry whose numbers fit
    the footer, whose salt is absent or 12 bytes long and whose pathname
    encodes to at most 65535 bytes of UTF-8, and every engine with an AES
    key size: [encrypt_fd] (default flags) returns the entry with salt and
    digest filled in, and [decrypt_fd] on what it wrote writes exactly the
    content and returns an entry with the same size and mode, the whole
    seconds of ctime and mtime, the UTF-8 bytes of the pathname, the salt of
    the header and the digest of the content. *)
Theorem roundtrip `{Libs} `{Host} (fuel : nat) (self : Crypto)
  (file_entry : option (FileEntry text)) (content out out' name : bytes) :
  let fe := effective_entry file_entry in
  aes_key_size_ok (key_size self) = true ->
  numbers_ok fe = true ->
  salt_ok fe = true ->
  encode_utf8 (pathname fe) = Ok name ->
  (Z.of_nat (length name) < 65536)%Z ->
  footer_in_last_chunk (length content) = true ->
  (length content + 64) / (BUFFER_SIZE * 16) + 2 <= fuel ->
  exists c ct mt,
    py_int (ctime fe) = Ok ct /\ py_int (mtime fe) = Ok mt /\
    encrypt_fd fuel self file_entry 0 {| in_fd := content; out_fd := out |}
    = (Return (set_digest (set_salt fe (effective_salt fe)) (md5 content)),
       {| in_fd := []; out_fd := out ++ c |}) /\
    decrypt_fd fuel self {| in_fd := c; out_fd := out' |}
    = (Return {| pathname := name; size := size fe; ctime := PyInt ct;
                 mtime := PyInt mt; mode := mode fe;
                 digest := Some (md5 content); isdir := false;
                 salt := Some (effective_salt fe) |},
       {| in_fd := []; out_fd := out' ++ content |}).
Proof.
  intros fe Hks Hnum Hsalt Henc Hname Hlast Hfuel.
  destruct (numbers_ok_inv fe Hnum) as (_ & Hci & _ & Hmi & _ & _).
  exists (container self 0 name (effective_salt fe) content (md5 content)
            (size fe) (seconds (ctime fe)) (seconds (mtime fe)) (mode fe)).
  exists (seconds (ctime fe)), (seconds (mtime fe)).
  split; [exact Hci|]. split; [exact Hmi|].
  exact (roundtrip_flags fuel self file_entry 0 content out out' name
           Hks Hnum Hsalt Henc Hname Hlast Hfuel).
Qed.

(** No entry given: the default entry is timed by two calls of the clock,
    1446336000.5 and 1446336001.25 here, and comes back with whole
    seconds. *)
Lemma roundtrip_witness :
  exists c ct mt,
    Ok 1446336000%Z = Ok ct /\ Ok 1446336001%Z = Ok mt /\
    @encrypt_fd toy_libs toy_host 2 Sample.self None 0
      {| in_fd := Sample.content; out_fd := [] |}
    = (Return (set_digest
                 (set_salt (@effective_entry toy_host None) (repeat x2a 12))
                 (Toy.md5 Sample.content)),
       {| in_fd := []; out_fd := [] ++ c |}) /\
    @decrypt_fd toy_libs 2 Sample.self {| in_fd := c; out_fd := [] |}
    = (Return {| pathname := [x2e; x74; x6d; x70]; size := 0;
                 ctime := PyInt ct; mtime := PyInt mt; mode := 0;
                 digest := Some (Toy.md5 Sample.content); isdir := false;
                 salt := Some (repeat x2a 12) |},
       {| in_fd := []; out_fd := [] ++ Sample.content |}).
Proof.
  apply (@roundtrip toy_libs toy_host 2 Sample.self None
           Sample.content [] [] [x2e; x74; x6d; x70]);
    reflexivity.
Defined.

(** ** The layout of what encrypt_fd writes *)

(** For every content: the header, then the encryption, as one CBC stream,
    of the pathname, its zero padding to a multiple of 16, the content,
    [16 - n mod 16] bytes of that value ([n] the content length; between 1
    and 16 bytes, so that content and padding make whole blocks), and the 48
    bytes of the footer built from the entry with the digest of the
    content. *)
Theorem encrypt_fd_layout `{Libs} `{Host} (fuel : nat) (self : Crypto)
  (file_entry : option (FileEntry text)) (content out name : bytes) :
  let fe := effective_entry file_entry in
  let n := length content in
  let padding_length := 16 - n mod 16 in
  let key := fst (gen_key_and_iv self (effective_salt fe)) in
  let iv := snd (gen_key_and_iv self (effective_salt fe)) in
  aes_key_size_ok (key_size self) = true ->
  numbers_ok fe = true ->
  encode_utf8 (pathname fe) = Ok name ->
  (Z.of_nat (length name) < 65536)%Z ->
  n / (BUFFER_SIZE * 16) + 2 <= fuel ->
  1 <= padding_length <= 16 /\
  (n + padding_length) mod 16 = 0 /\
  exists footer,
    _build_footer (set_digest fe (md5 content)) = Ok footer /\
    length footer = 48 /\
    encrypt_fd fuel self file_entry 0 {| in_fd := content; out_fd := out |}
    = (Return (set_digest (set_salt fe (effective_salt fe)) (md5 content)),
       {| in_fd := [];
          out_fd :=
            out ++ header 0 (length name) (effective_salt fe)
              ++ cbc_encrypt key iv
                   (name ++ repeat x00 ((16 - length name mod 16) mod 16)
                      ++ content
                      ++ repeat (byte_of_Z (Z.of_nat padding_length))
                           padding_length
                      ++ footer) |}).
Proof.
  intros fe n padding_length key iv Hks Hnum Henc Hname Hfuel.
  split; [unfold padding_length; lia|].
  split; [unfold padding_length; lia|].
  destruct (numbers_ok_inv fe Hnum) as (Hs & Hci & Hc & Hmi & Hm & Hmo).
  exists (footer_layout (md5 content) (size fe) (seconds (ctime fe))
            (seconds (mtime fe)) (mode fe) (repeat x00 12)).
  split.
  { apply (build_footer_layout (set_digest fe (md5 content)) (md5 content)
             (seconds (ctime fe)) (seconds (mtime fe)));
      first [reflexivity | assumption]. }
  split; [rewrite footer_layout_length, md5_length, repeat_length; reflexivity|].
  rewrite (encrypt_fd_container fuel self file_entry 0 content out name)
    by assumption.
  change (compresses 0) with false. cbv iota.
  unfold container, plain_stream, content_padding, pathname_padding.
  fold fe n padding_length key iv.
  destruct (Nat.eqb_spec (length name mod 16) 0) as [He|Hne].
  - rewrite He. reflexivity.
  - rewrite (Nat.mod_small (16 - length name mod 16)) by lia. reflexivity.
Qed.

Lemma encrypt_fd_layout_witness :
  exists footer,
    length footer = 48 /\
    out_fd (snd (@encrypt_fd toy_libs toy_host 2 Sample.self (Some Sample.entry) 0
                   {| in_fd := repeat x61 16; out_fd := [] |}))
    = header 0 3 (repeat x2a 12)
        ++ @cbc_encrypt toy_libs
             (fst (@gen_key_and_iv toy_libs Sample.self (repeat x2a 12)))
             (snd (@gen_key_and_iv toy_libs Sample.self (repeat x2a 12)))
             (Sample.name ++ repeat x00 13 ++ repeat x61 16 ++ repeat x10 16
                ++ footer).
Proof.
  destruct (@encrypt_fd_layout toy_libs toy_host 2 Sample.self (Some Sample.entry)
              (repeat x61 16) [] Sample.name)
    as (_ & _ & footer & _ & Hl & He); try reflexivity.
  exists footer. split; [exact Hl|].
  rewrite He. reflexivity.
Defined.

(** ** compress_fd and decompress_fd *)


(** The compression stage of [encrypt_fd] (lines 152-157) is [compress_fd]
    into a fresh buffer, which then takes the place of the source; the
    decompression of [decrypt_fd] (lines 219-225) is [decompress_fd] from
    the buffer of the recovered content into a fresh one. *)
Lemma engine_stages_are_helpers `{Libs} (s : fds) (str_io : bytes) :
  bind fd_read_all (fun data => fd_rebind (zlib_compress data)) s
  = (Return tt,
     {| in_fd := out_fd (snd (compress_fd {| in_fd := in_fd s; out_fd := [] |}));
        out_fd := out_fd s |}) /\
  match zlib_decompress str_io with
  | Some data => ret data
  | None => raise ZlibError
  end s
  = match decompress_fd {| in_fd := str_io; out_fd := [] |} with
    | (Return _, buf) => (Return (out_fd buf), s)
    | (Raise e, _) => (Raise e, s)
    | (OutOfFuel, _) => (OutOfFuel, s)
    end.
Proof.
  split; [reflexivity|].
  unfold decompress_fd, bind. cbn [fd_read_all in_fd out_fd].
  destruct (zlib_decompress str_io); reflexivity.
Qed.

(** ** The calls on paths *)

Section FileFacts.
Context `{Libs} `{Host}.

(** A call of [decrypt_fd] that is still in its loop when the fuel is spent
    has written nothing. *)
Lemma decrypt_fd_spin_frame (fuel : nat) (self : Crypto) (s : fds) :
  fst (decrypt_fd fuel self s) = OutOfFuel ->
  out_fd (snd (decrypt_fd fuel self s)) = out_fd s.
Proof.
  destruct (Nat.lt_ge_cases (length (in_fd s)) 16) as [Hshort|Hlen].
  { rewrite decrypt_fd_short by exact Hshort. discriminate. }
  destruct (Z.lt_ge_cases VERSION (header_version (in_fd s))) as [Hgt|Hle].
  { rewrite decrypt_fd_version by assumption. discriminate. }
  rewrite decrypt_fd_header by assumption. cbv zeta.
  destruct (new_cipher _ _) as [decryptor|e0]; [|discriminate].
  destruct (length (skipn 16 (in_fd s)) <? _); [discriminate|].
  unfold bind.
  match goal with
  | |- context [decrypt_loop ?f ?b ?n ?d ?st ?h ?nc ?s0] =>
      destruct (decrypt_loop_frame f b n d st h nc s0) as [Hout _];
      destruct (decrypt_loop f b n d st h nc s0) as [[[[fe str] md] | e1 | ] s1]
  end; cbn [fst snd out_fd] in *.
  - unfold decrypt_finish, bind.
    destruct (negb (Z.land _ COMPRESS =? 0)%Z).
    + destruct (zlib_decompress str); cbn [ret raise];
        [destruct (negb _); discriminate | discriminate].
    + cbn [ret]. destruct (negb _); discriminate.
  - discriminate.
  - intros _. exact Hout.
Qed.

Lemma decrypt_fd_no_return_frame (fuel : nat) (self : Crypto) (s : fds) :
  (forall fe, fst (decrypt_fd fuel self s) <> Return fe) ->
  out_fd (snd (decrypt_fd fuel self s)) = out_fd s.
Proof.
  intros Hno.
  destruct (fst (decrypt_fd fuel self s)) as [fe|e|] eqn:E.
  - exfalso. apply (Hno fe). reflexivity.
  - apply (decrypt_fd_raise_frame fuel self s e E).
  - apply decrypt_fd_spin_frame, E.
Qed.

Lemma path_eqb_spec (p q : path) : reflect (p = q) (path_eqb p q).
Proof.
  revert q. induction p as [|c p IH]; intros [|d q]; cbn [path_eqb];
    try (constructor; congruence).
  destruct (N.eqb_spec c d) as [->|Hcd]; cbn [andb].
  - destruct (IH q) as [->|Hpq]; constructor; congruence.
  - constructor. congruence.
Qed.

Lemma fs_write_same (fs : filesystem) (p : path) (data : bytes) :
  fs_write fs p data p = Some data.
Proof.
  unfold fs_write. destruct (path_eqb_spec p p); [reflexivity | congruence].
Qed.

Lemma fs_write_other (fs : filesystem) (p q : path) (data : bytes) :
  q <> p -> fs_write fs p data q = fs q.
Proof.
  intros Hne. unfold fs_write.
  destruct (path_eqb_spec q p); [contradiction | reflexivity].
Qed.

End FileFacts.

(** [decrypt_file] empties the plain file before it looks at the encrypted
    one: whenever the call does not return (the encrypted file is missing,
    [decrypt_fd] raises, for any reason, or never ends) the plain file
    exists and is empty, whatever it held before, and no other file has
    changed. *)
Theorem decrypt_file_failure_leaves_empty_file `{Libs} (fuel : nat) (self : Crypto)
  (encrypted_path plain_path : path) (fs : filesystem) :
  (forall fe,
     fst (decrypt_file fuel self encrypted_path plain_path fs) <> Return fe) ->
  let fs' := snd (decrypt_file fuel self encrypted_path plain_path fs) in
  fs' plain_path = Some [] /\
  forall q, q <> plain_path -> fs' q = fs q.
Proof.
  unfold decrypt_file.
  destruct (fs_write fs plain_path [] encrypted_path) as [stored|] eqn:Eopen.
  - pose proof (decrypt_fd_no_return_frame fuel self
                  {| in_fd := stored; out_fd := [] |}) as Hframe.
    destruct (decrypt_fd fuel self {| in_fd := stored; out_fd := [] |})
      as [r s]. cbn [fst snd] in *.
    intros Hno. rewrite (Hframe Hno). cbn [out_fd].
    split; [apply fs_write_same|].
    intros q Hq. rewrite !fs_write_other by exact Hq. reflexivity.
  - cbn [fst snd]. intros _.
    split; [apply fs_write_same|].
    intros q Hq. apply fs_write_other, Hq.
Qed.

(** The plain file held b"hi"; the encrypted file holds 33 zero bytes. *)
Lemma decrypt_file_failure_witness :
  let fs := fun q : path =>
              if path_eqb q Sample.plain_path then Some Sample.content
              else if path_eqb q Sample.encrypted_path then Some (repeat x00 33)
              else None in
  snd (@decrypt_file toy_libs 2 Sample.self Sample.encrypted_path Sample.plain_path fs) Sample.plain_path
  = Some [] /\
  forall q, q <> Sample.plain_path ->
    snd (@decrypt_file toy_libs 2 Sample.self Sample.encrypted_path Sample.plain_path fs) q = fs q.
Proof.
  intros fs.
  apply (@decrypt_file_failure_leaves_empty_file toy_libs 2 Sample.self
           Sample.encrypted_path Sample.plain_path fs).
  intros fe. vm_compute. discriminate.
Defined.

(** Decrypting a file onto itself destroys it: the file is emptied by the
    first [open], the header read finds nothing, and the call raises
    [UnrecognizedContent]; the container is lost. *)
Theorem decrypt_file_in_place `{Libs} (fuel : nat) (self : Crypto)
  (p : path) (fs : filesystem) :
  fst (decrypt_file fuel self p p fs) = Raise UnrecognizedContent /\
  snd (decrypt_file fuel self p p fs) p = Some [] /\
  forall q, q <> p -> snd (decrypt_file fuel self p p fs) q = fs q.
Proof.
  unfold decrypt_file. rewrite fs_write_same.
  rewrite decrypt_fd_short by (cbn; lia). cbn [fst snd out_fd].
  split; [reflexivity|].
  split; [apply fs_write_same|].
  intros q Hq. rewrite !fs_write_other by exact Hq. reflexivity.
Qed.



(** ** An entry that already carries a salt *)

Section ReusedSalt.
Context `{Libs} `{Host}.

(** The container up to a point of its plaintext that lies on a block
    boundary depends on the plaintext up to that point only. *)
Lemma container_prefix (self : Crypto) (flags : Z) (the_salt x y : bytes)
  (p : nat) :
  length x mod 16 = 0 ->
  let key := fst (gen_key_and_iv self the_salt) in
  let iv := snd (gen_key_and_iv self the_salt) in
  firstn (length (header flags p the_salt) + length x)
    (header flags p the_salt ++ cbc_encrypt key iv (x ++ y))
  = header flags p the_salt ++ cbc_encrypt key iv x.
Proof.
  intros Hx key iv.
  destruct (gen_key_and_iv_lengths self the_salt) as [_ Hiv].
  destruct (encryptor_update_stream key iv x y) as [_ Hout].
  rewrite Hout, app_assoc.
  apply firstn_app_exact.
  rewrite length_app, cbc_encrypt_length by exact Hiv.
  f_equal. clear - Hx. lia.
Qed.

End ReusedSalt.

(** [encrypt_fd] draws a salt only for an entry without one, and key and
    IV come from password and salt alone.  Two contents encrypted under an
    entry that carries a salt, when they start with the same whole blocks
    [common], give containers that agree on the header, the pathname and
    the encryption of [common]: the containers show how far the two contents
    agree. *)
Theorem reused_salt_shows_common_prefix `{Libs} `{Host} (fuel : nat) (self : Crypto)
  (fe : FileEntry text) (the_salt name common rest1 rest2 out1 out2 : bytes) :
  salt fe = Some the_salt ->
  aes_key_size_ok (key_size self) = true ->
  numbers_ok fe = true ->
  encode_utf8 (pathname fe) = Ok name ->
  (Z.of_nat (length name) < 65536)%Z ->
  length common mod 16 = 0 ->
  length (common ++ rest1) / (BUFFER_SIZE * 16) + 2 <= fuel ->
  length (common ++ rest2) / (BUFFER_SIZE * 16) + 2 <= fuel ->
  exists c1 c2,
    out_fd (snd (encrypt_fd fuel self (Some fe) 0
                   {| in_fd := common ++ rest1; out_fd := out1 |}))
    = out1 ++ c1 /\
    out_fd (snd (encrypt_fd fuel self (Some fe) 0
                   {| in_fd := common ++ rest2; out_fd := out2 |}))
    = out2 ++ c2 /\
    let shared :=
      4 + length the_salt
      + (length name + length (pathname_padding (length name)))
      + length common in
    shared <= length c1 /\ shared <= length c2 /\
    firstn shared c1 = firstn shared c2.
Proof.
  intros Hsalt Hks Hnum Henc Hname Hcommon Hfuel1 Hfuel2.
  assert (Hes : effective_salt (effective_entry (Some fe)) = the_salt)
    by (unfold effective_salt; cbn [effective_entry]; rewrite Hsalt; reflexivity).
  pose proof (encrypt_fd_container fuel self (Some fe) 0 (common ++ rest1)
                out1 name Hks Hnum Henc Hname Hfuel1) as He1.
  pose proof (encrypt_fd_container fuel self (Some fe) 0 (common ++ rest2)
                out2 name Hks Hnum Henc Hname Hfuel2) as He2.
  cbv zeta in He1, He2.
  change (compresses 0) with false in He1, He2. cbv iota in He1, He2.
  rewrite Hes in He1, He2. cbn [effective_entry] in He1, He2.
  rewrite He1, He2. cbn [snd out_fd].
  eexists. eexists. split; [reflexivity|]. split; [reflexivity|].
  cbv zeta.
  unfold container, plain_stream.
  set (x := name ++ pathname_padding (length name) ++ common).
  assert (Hx : length x mod 16 = 0).
  { unfold x. rewrite !length_app.
    pose proof (pathname_padding_aligned (length name)) as Hal.
    clear - Hal Hcommon. lia. }
  assert (Hhdr : length (header (Z.land 0 255) (length name) the_salt)
                 = 4 + length the_salt).
  { unfold header. rewrite !length_app, be_encode_length. reflexivity. }
  assert (Hshared : 4 + length the_salt
                    + (length name + length (pathname_padding (length name)))
                    + length common
                    = length (header (Z.land 0 255) (length name) the_salt)
                      + length x).
  { rewrite Hhdr. unfold x. rewrite !length_app. lia. }
  rewrite Hshared.
  assert (Hform : forall rest tail,
            name ++ pathname_padding (length name)
              ++ (common ++ rest) ++ tail
            = x ++ (rest ++ tail)).
  { intros rest tail. unfold x. rewrite <- !app_assoc. reflexivity. }
  rewrite !Hform.
  rewrite !(container_prefix self (Z.land 0 255) the_salt x _ (length name) Hx).
  destruct (gen_key_and_iv_lengths self the_salt) as [_ Hiv].
  assert (Hlen : forall y,
            length (header (Z.land 0 255) (length name) the_salt) + length x
            <= length (header (Z.land 0 255) (length name) the_salt
                         ++ cbc_encrypt (fst (gen_key_and_iv self the_salt))
                              (snd (gen_key_and_iv self the_salt)) (x ++ y))).
  { intros y. rewrite length_app, cbc_encrypt_length by exact Hiv.
    rewrite length_app. apply Nat.add_le_mono_l.
    generalize (length x) (length y) Hx. clear. intros a b Ha. lia. }
  split; [apply Hlen|]. split; [apply Hlen | reflexivity].
Qed.

Lemma reused_salt_witness :
  exists c1 c2,
    out_fd (snd (@encrypt_fd toy_libs toy_host 2 Sample.self
                   (Some (set_salt Sample.entry Sample.the_salt)) 0
                   {| in_fd := repeat x61 16 ++ [x68]; out_fd := [] |}))
    = [] ++ c1 /\
    out_fd (snd (@encrypt_fd toy_libs toy_host 2 Sample.self
                   (Some (set_salt Sample.entry Sample.the_salt)) 0
                   {| in_fd := repeat x61 16 ++ [x69; x69]; out_fd := [] |}))
    = [] ++ c2 /\
    4 + 12 + (3 + 13) + 16 <= length c1 /\
    4 + 12 + (3 + 13) + 16 <= length c2 /\
    firstn (4 + 12 + (3 + 13) + 16) c1 = firstn (4 + 12 + (3 + 13) + 16) c2.
Proof.
  apply (@reused_salt_shows_common_prefix toy_libs toy_host 2 Sample.self
           (set_salt Sample.entry Sample.the_salt) Sample.the_salt Sample.name
           (repeat x61 16) [x68] [x69; x69] [] []);
    reflexivity.
Defined.
